(** * SpendingAnalyzer (Prototype.py): a shallow embedding and its properties

    The development follows [Prototype.py] method by method.

    Modelling conventions.
    - Numbers.  The [Amount] column and every derived figure are Python
      floats.  They are described at two levels.  In the first part a
      number is the rational it denotes ([Q]), [+], [-], [*] and [/]
      are exact, and [round(x, 2)] is rounding to the nearest
      hundredth, ties to even.  This level abstracts from binary
      rounding; it carries the properties that do not depend on the
      last digit of a figure: which rows, categories and warnings are
      reported, in which order and with which marks.  The module
      [Float64] gives the methods that compute the reported figures
      with the arithmetic of binary64, in which every operation rounds
      its exact result to the nearest double; it carries the properties
      of the figures themselves.  Where the additions of a sum are made
      inside the interpreter or inside pandas, the sum is a parameter.
      Not-a-number never reaches the code after [fillna(0)]; infinities
      are outside both levels.
    - Text.  A Python [str] is a [string]; each character stands for the
      code point of the same number (0..255).  [str.lower] and
      [str.strip] act on these code points as Python does.
    - pandas.  A data frame is the list of its rows in index order, each
      row carrying its index label.  Only the behaviour of the pandas
      calls that the source makes is modelled: [read_csv] is
      represented by its outcome (the exception it raises, or the
      columns, lines and index labels it delivers), [df.at[label,
      column] = v] writes to every row that carries the label,
      [to_datetime(...,
      errors='coerce')] is represented by its outcome (a time stamp or
      [NaT] per cell, and whether the column is time-zone aware),
      comparison of a time-zone aware column with the naive run-time
      stamp raises [TypeError], [duplicated(subset=...)] raises
      [KeyError] for a column that is absent, [groupby] iterates its keys
      in sorted order, [quantile] interpolates linearly.
    - State.  Methods that assign to attributes of [self] are functions
      returning the result together with the new analyzer. *)

From Stdlib Require Import ZArith QArith Qabs Qround Lia List Bool Ascii String.
From Stdlib Require Import Sorted Permutation Morphisms OrderedTypeEx.
From Stdlib Require Import Qpower Lqa.
From Stdlib Require PrimFloat FloatOps SpecFloat.
Import ListNotations.

Local Open Scope string_scope.
Local Open Scope list_scope.
Local Open Scope Q_scope.

(** ** Text *)

(** [str.lower] on one code point below 256: the ASCII capitals and the
    Latin-1 capitals U+00C0..U+00DE (the multiplication sign U+00D7
    apart) move up by 32; everything else is left alone. *)
Definition lower_char (c : ascii) : ascii :=
  let n := nat_of_ascii c in
  if ((65 <=? n) && (n <=? 90))%nat
     || ((192 <=? n) && (n <=? 222) && negb (n =? 215))%nat
  then ascii_of_nat (n + 32)
  else c.

Fixpoint lower (s : string) : string :=
  match s with
  | EmptyString => EmptyString
  | String c s' => String (lower_char c) (lower s')
  end.

(** [needle in haystack] for Python strings. *)
Fixpoint contains (needle haystack : string) : bool :=
  prefix needle haystack
  || match haystack with
     | EmptyString => false
     | String _ rest => contains needle rest
     end.

(** [Series.str.contains('k1|k2|...')]: a regular expression that is an
    alternation of plain words matches where one of the words occurs. *)
Definition contains_any (keywords : list string) (s : string) : bool :=
  existsb (fun k => contains k s) keywords.

(** White space as [str.strip()] sees it among the code points below 128. *)
Definition is_space (c : ascii) : bool :=
  let n := nat_of_ascii c in
  (((9 <=? n) && (n <=? 13)) || ((28 <=? n) && (n <=? 32)))%nat.

Fixpoint lstrip (s : string) : string :=
  match s with
  | EmptyString => EmptyString
  | String c s' => if is_space c then lstrip s' else s
  end.

Fixpoint rstrip (s : string) : string :=
  match s with
  | EmptyString => EmptyString
  | String c s' =>
      match rstrip s' with
      | EmptyString => if is_space c then EmptyString else String c EmptyString
      | t => String c t
      end
  end.

Definition strip (s : string) : string := rstrip (lstrip s).

(** [''.join(c if ord(c) < 128 else '?' for c in str(x))] *)
Definition sanitize_char (c : ascii) : ascii :=
  if (nat_of_ascii c <? 128)%nat then c else "?"%char.

Fixpoint sanitize (s : string) : string :=
  match s with
  | EmptyString => EmptyString
  | String c s' => String (sanitize_char c) (sanitize s')
  end.

(** ** Numbers *)

Definition Qltb (x y : Q) : bool := negb (Qle_bool y x).
Definition Qgeb (x y : Q) : bool := Qle_bool y x.
Definition Qgtb (x y : Q) : bool := Qltb y x.

(** Nearest integer, ties to the even one. *)
Definition round_half_even (q : Q) : Z :=
  let n := Qnum q in
  let d := Zpos (Qden q) in
  let f := (n / d)%Z in
  let r2 := (2 * (n mod d))%Z in
  if (r2 <? d)%Z then f
  else if (d <? r2)%Z then (f + 1)%Z
  else if Z.even f then f else (f + 1)%Z.

(** [round(x, 2)] *)
Definition round2 (q : Q) : Q := round_half_even (q * 100) # 100.

(** [sum(...)] of Python: left to right, starting from 0. *)
Definition Qsum (l : list Q) : Q := fold_left Qplus l 0.

(** Ascending sort of a numeric column (insertion sort). *)
Fixpoint Qinsert (x : Q) (l : list Q) : list Q :=
  match l with
  | [] => [x]
  | y :: l' => if Qle_bool x y then x :: l else y :: Qinsert x l'
  end.

Definition Qsort (l : list Q) : list Q := fold_right Qinsert [] l.

(** [Series.quantile(q)] with the default linear interpolation: position
    [(n - 1) * q] in the sorted values, interpolating between its two
    neighbours. *)
Definition quantile (q : Q) (values : list Q) : Q :=
  let s := Qsort values in
  let h := inject_Z (Z.of_nat (List.length s - 1)) * q in
  let lo := Z.to_nat (Qfloor h) in
  let frac := h - inject_Z (Qfloor h) in
  let a := nth lo s 0 in
  let b := nth (Nat.min (lo + 1) (List.length s - 1)) s 0 in
  a + frac * (b - a).

(** ** Exceptions and warnings *)

(** The exceptions that reach the caller of the constructor: the two the
    source can be seen to raise, and those that [pd.read_csv] raises on
    a file it cannot turn into a frame (an empty file, lines with too
    many fields, bytes that are not text, a directory). *)
Inductive exn : Type :=
| FileNotFoundError
| KeyError (column : string)
| EmptyDataError
| ParserError
| UnicodeDecodeError
| OSError.

Inductive result (A : Type) : Type :=
| Ok (a : A)
| Raise (e : exn).
Arguments Ok {A} a.
Arguments Raise {A} e.

(** The messages appended to [self.warnings]; each constructor stands for
    one f-string of the source, its arguments for the interpolated
    values. *)
Inductive warning : Type :=
| RemovedFutureDated (future_count : nat)
| DateParsingError
| CorrectedIncomeSign (idx : nat)
| ExtremeOutliers (n : nat)
| PotentialDuplicates (n : nat).

(** ** The transaction table *)

(** What [pd.to_datetime] makes of the [Date] column, when there is one:
    a column of naive time stamps, or a time-zone aware one. *)
Inductive date_column : Type :=
| DateAbsent
| DateNaive
| DateAware.

(** One line of the file as [pd.read_csv] delivers it.  [None] is a
    missing cell; for [cell_Date] it is also a cell that
    [to_datetime(errors='coerce')] turns into [NaT], and for
    [cell_Amount] one that [to_numeric(errors='coerce')] turns into
    NaN.  A time stamp is the number of nanoseconds since the epoch. *)
Record cells : Type := mkCells {
  cell_Date : option Z;
  cell_Amount : option Q;
  cell_Category : option string;
  cell_Description : option string
}.

(** A file that [pd.read_csv] accepts.  [csv_index] is [None] for a
    file whose lines have as many fields as the header; when they have
    one more, the leading field of each line is its index label and
    [csv_index] lists these labels, one per line (a number stands for
    each distinct label). *)
Record csv : Type := mkCsv {
  csv_index : option (list nat);
  csv_Date : date_column;
  csv_has_Amount : bool;
  csv_has_Category : bool;
  csv_has_Description : bool;
  csv_lines : list cells
}.

(** The frame before its columns are normalised: every row with its
    index label. *)
Record raw_frame : Type := mkRawFrame {
  raw_Date : date_column;
  raw_has_Amount : bool;
  raw_has_Category : bool;
  raw_has_Description : bool;
  raw_rows : list (nat * cells)
}.

(** The index of the frame: the labels of the leading field when the
    lines have one, repeated or not as the file has them; 0, 1, 2, ...
    otherwise. *)
Definition index_labels (f : csv) : list nat :=
  match csv_index f with
  | Some labels => labels
  | None => seq 0 (List.length (csv_lines f))
  end.

(** [pd.read_csv] on a file it accepts. *)
Definition read_csv (f : csv) : raw_frame :=
  mkRawFrame (csv_Date f) (csv_has_Amount f) (csv_has_Category f)
             (csv_has_Description f)
             (combine (index_labels f) (csv_lines f)).

(** A row of the normalised table. *)
Record row : Type := mkRow {
  idx : nat;
  Date : option Z;
  Amount : Q;
  Category : string;
  Description : string;
  IsIncome : bool
}.

Record DataFrame : Type := mkDataFrame {
  Date_column : date_column;
  rows : list row
}.

Definition set_Amount (v : Q) (r : row) : row :=
  mkRow (idx r) (Date r) v (Category r) (Description r) (IsIncome r).

(** [df.at[i, 'Amount'] = v] *)
Definition at_set_Amount (i : nat) (v : Q) (rs : list row) : list row :=
  map (fun r => if (idx r =? i)%nat then set_Amount v r else r) rs.

Definition count {A : Type} (p : A -> bool) (l : list A) : nat :=
  List.length (filter p l).

(** ** [_clean_and_validate_data] *)

Definition income_keywords : list string :=
  ["salary"; "income"; "bonus"; "refund"; "deposit"].

Definition is_income_category (category : string) : bool :=
  contains_any income_keywords (lower category).

Definition option_Z_eqb (a b : option Z) : bool :=
  match a, b with
  | Some x, Some y => (x =? y)%Z
  | None, None => true
  | _, _ => false
  end.

Section Validation.

(** [pd.to_datetime(datetime.today())], read from the clock. *)
Variable today : Z.

(** [self.df['Date'] > today] for one cell; [NaT > today] is false. *)
Definition future (d : option Z) : bool :=
  match d with
  | Some t => (today <? t)%Z
  | None => false
  end.

(** The [try] block on the [Date] column.  Comparing a time-zone aware
    column with the naive [today] raises; the handler records the
    warning and the frame stays as it is. *)
Definition date_step (st : raw_frame * list warning)
  : raw_frame * list warning :=
  let (f, w) := st in
  match raw_Date f with
  | DateAbsent => (f, w)
  | DateAware => (f, w ++ [DateParsingError])
  | DateNaive =>
      let future_mask := fun r : nat * cells => future (cell_Date (snd r)) in
      let future_count := count future_mask (raw_rows f) in
      let w' := if (0 <? future_count)%nat
                then w ++ [RemovedFutureDated future_count] else w in
      (mkRawFrame (raw_Date f) (raw_has_Amount f) (raw_has_Category f)
                  (raw_has_Description f)
                  (filter (fun r => negb (future_mask r)) (raw_rows f)),
       w')
  end.

(** The column assignments from "Normalize columns" down to the
    [IsIncome] column, row by row. *)
Definition normalize_row (f : raw_frame) (r : nat * cells) : row :=
  let c := snd r in
  let date := match raw_Date f with
              | DateAbsent => None
              | _ => cell_Date c
              end in
  let amount := if raw_has_Amount f
                then match cell_Amount c with Some a => a | None => 0 end
                else 0 in
  let category := if raw_has_Category f
                  then match cell_Category c with
                       | Some s => s | None => "Other" end
                  else "Other" in
  let description := if raw_has_Description f
                     then match cell_Description c with
                          | Some s => s | None => "Unknown" end
                     else "Unknown" in
  mkRow (fst r) date amount category (sanitize description)
        (is_income_category category).

Definition normalize_step (st : raw_frame * list warning)
  : DataFrame * list warning :=
  let (f, w) := st in
  (mkDataFrame (raw_Date f) (map (normalize_row f) (raw_rows f)), w).

(** The body of [for idx, row in self.df.iterrows()]: [r] is the row
    handed out by the iterator, [st] the frame and warnings so far. *)
Definition sign_body (st : list row * list warning) (r : row)
  : list row * list warning :=
  let (rs, w) := st in
  if IsIncome r && Qltb (Amount r) 0 then
    (at_set_Amount (idx r) (Qabs (Amount r)) rs,
     w ++ [CorrectedIncomeSign (idx r)])
  else if negb (IsIncome r) && Qgtb (Amount r) 0 then
    if negb (contains "refund" (lower (Description r)))
    then (at_set_Amount (idx r) (- Qabs (Amount r)) rs, w)
    else (rs, w)
  else (rs, w).

Definition sign_step (st : DataFrame * list warning)
  : DataFrame * list warning :=
  let (d, w) := st in
  let (rs, w') := fold_left sign_body (rows d) (rows d, w) in
  (mkDataFrame (Date_column d) rs, w').

(** "Outlier detection (flag only)" *)
Definition outlier_step (st : DataFrame * list warning)
  : DataFrame * list warning :=
  let (d, w) := st in
  let expense_df := filter (fun r => Qltb (Amount r) 0) (rows d) in
  if (4 <=? List.length expense_df)%nat then
    let amounts := map Amount expense_df in
    let q1 := quantile (25 # 100) amounts in
    let q3 := quantile (75 # 100) amounts in
    let iqr := q3 - q1 in
    let lower_bound := q1 - (15 # 10) * iqr in
    let extreme_outliers :=
      filter (fun r => Qltb (Amount r) lower_bound) expense_df in
    if (0 <? List.length extreme_outliers)%nat
    then (d, w ++ [ExtremeOutliers (List.length extreme_outliers)])
    else (d, w)
  else (d, w).

(** Two rows agree on [subset=['Date', 'Description', 'Amount']];
    [NaT] counts as equal to [NaT]. *)
Definition same_subset (a b : row) : bool :=
  option_Z_eqb (Date a) (Date b)
  && String.eqb (Description a) (Description b)
  && Qeq_bool (Amount a) (Amount b).

(** [df.duplicated(subset=..., keep=False)]: a row is marked when some
    row of the frame, itself included, makes at least two with it. *)
Definition duplicated (rs : list row) : list bool :=
  map (fun r => (2 <=? count (same_subset r) rs)%nat) rs.

(** "Duplicates"; the [Date] column has to exist. *)
Definition duplicate_step (st : DataFrame * list warning)
  : result (DataFrame * list warning) :=
  let (d, w) := st in
  match Date_column d with
  | DateAbsent => Raise (KeyError "Date")
  | _ =>
      let duplicates := duplicated (rows d) in
      let n := count (fun b : bool => b) duplicates in
      if (0 <? n)%nat
      then Ok (d, w ++ [PotentialDuplicates n])
      else Ok (d, w)
  end.

Definition _clean_and_validate_data (st : raw_frame * list warning)
  : result (DataFrame * list warning) :=
  duplicate_step (outlier_step (sign_step (normalize_step (date_step st)))).

End Validation.

(** ** The analyzer *)

(** A [dict] with text keys, in insertion order. *)
Fixpoint dict_get {V : Type} (d : list (string * V)) (k : string) (default : V)
  : V :=
  match d with
  | [] => default
  | (k', v) :: d' => if String.eqb k' k then v else dict_get d' k default
  end.

Definition dict_has {V : Type} (d : list (string * V)) (k : string) : bool :=
  existsb (fun kv => String.eqb (fst kv) k) d.

Record RecurringPayment : Type := mkRecurring {
  rp_description : string;
  rp_count : nat;
  rp_average_amount : Q;
  rp_category : string
}.

(** The four marks of [rate_transaction_worth]: a check mark, an arrow,
    a question mark and a cross. *)
Inductive assessment : Type :=
| Essential
| Important
| Discretionary
| CouldCut.

Record TransactionRating : Type := mkRating {
  tr_date : option Z;
  tr_description : string;
  tr_amount : Q;
  tr_necessity : Q;
  tr_worth_it_rating : Q;
  tr_waste_potential : Q;
  tr_assessment : assessment
}.

Record Suggestion : Type := mkSuggestion {
  sg_category : string;
  sg_amount : Q;
  sg_potential_cut : Q;
  sg_necessity : Q
}.

(** The four sentences of [_generate_reason]. *)
Inductive reason : Type :=
| HighNecessity
| ImportantReview
| ModeratelyNecessary
| LowNecessity.

Record Recommendation : Type := mkRecommendation {
  rec_category : string;
  rec_amount : Q;
  rec_reason : reason
}.

Record SpendingAnalyzer : Type := mkAnalyzer {
  df : DataFrame;
  warnings : list warning;
  recurring_payments : list RecurringPayment;
  transactions_with_ratings : list TransactionRating;
  necessity_scores : list (string * Q)
}.

Definition necessity_table : list (string * Q) :=
  [ ("groceries", 95 # 100); ("food", 95 # 100); ("rent", 95 # 100);
    ("utilities", 95 # 100); ("housing", 95 # 100);
    ("healthcare", 90 # 100); ("transport", 85 # 100);
    ("transportation", 85 # 100); ("insurance", 85 # 100);
    ("education", 80 # 100); ("childcare", 85 # 100);
    ("phone", 70 # 100); ("internet", 75 # 100); ("income", 1);
    ("salary", 1); ("gym", 40 # 100); ("entertainment", 30 # 100);
    ("dining", 35 # 100); ("eating out", 35 # 100);
    ("hobbies", 25 # 100); ("subscriptions", 20 # 100);
    ("shopping", 15 # 100); ("other", 50 # 100) ].

(** [SpendingAnalyzer(csv_path)]: [file] is what is found at [csv_path],
    [None] when nothing is, and otherwise what [pd.read_csv] makes of
    it: the exception it raises, or the file it accepts.  [today] is the
    clock reading taken during validation. *)
Definition __init__ (today : Z) (file : option (result csv))
  : result SpendingAnalyzer :=
  match file with
  | None => Raise FileNotFoundError
  | Some (Raise e) => Raise e
  | Some (Ok f) =>
      match _clean_and_validate_data today (read_csv f, []) with
      | Raise e => Raise e
      | Ok (d, w) => Ok (mkAnalyzer d w [] [] necessity_table)
      end
  end.

Definition get_necessity_score (self : SpendingAnalyzer)
    (category : option string) : Q :=
  let cat := match category with
             | Some c => lower c
             | None => "other"
             end in
  dict_get (necessity_scores self) cat (50 # 100).

(** *** [identify_recurring_payments] *)

(** [desc_map[desc].append(row)] on a [defaultdict(list)]. *)
Fixpoint desc_map_append (desc : string) (r : row)
    (m : list (string * list row)) : list (string * list row) :=
  match m with
  | [] => [(desc, [r])]
  | (k, items) :: m' =>
      if String.eqb k desc then (k, items ++ [r]) :: m'
      else (k, items) :: desc_map_append desc r m'
  end.

Definition desc_key (r : row) : string := lower (strip (Description r)).

Definition build_desc_map (rs : list row) : list (string * list row) :=
  fold_left (fun m r => desc_map_append (desc_key r) r m) rs [].

Section Sorting.
Context {A : Type} (key : A -> Q).

(** Insertion for a stable sort in descending order of [key]: [x]
    comes from before every element of [l] in the original list, so
    it goes in front of the elements whose key is not larger. *)
Fixpoint insert_desc (x : A) (l : list A) : list A :=
  match l with
  | [] => [x]
  | y :: l' =>
      if Qltb (key x) (key y) then y :: insert_desc x l' else x :: l
  end.

(** [sorted(l, key=key, reverse=True)] and [l.sort(key=key,
    reverse=True)]: stable, descending. *)
Definition sorted_desc (l : list A) : list A := fold_right insert_desc [] l.

(** The order such a sort establishes between an element and a later
    one. *)
Definition desc_by (a b : A) : Prop := key b <= key a.
End Sorting.

Definition recurring_of (entry : string * list row) : list RecurringPayment :=
  let (desc, items) := entry in
  if (2 <=? List.length items)%nat then
    let avg := Qsum (map Amount items)
               / inject_Z (Z.of_nat (List.length items)) in
    [ mkRecurring desc (List.length items) (round2 avg)
        (match items with r :: _ => Category r | [] => "Other" end) ]
  else [].

Definition identify_recurring_payments (self : SpendingAnalyzer)
  : list RecurringPayment * SpendingAnalyzer :=
  let desc_map := build_desc_map (rows (df self)) in
  let recurring := flat_map recurring_of desc_map in
  let result := sorted_desc (fun x => Qabs (rp_average_amount x)) recurring in
  (result,
   mkAnalyzer (df self) (warnings self) result
              (transactions_with_ratings self) (necessity_scores self)).

(** *** [rate_transaction_worth] *)

Definition assess (necessity : Q) : assessment :=
  if Qgeb necessity (9 # 10) then Essential
  else if Qgeb necessity (7 # 10) then Important
  else if Qgeb necessity (4 # 10) then Discretionary
  else CouldCut.

Definition rate_row (self : SpendingAnalyzer) (r : row) : TransactionRating :=
  let amount := Amount r in
  let category := Category r in
  let necessity := get_necessity_score self (Some category) in
  let worth_it_rating := Qabs amount * necessity in
  let waste_potential := Qabs amount * (1 - necessity) in
  mkRating (Date r) (Description r) amount (round2 necessity)
           (round2 worth_it_rating) (round2 waste_potential)
           (assess necessity).

Definition rate_transaction_worth (self : SpendingAnalyzer)
  : list TransactionRating * SpendingAnalyzer :=
  let ratings := map (rate_row self) (rows (df self)) in
  (ratings,
   mkAnalyzer (df self) (warnings self) (recurring_payments self)
              ratings (necessity_scores self)).

(** *** [analyze_spending] and [get_recommendations] *)

(** [groupby(key)['Amount'].sum()]: one total per key, keys in sorted
    order of their code points. *)
Fixpoint group_add (k : string) (v : Q) (m : list (string * Q))
  : list (string * Q) :=
  match m with
  | [] => [(k, v)]
  | (k', t) :: m' =>
      match String.compare k k' with
      | Eq => (k', t + v) :: m'
      | Lt => (k, v) :: m
      | Gt => (k', t) :: group_add k v m'
      end
  end.

Definition groupby_sum (rs : list row) : list (string * Q) :=
  fold_left (fun m r => group_add (lower (Category r)) (Amount r) m) rs [].

Definition protected : list string := ["rent"; "housing"; "mortgage"].

Definition mem (s : string) (l : list string) : bool :=
  existsb (String.eqb s) l.

Definition suggestion_of (self : SpendingAnalyzer) (entry : string * Q)
  : list Suggestion :=
  let (cat, total) := entry in
  let total_abs := Qabs total in
  let necessity := get_necessity_score self (Some cat) in
  let potential_cut := total_abs * (1 - necessity) in
  if mem cat protected && Qgeb necessity (9 # 10) then []
  else if Qle_bool potential_cut 1 then []
  else [ mkSuggestion cat (round2 total_abs) (round2 potential_cut) necessity ].

Definition analyze_spending (self : SpendingAnalyzer) : list Suggestion :=
  let expenses := filter (fun r => Qltb (Amount r) 0) (rows (df self)) in
  match expenses with
  | [] => []
  | _ =>
      let by_cat := groupby_sum expenses in
      let suggestions := flat_map (suggestion_of self) by_cat in
      sorted_desc sg_potential_cut suggestions
  end.

Definition _generate_reason (category : string) (amount necessity : Q)
  : reason :=
  if Qgeb necessity (9 # 10) then HighNecessity
  else if Qgeb necessity (7 # 10) then ImportantReview
  else if Qgeb necessity (4 # 10) then ModeratelyNecessary
  else LowNecessity.

(** The loop of [get_recommendations]: [seen] and [recs] are the set and
    the list built so far. *)
Fixpoint recommend_loop (top_n : Z) (cuts : list Suggestion)
    (seen : list string) (recs : list Recommendation) : list Recommendation :=
  match cuts with
  | [] => recs
  | c :: cuts' =>
      let cat := sg_category c in
      if mem cat seen then recommend_loop top_n cuts' seen recs
      else
        let recs' := recs ++ [ mkRecommendation cat (sg_amount c)
                                 (_generate_reason cat (sg_amount c)
                                                   (sg_necessity c)) ] in
        if (top_n <=? Z.of_nat (List.length recs'))%Z then recs'
        else recommend_loop top_n cuts' (cat :: seen) recs'
  end.

Definition get_recommendations (self : SpendingAnalyzer) (top_n : Z)
  : list Recommendation :=
  recommend_loop top_n (analyze_spending self) [] [].

(** *** [_get_top_questionable_transactions] *)

(** [l[:n]] *)
Definition slice_to {A : Type} (l : list A) (n : Z) : list A :=
  if (0 <=? n)%Z then firstn (Z.to_nat n) l
  else firstn (List.length l - Z.to_nat (- n)) l.

Definition _get_top_questionable_transactions (self : SpendingAnalyzer)
    (top_n : Z) : list TransactionRating * SpendingAnalyzer :=
  let self' := match transactions_with_ratings self with
               | [] => snd (rate_transaction_worth self)
               | _ => self
               end in
  let questionable :=
    filter (fun t => Qltb (tr_necessity t) (70 # 100))
           (transactions_with_ratings self') in
  let questionable := sorted_desc tr_waste_potential questionable in
  (slice_to questionable top_n, self').

(** *** [investment_projection] *)

Record Scenario : Type := mkScenario {
  sc_rate : Z;
  sc_projections : list (Z * Q)
}.

Record Projection : Type := mkProjection {
  monthly_savings : Q;
  scenarios : list Scenario
}.

Definition future_value (monthly_savings monthly_rate : Q) (months : Z) : Q :=
  monthly_savings * (((1 + monthly_rate) ^ months - 1) / monthly_rate).

Definition investment_projection (recommendations : list Recommendation)
  : Projection :=
  let monthly_savings := Qsum (map rec_amount recommendations) / 12 in
  let scenario := fun rate_pct : Z =>
    let rate := inject_Z rate_pct / 100 in
    let monthly_rate := rate / 12 in
    mkScenario rate_pct
      (map (fun years : Z =>
              let months := (years * 12)%Z in
              (years, round2 (future_value monthly_savings monthly_rate months)))
           [1; 2; 5]%Z) in
  mkProjection (round2 monthly_savings) (map scenario [5; 7; 10]%Z).
(** ** Descriptions used in the statements *)

(** What the sign-correction loop is meant to leave in place of a row. *)
Definition corrected (r : row) : row :=
  if IsIncome r && Qltb (Amount r) 0 then set_Amount (Qabs (Amount r)) r
  else if negb (IsIncome r) && Qgtb (Amount r) 0
          && negb (contains "refund" (lower (Description r)))
       then set_Amount (- Qabs (Amount r)) r
       else r.

(** The sign invariant of a row of the validated table. *)
Definition sign_invariant (r : row) : Prop :=
  IsIncome r = is_income_category (Category r) /\
  (is_income_category (Category r) = true -> 0 <= Amount r) /\
  (is_income_category (Category r) = false ->
   contains "refund" (lower (Description r)) = false ->
   Amount r <= 0).

(** Two rows that differ at most in their amount. *)
Definition same_but_Amount (a b : row) : Prop :=
  idx a = idx b /\ Date a = Date b /\ Category a = Category b /\
  Description a = Description b /\ IsIncome a = IsIncome b.

(** The lines that the date filter lets through. *)
Definition surviving (today : Z) (f : raw_frame) : list (nat * cells) :=
  match raw_Date f with
  | DateNaive =>
      filter (fun r => negb (future today (cell_Date (snd r)))) (raw_rows f)
  | _ => raw_rows f
  end.

(** The rows whose description, trimmed and lower-cased, is [desc]. *)
Definition occurrences (desc : string) (rs : list row) : list row :=
  filter (fun r => String.eqb (desc_key r) desc) rs.

(** The signed amounts of the expense rows of a lower-cased category,
    and the cut the category could take. *)
Definition category_expenses (cat : string) (rs : list row) : list Q :=
  map Amount
      (filter (fun r => String.eqb (lower (Category r)) cat)
              (filter (fun r => Qltb (Amount r) 0) rs)).

Definition potential_cut (self : SpendingAnalyzer) (cat : string) : Q :=
  Qabs (Qsum (category_expenses cat (rows (df self))))
  * (1 - get_necessity_score self (Some cat)).

(** ** Sequences of method calls *)

(** The methods above, as calls made on an analyzer one after another. *)
Inductive call : Type :=
| Call_get_necessity_score (category : option string)
| Call_identify_recurring_payments
| Call_rate_transaction_worth
| Call_analyze_spending
| Call_get_recommendations (top_n : Z)
| Call_get_top_questionable_transactions (top_n : Z)
| Call_investment_projection (recommendations : list Recommendation).

(** The analyzer a call leaves behind. *)
Definition after (self : SpendingAnalyzer) (c : call) : SpendingAnalyzer :=
  match c with
  | Call_identify_recurring_payments => snd (identify_recurring_payments self)
  | Call_rate_transaction_worth => snd (rate_transaction_worth self)
  | Call_get_top_questionable_transactions top_n =>
      snd (_get_top_questionable_transactions self top_n)
  | Call_get_necessity_score _
  | Call_analyze_spending
  | Call_get_recommendations _
  | Call_investment_projection _ => self
  end.

Definition after_all (self : SpendingAnalyzer) (calls : list call)
  : SpendingAnalyzer :=
  fold_left after calls self.

(** ** Sample data *)

Definition sample_today : Z := 50.

Definition sample_csv : csv :=
  mkCsv None DateNaive true true true
    [ mkCells (Some 5%Z) (Some (-50)) (Some "Groceries") (Some "Store A");
      mkCells (Some 36%Z) (Some (-50)) (Some "Groceries") (Some "Store A ");
      mkCells (Some 10%Z) (Some 2000) (Some "Salary") (Some "Employer");
      mkCells None (Some (-2000)) (Some "Bonus 2024") (Some "Employer");
      mkCells (Some 12%Z) (Some 20) (Some "Shopping") (Some "Web shop");
      mkCells (Some 13%Z) (Some 20) (Some "Shopping") (Some "a REFUND");
      mkCells (Some 14%Z) (Some (-1200)) (Some "Rent") (Some "Landlord");
      mkCells (Some 100%Z) (Some (-1200)) (Some "Rent") (Some "Landlord");
      mkCells (Some 15%Z) (Some (-1333 # 100)) (Some "Dining") None ].

Definition sample_analyzer : SpendingAnalyzer :=
  Eval vm_compute in
    match __init__ sample_today (Some (Ok sample_csv)) with
    | Ok self => self
    | Raise _ => mkAnalyzer (mkDataFrame DateAbsent []) [] [] [] []
    end.

(** A file whose two lines carry the same leading index field. *)
Definition relabelled_csv : csv :=
  mkCsv (Some [7; 7]%nat) DateNaive true true true
    [ mkCells (Some 5%Z) (Some (-5)) (Some "Salary") (Some "Employer");
      mkCells (Some 6%Z) (Some (-7)) (Some "Food") (Some "Shop") ].

(** The sample file without its [Date] column. *)
Definition undated_csv : csv :=
  mkCsv None DateAbsent true true true
    (map (fun c => mkCells None (cell_Amount c) (cell_Category c)
                           (cell_Description c))
         (csv_lines sample_csv)).

(** The same file with a time-zone aware [Date] column. *)
Definition aware_csv : csv :=
  mkCsv None DateAware true true true (csv_lines sample_csv).

(** ** The remaining methods of the analyzer *)

(** *** [_generate_summary] *)

Record Summary : Type := mkSummary {
  total_income : Q;
  total_spent : Q;
  net_balance : Q;
  transaction_count : nat
}.

Definition _generate_summary (self : SpendingAnalyzer) : Summary :=
  let total_income :=
    Qsum (map Amount (filter (fun r => Qgtb (Amount r) 0) (rows (df self)))) in
  let total_spent :=
    Qsum (map Amount (filter (fun r => Qltb (Amount r) 0) (rows (df self)))) in
  let net_balance := total_income + total_spent in
  mkSummary (round2 total_income) (round2 total_spent) (round2 net_balance)
            (List.length (rows (df self))).

(** *** [predict_incoming_money] *)

(** [predicted_monthly_income] is [None] where the source returns
    not-a-number. *)
Record Incoming : Type := mkIncoming {
  predicted_monthly_income : option Q;
  income_transaction_count : nat
}.

(** [groupby(months)['Amount'].sum()]: one total per month, months in
    ascending order. *)
Fixpoint period_add (k : Z) (v : Q) (m : list (Z * Q)) : list (Z * Q) :=
  match m with
  | [] => [(k, v)]
  | (k', t) :: m' =>
      match (k ?= k')%Z with
      | Eq => (k', t + v) :: m'
      | Lt => (k, v) :: m
      | Gt => (k', t) :: period_add k v m'
      end
  end.

Section Income.

(** [dt.to_period('M')] on one time stamp: the number of its calendar
    month. *)
Variable to_period_M : Z -> Z.

(** Rows whose date is [NaT] have no month and are left out of the
    groups. *)
Definition monthly_sums (incomes : list row) : list (Z * Q) :=
  fold_left (fun m r => match Date r with
                        | Some t => period_add (to_period_M t) (Amount r) m
                        | None => m
                        end)
            incomes [].

(** The [try] block buckets a column of time stamps, which does not
    raise; the mean of no monthly sum at all is not-a-number. *)
Definition predict_incoming_money (self : SpendingAnalyzer) : Incoming :=
  let incomes := filter (fun r => Qgtb (Amount r) 0) (rows (df self)) in
  match incomes with
  | [] => mkIncoming (Some 0) 0
  | _ =>
      match Date_column (df self) with
      | DateAbsent =>
          mkIncoming (Some (round2 (Qsum (map Amount incomes))))
                     (List.length incomes)
      | _ =>
          let monthly := monthly_sums incomes in
          match monthly with
          | [] => mkIncoming None (List.length incomes)
          | _ =>
              let predicted_monthly :=
                Qsum (map snd monthly)
                / inject_Z (Z.of_nat (List.length monthly)) in
              mkIncoming (Some (round2 predicted_monthly))
                         (List.length incomes)
          end
      end
  end.

(** *** [generate_dashboard] *)

Record Dashboard : Type := mkDashboard {
  db_summary : Summary;
  db_incoming_money : Incoming;
  db_recurring_payments : list RecurringPayment;
  db_spending_cuts : list Recommendation;
  db_top_questionable_spending : list TransactionRating;
  db_transaction_ratings : list TransactionRating;
  db_investment_projection : Projection
}.

Definition generate_dashboard (self : SpendingAnalyzer)
  : Dashboard * SpendingAnalyzer :=
  let summary := _generate_summary self in
  let incoming := predict_incoming_money self in
  let (recurring, self1) := identify_recurring_payments self in
  let self2 := snd (rate_transaction_worth self1) in
  let spending_cuts := get_recommendations self2 5 in
  let (top_questionable, self3) :=
    _get_top_questionable_transactions self2 8 in
  let investment_proj := investment_projection spending_cuts in
  (mkDashboard summary incoming recurring spending_cuts top_questionable
               (transactions_with_ratings self3) investment_proj,
   self3).

End Income.

(** ** Further descriptions used in the statements *)

(** The recommendation made from a suggestion. *)
Definition recommendation_of (s : Suggestion) : Recommendation :=
  mkRecommendation (sg_category s) (sg_amount s)
    (_generate_reason (sg_category s) (sg_amount s) (sg_necessity s)).

(** The amount a line of the file stands for once its columns are
    normalised, and its category and description. *)
Definition line_amount (f : raw_frame) (c : cells) : Q :=
  if raw_has_Amount f
  then match cell_Amount c with Some a => a | None => 0 end
  else 0.

(** The description of a line once the column is normalised, before it
    is sanitised. *)
Definition line_description (f : raw_frame) (c : cells) : string :=
  if raw_has_Description f
  then match cell_Description c with Some s => s | None => "Unknown" end
  else "Unknown".

(** The bound below which an expense counts as an extreme outlier. *)
Definition outlier_bound (amounts : list Q) : Q :=
  let q1 := quantile (25 # 100) amounts in
  let q3 := quantile (75 # 100) amounts in
  q1 - (15 # 10) * (q3 - q1).

(** The sum 1 + x + ... + x^(n-1). *)
Fixpoint geometric (x : Q) (n : nat) : Q :=
  match n with
  | O => 0
  | S n' => geometric x n' + x ^ Z.of_nat n'
  end.

(** A month numbering for the samples: thirty time units to the month. *)
Definition sample_period (t : Z) : Z := (t / 30)%Z.

(** A file in which one line occurs twice. *)
Definition repeated_csv : csv :=
  mkCsv None DateNaive true true true
    [ mkCells (Some 5%Z) (Some (-50)) (Some "Groceries") (Some "Store A");
      mkCells (Some 5%Z) (Some (-50)) (Some "Groceries") (Some "Store A");
      mkCells (Some 10%Z) (Some 2000) (Some "Salary") (Some "Employer") ].

Definition repeated_analyzer : SpendingAnalyzer :=
  Eval vm_compute in
    match __init__ sample_today (Some (Ok repeated_csv)) with
    | Ok self => self
    | Raise _ => mkAnalyzer (mkDataFrame DateAbsent []) [] [] [] []
    end.

(** ** Python floats *)

(** The figures of the analysis methods as Python computes them.  A
    Python float is an IEEE 754 binary64 number; here it is the rational
    number it denotes, and every operation rounds its exact result to
    the nearest such number.  Infinities and not-a-number are not
    represented: a result of magnitude 2^1024 or more has no
    counterpart. *)
Module Float64.

Definition pow2 (e : Z) : Q := 2 ^ e.

(** The exponent [e] with [2^e <= |x| < 2^(e+1)], for [x] other than 0:
    it is the difference of the bit lengths of numerator and
    denominator, or one less. *)
Definition binade (x : Q) : option Z :=
  let e := (Z.log2 (Z.abs (Qnum x)) - Z.log2 (Zpos (Qden x)))%Z in
  if Qle_bool (pow2 e) (Qabs x) then Some e
  else if Qle_bool (pow2 (e - 1)) (Qabs x) then Some (e - 1)%Z
  else None.

(** The exponent of the spacing of the doubles around [x]: 53
    significant bits, and never finer than 2^-1074. *)
Definition quantum (x : Q) : Z :=
  match binade x with
  | Some e => Z.max (e - 52) (-1074)
  | None => (-1074)%Z
  end.

(** The double nearest to [x], ties to the even significand. *)
Definition fl (x : Q) : Q :=
  let q := pow2 (quantum x) in
  Qred (inject_Z (round_half_even (x / q)) * q).

Definition add (x y : Q) : Q := fl (x + y).
Definition sub (x y : Q) : Q := fl (x - y).
Definition mul (x y : Q) : Q := fl (x * y).
Definition div (x y : Q) : Q := fl (x / y).

(** [round(x, 2)] on a float: the exact value of [x] is rounded to two
    decimal places, ties to even, and the result is the double nearest
    to that decimal. *)
Definition round_2 (x : Q) : Q := fl (round2 x).

(** Summation from left to right, starting from 0. *)
Definition sum_left (l : list Q) : Q := fold_left add (map fl l) 0.

(** The score that [get_necessity_score] returns: the literal of the
    table, or the default 0.50, as the double it denotes. *)
Definition get_necessity_score (self : SpendingAnalyzer)
    (category : option string) : Q :=
  fl (get_necessity_score self category).

(** *** [rate_transaction_worth] *)

Definition assess (necessity : Q) : assessment :=
  if Qgeb necessity (fl (9 # 10)) then Essential
  else if Qgeb necessity (fl (7 # 10)) then Important
  else if Qgeb necessity (fl (4 # 10)) then Discretionary
  else CouldCut.

Definition rate_row (self : SpendingAnalyzer) (r : row) : TransactionRating :=
  let amount := fl (Amount r) in
  let category := Category r in
  let necessity := get_necessity_score self (Some category) in
  let worth_it_rating := mul (Qabs amount) necessity in
  let waste_potential := mul (Qabs amount) (sub 1 necessity) in
  mkRating (Date r) (Description r) amount (round_2 necessity)
           (round_2 worth_it_rating) (round_2 waste_potential)
           (assess necessity).

Definition rate_transaction_worth (self : SpendingAnalyzer)
  : list TransactionRating * SpendingAnalyzer :=
  let ratings := map (rate_row self) (rows (df self)) in
  (ratings,
   mkAnalyzer (df self) (warnings self) (recurring_payments self)
              ratings (necessity_scores self)).

(** *** [identify_recurring_payments] *)

Section Recurring.

(** [sum(...)] of Python on the floats of one group.  Which additions
    are made, and whether a compensation term is carried along, is the
    interpreter's business. *)
Variable python_sum : list Q -> Q.

Definition recurring_of (entry : string * list row) : list RecurringPayment :=
  let (desc, items) := entry in
  if (2 <=? List.length items)%nat then
    let avg := div (python_sum (map (fun i => fl (Amount i)) items))
                   (fl (inject_Z (Z.of_nat (List.length items)))) in
    [ mkRecurring desc (List.length items) (round_2 avg)
        (match items with r :: _ => Category r | [] => "Other" end) ]
  else [].

Definition identify_recurring_payments (self : SpendingAnalyzer)
  : list RecurringPayment * SpendingAnalyzer :=
  let desc_map := build_desc_map (rows (df self)) in
  let recurring := flat_map recurring_of desc_map in
  let result := sorted_desc (fun x => Qabs (rp_average_amount x)) recurring in
  (result,
   mkAnalyzer (df self) (warnings self) result
              (transactions_with_ratings self) (necessity_scores self)).

End Recurring.

(** *** [analyze_spending] and [get_recommendations] *)

Definition _generate_reason (category : string) (amount necessity : Q)
  : reason :=
  if Qgeb necessity (fl (9 # 10)) then HighNecessity
  else if Qgeb necessity (fl (7 # 10)) then ImportantReview
  else if Qgeb necessity (fl (4 # 10)) then ModeratelyNecessary
  else LowNecessity.

Fixpoint recommend_loop (top_n : Z) (cuts : list Suggestion)
    (seen : list string) (recs : list Recommendation) : list Recommendation :=
  match cuts with
  | [] => recs
  | c :: cuts' =>
      let cat := sg_category c in
      if mem cat seen then recommend_loop top_n cuts' seen recs
      else
        let recs' := recs ++ [ mkRecommendation cat (sg_amount c)
                                 (_generate_reason cat (sg_amount c)
                                                   (sg_necessity c)) ] in
        if (top_n <=? Z.of_nat (List.length recs'))%Z then recs'
        else recommend_loop top_n cuts' (cat :: seen) recs'
  end.

Section Cuts.

(** [Series.sum()] of pandas on the amounts of one group, in row
    order.  The order and grouping of the additions are the library's. *)
Variable series_sum : list Q -> Q.

(** [groupby(...)['Amount'].sum()]: the keys in sorted order, each with
    the sum of the amounts of its rows. *)
Definition groupby_sum (expenses : list row) : list (string * Q) :=
  map (fun kv =>
         (fst kv,
          series_sum (map Amount
                        (filter (fun r => String.eqb (lower (Category r))
                                                     (fst kv))
                                expenses))))
      (groupby_sum expenses).

Definition suggestion_of (self : SpendingAnalyzer) (entry : string * Q)
  : list Suggestion :=
  let (cat, total) := entry in
  let total_abs := Qabs (fl total) in
  let necessity := get_necessity_score self (Some cat) in
  let potential_cut := mul total_abs (sub 1 necessity) in
  if mem cat protected && Qgeb necessity (fl (9 # 10)) then []
  else if Qle_bool potential_cut 1 then []
  else [ mkSuggestion cat (round_2 total_abs) (round_2 potential_cut)
                      necessity ].

Definition analyze_spending (self : SpendingAnalyzer) : list Suggestion :=
  let expenses := filter (fun r => Qltb (Amount r) 0) (rows (df self)) in
  match expenses with
  | [] => []
  | _ =>
      let by_cat := groupby_sum expenses in
      let suggestions := flat_map (suggestion_of self) by_cat in
      sorted_desc sg_potential_cut suggestions
  end.

Definition get_recommendations (self : SpendingAnalyzer) (top_n : Z)
  : list Recommendation :=
  recommend_loop top_n (analyze_spending self) [] [].

(** The cut a category could take, as the loop of [analyze_spending]
    computes it. *)
Definition potential_cut (self : SpendingAnalyzer) (cat : string) : Q :=
  mul (Qabs (fl (series_sum (category_expenses cat (rows (df self))))))
      (sub 1 (get_necessity_score self (Some cat))).

End Cuts.

(** *** The doubles of the processor *)

(** The primitive floats of Rocq are the binary64 numbers of the
    processor; they serve to compare [fl] and the four operations with
    the arithmetic that Python runs on. *)

(** The number that a primitive float stands for. *)
Definition Q_of_float (f : PrimFloat.float) : option Q :=
  match FloatOps.Prim2SF f with
  | SpecFloat.S754_zero _ => Some 0
  | SpecFloat.S754_finite s m e =>
      Some (Qred ((if s then -1 else 1) * inject_Z (Zpos m) * 2 ^ e))
  | _ => None
  end.

(** The float for an integer below 2^53 in magnitude, which is exact. *)
Definition float_of_Z (z : Z) : PrimFloat.float :=
  match z with
  | Z0 => FloatOps.SF2Prim (SpecFloat.S754_zero false)
  | Zpos p => FloatOps.SF2Prim (SpecFloat.S754_finite false p 0)
  | Zneg p => FloatOps.SF2Prim (SpecFloat.S754_finite true p 0)
  end.

(** Numerator divided by denominator, by the processor. *)
Definition machine (q : Q) : PrimFloat.float :=
  PrimFloat.div (float_of_Z (Qnum q)) (float_of_Z (Zpos (Qden q))).

Definition agree (f : PrimFloat.float) (q : Q) : bool :=
  match Q_of_float f with
  | Some v => Qeq_bool v q
  | None => false
  end.

Definition machine_samples : list Q :=
  [ 35 # 100; 95 # 100; 9 # 10; 115 # 100; -267 # 100; -268 # 100;
    25 # 1000; 175 # 1000; 1 # 3; 2050 # 100; 8000000000000001;
    1 # 9007199254740991; 4503599627370497 # 3; 7 # 1000000000000 ].

End Float64.

(** A file for the figures. *)
Definition figures_csv : csv :=
  mkCsv None DateNaive true true true
    [ mkCells (Some 1%Z) (Some (-8000000000000001)) (Some "Entertainment")
              (Some "Venue");
      mkCells (Some 2%Z) (Some (-115 # 100)) (Some "Misc") (Some "Kiosk");
      mkCells (Some 3%Z) (Some (-5 # 10)) (Some "Dining") (Some "Cafe");
      mkCells (Some 4%Z) (Some (-20)) (Some "Groceries") (Some "Market");
      mkCells (Some 5%Z) (Some (-267 # 100)) (Some "Phone") (Some "Top up");
      mkCells (Some 6%Z) (Some (-268 # 100)) (Some "Phone") (Some "Top up") ].

Definition figures_analyzer : SpendingAnalyzer :=
  Eval vm_compute in
    match __init__ sample_today (Some (Ok figures_csv)) with
    | Ok self => self
    | Raise _ => mkAnalyzer (mkDataFrame DateAbsent []) [] [] [] []
    end.

(** * Properties *)

(** ** Numbers *)

Lemma Qltb_lt (x y : Q) : Qltb x y = true <-> x < y.
Proof.
  unfold Qltb. rewrite negb_true_iff. split.
  - intros H. apply Qnot_le_lt. intros Hle.
    apply Qle_bool_iff in Hle. congruence.
  - intros H. destruct (Qle_bool y x) eqn:E; [|reflexivity].
    apply Qle_bool_iff in E. exfalso. exact (Qlt_not_le _ _ H E).
Qed.

Lemma Qltb_ge (x y : Q) : Qltb x y = false <-> y <= x.
Proof.
  unfold Qltb. rewrite negb_false_iff. apply Qle_bool_iff.
Qed.

Lemma Qgeb_ge (x y : Q) : Qgeb x y = true <-> y <= x.
Proof. unfold Qgeb. apply Qle_bool_iff. Qed.

Lemma round_half_even_bounds (n : Z) (d : positive) :
  let k := round_half_even (n # d) in
  (- Zpos d <= 2 * (k * Zpos d - n) <= Zpos d)%Z.
Proof.
  unfold round_half_even. cbn [Qnum Qden].
  pose proof (Z.div_mod n (Zpos d) ltac:(lia)) as Hdm.
  pose proof (Z.mod_pos_bound n (Zpos d) ltac:(lia)) as Hm.
  set (f := (n / Zpos d)%Z) in *. set (m := (n mod Zpos d)%Z) in *.
  destruct (2 * m <? Zpos d)%Z eqn:E1; [apply Z.ltb_lt in E1; nia|].
  apply Z.ltb_ge in E1.
  destruct (Zpos d <? 2 * m)%Z eqn:E2; [apply Z.ltb_lt in E2; nia|].
  apply Z.ltb_ge in E2.
  destruct (Z.even f); nia.
Qed.


(** ** Stable descending sort *)

Section SortingFacts.
Context {A : Type} (key : A -> Q).

Lemma insert_desc_perm (x : A) (l : list A) :
  Permutation (insert_desc key x l) (x :: l).
Proof.
  induction l as [|y l IH]; cbn; [reflexivity|].
  destruct (Qltb (key x) (key y)); [|reflexivity].
  rewrite IH. apply perm_swap.
Qed.

Lemma sorted_desc_perm (l : list A) : Permutation (sorted_desc key l) l.
Proof.
  induction l as [|x l IH]; cbn; [reflexivity|].
  rewrite insert_desc_perm. now constructor.
Qed.

Lemma sorted_desc_In (l : list A) (x : A) :
  In x (sorted_desc key l) <-> In x l.
Proof.
  split; apply Permutation_in;
    [apply sorted_desc_perm | symmetry; apply sorted_desc_perm].
Qed.

Lemma insert_desc_sorted (x : A) (l : list A) :
  StronglySorted (desc_by key) l -> StronglySorted (desc_by key) (insert_desc key x l).
Proof.
  induction l as [|y l IH]; intros Hs; cbn.
  - repeat constructor.
  - inversion Hs as [|? ? Hl Hy]; subst.
    destruct (Qltb (key x) (key y)) eqn:E.
    + apply Qltb_lt in E. constructor; [auto|].
      apply Forall_forall. intros z Hz.
      apply (Permutation_in _ (insert_desc_perm x l)) in Hz.
      destruct Hz as [<-|Hz].
      * unfold desc_by. now apply Qlt_le_weak.
      * rewrite Forall_forall in Hy. auto.
    + apply Qltb_ge in E. constructor; [assumption|].
      constructor; [exact E|].
      apply Forall_forall. intros z Hz.
      rewrite Forall_forall in Hy. unfold desc_by in *.
      apply Qle_trans with (key y); auto.
Qed.

Lemma sorted_desc_sorted (l : list A) :
  StronglySorted (desc_by key) (sorted_desc key l).
Proof.
  induction l as [|x l IH]; cbn; [constructor|].
  now apply insert_desc_sorted.
Qed.
End SortingFacts.

Lemma firstn_In {A : Type} (n : nat) (l : list A) (x : A) :
  In x (firstn n l) -> In x l.
Proof.
  revert n. induction l as [|y l IH]; intros [|n]; cbn; try tauto.
  intros [H|H]; [now left | right; eauto].
Qed.

Lemma firstn_sorted {A : Type} (R : A -> A -> Prop) (n : nat) (l : list A) :
  StronglySorted R l -> StronglySorted R (firstn n l).
Proof.
  revert n. induction l as [|x l IH]; intros [|n] Hs; cbn;
    try constructor.
  - inversion Hs; subst. auto.
  - inversion Hs as [|? ? _ Hx]; subst.
    apply Forall_forall. intros y Hy. rewrite Forall_forall in Hx.
    apply Hx. eapply firstn_In; eauto.
Qed.


(** ** Transaction ratings *)

Lemma rate_transaction_worth_In (self : SpendingAnalyzer)
    (t : TransactionRating) :
  In t (fst (rate_transaction_worth self)) <->
  exists r, In r (rows (df self)) /\ t = rate_row self r.
Proof.
  cbn. rewrite in_map_iff. split; intros [r H]; exists r; intuition.
Qed.

(** ** What a method call leaves untouched *)

Lemma after_frame (self : SpendingAnalyzer) (c : call) :
  df (after self c) = df self /\
  necessity_scores (after self c) = necessity_scores self.
Proof.
  destruct c; cbn; try (split; reflexivity).
  destruct (transactions_with_ratings self); split; reflexivity.
Qed.

Lemma after_all_frame (self : SpendingAnalyzer) (calls : list call) :
  df (after_all self calls) = df self /\
  necessity_scores (after_all self calls) = necessity_scores self.
Proof.
  unfold after_all. revert self.
  induction calls as [|c calls IH]; intros self; cbn; [split; reflexivity|].
  destruct (IH (after self c)) as [Hd Hn].
  destruct (after_frame self c) as [Hd' Hn'].
  split; congruence.
Qed.

Lemma rate_row_ext (self self' : SpendingAnalyzer) (r : row) :
  necessity_scores self' = necessity_scores self ->
  rate_row self' r = rate_row self r.
Proof.
  intros H. unfold rate_row, get_necessity_score. now rewrite H.
Qed.

Lemma rate_transaction_worth_ext (self self' : SpendingAnalyzer) :
  df self' = df self ->
  necessity_scores self' = necessity_scores self ->
  fst (rate_transaction_worth self') = fst (rate_transaction_worth self).
Proof.
  intros Hd Hn. cbn. rewrite Hd. apply map_ext.
  intros r. now apply rate_row_ext.
Qed.

(** C8: [rate_transaction_worth] called a second time returns the list
    it returned the first time, the same ratings in the same order,
    whatever other methods of the analyzer are called in between; the
    first call leaves the table as it was, and each call leaves its
    result in [transactions_with_ratings]. *)
Theorem rate_transaction_worth_twice (self : SpendingAnalyzer)
    (between : list call) :
  let first := rate_transaction_worth self in
  let second := rate_transaction_worth (after_all (snd first) between) in
  fst second = fst first /\
  df (snd first) = df self /\
  transactions_with_ratings (snd first) = fst first /\
  transactions_with_ratings (snd second) = fst second.
Proof.
  cbv zeta. repeat split.
  apply rate_transaction_worth_ext.
  - destruct (after_all_frame (snd (rate_transaction_worth self)) between)
      as [Hd _]. rewrite Hd. reflexivity.
  - destruct (after_all_frame (snd (rate_transaction_worth self)) between)
      as [_ Hn]. rewrite Hn. reflexivity.
Qed.

(** ** Top questionable transactions *)

Lemma slice_to_In {A : Type} (l : list A) (n : Z) (x : A) :
  In x (slice_to l n) -> In x l.
Proof. unfold slice_to. destruct (0 <=? n)%Z; apply firstn_In. Qed.

Lemma slice_to_sorted {A : Type} (R : A -> A -> Prop) (l : list A) (n : Z) :
  StronglySorted R l -> StronglySorted R (slice_to l n).
Proof. unfold slice_to. destruct (0 <=? n)%Z; apply firstn_sorted. Qed.

(** C10: the list returned by [_get_top_questionable_transactions] with
    its default [top_n] of 8 has at most 8 entries, each of them has a
    necessity strictly below 0.70, and the entries are in descending
    order of [waste_potential]. *)
Theorem top_questionable_transactions (self : SpendingAnalyzer) :
  let top := fst (_get_top_questionable_transactions self 8) in
  (List.length top <= 8)%nat /\
  Forall (fun t => tr_necessity t < 70 # 100) top /\
  StronglySorted (desc_by tr_waste_potential) top.
Proof.
  cbv zeta. unfold _get_top_questionable_transactions. cbn [fst].
  set (self' := match transactions_with_ratings self with
                | [] => _ | _ => _ end).
  split; [|split].
  - unfold slice_to. cbn. apply firstn_le_length.
  - apply Forall_forall. intros t Ht.
    apply slice_to_In, sorted_desc_In, filter_In in Ht.
    destruct Ht as [_ Ht]. now apply Qltb_lt in Ht.
  - apply slice_to_sorted, sorted_desc_sorted.
Qed.

(** ** Necessity scores *)

Lemma lower_char_idempotent (c : ascii) :
  lower_char (lower_char c) = lower_char c.
Proof. destruct c as [[] [] [] [] [] [] [] []]; reflexivity. Qed.

Lemma lower_idempotent (s : string) : lower (lower s) = lower s.
Proof.
  induction s as [|c s IH]; cbn; [reflexivity|].
  now rewrite lower_char_idempotent, IH.
Qed.

Lemma dict_get_absent {V : Type} (d : list (string * V)) (k : string)
    (default : V) :
  dict_has d k = false -> dict_get d k default = default.
Proof.
  induction d as [|[k' v] d IH]; cbn; [reflexivity|].
  destruct (String.eqb k' k); cbn; [discriminate|exact IH].
Qed.

Lemma __init___necessity_scores (today : Z) (file : option (result csv))
    (self : SpendingAnalyzer) (calls : list call) :
  __init__ today file = Ok self ->
  necessity_scores (after_all self calls) = necessity_table.
Proof.
  destruct (after_all_frame self calls) as [_ ->].
  unfold __init__. destruct file as [[f|e0]|]; [|discriminate|discriminate].
  destruct (_clean_and_validate_data today (read_csv f, [])) as [[d w]|e];
    [|discriminate].
  intros [= <-]. reflexivity.
Qed.

(** C6: the score depends on the category text alone and only through
    its lower-cased form.  Two texts with the same lower-cased form get
    the same score, also when other methods of the analyzer are called
    between the two lookups; a text and its lower-cased form get the
    same score; and the score is exactly 0.50 unless the lower-cased
    text is a key of the necessity table. *)
Theorem get_necessity_score_pure (self : SpendingAnalyzer)
    (calls : list call) (c1 c2 : string) :
  lower c1 = lower c2 ->
  get_necessity_score (after_all self calls) (Some c2)
    = get_necessity_score self (Some c1) /\
  get_necessity_score self (Some (lower c1))
    = get_necessity_score self (Some c1) /\
  (dict_has (necessity_scores self) (lower c1) = true \/
   get_necessity_score self (Some c1) = 50 # 100).
Proof.
  intros H. unfold get_necessity_score.
  destruct (after_all_frame self calls) as [_ ->].
  rewrite H, lower_idempotent. repeat split.
  destruct (dict_has (necessity_scores self) (lower c2)) eqn:E;
    [now left | right].
  now apply dict_get_absent.
Qed.

Lemma get_necessity_score_pure_witness :
  lower "RENT" = lower "Rent" /\
  get_necessity_score
    (after_all sample_analyzer
       [Call_rate_transaction_worth; Call_identify_recurring_payments])
    (Some "Rent")
  = get_necessity_score sample_analyzer (Some "RENT").
Proof.
  split; [reflexivity|].
  apply (get_necessity_score_pure sample_analyzer
           [Call_rate_transaction_worth; Call_identify_recurring_payments]
           "RENT" "Rent").
  reflexivity.
Defined.

Example necessity_of_rent_any_case :
  get_necessity_score sample_analyzer (Some "rEnT") = 95 # 100.
Proof. reflexivity. Qed.

Example necessity_of_unseen_category :
  get_necessity_score sample_analyzer (Some "Crypto") = 50 # 100.
Proof. reflexivity. Qed.

(** ** Investment projection *)

Lemma round2_zero (x : Q) : x == 0 -> round2 x = 0 # 100.
Proof.
  destruct x as [n d]. unfold Qeq. cbn. intros H.
  assert (n = 0%Z) by lia. subst n.
  unfold round2, round_half_even. cbn. reflexivity.
Qed.

Lemma future_value_zero (monthly_savings monthly_rate : Q) (months : Z) :
  monthly_savings == 0 ->
  future_value monthly_savings monthly_rate months == 0.
Proof.
  intros H. unfold future_value. rewrite H. apply Qmult_0_l.
Qed.

(** C7: when the recommended amounts sum to zero, as they do for the
    empty list, the reported [monthly_savings] is 0, the scenarios are
    those of the rates 5, 7 and 10 per cent, each of them has the
    horizons 1, 2 and 5 years, and every projected value is 0. *)
Theorem investment_projection_zero (recommendations : list Recommendation) :
  Qsum (map rec_amount recommendations) == 0 ->
  let p := investment_projection recommendations in
  monthly_savings p == 0 /\
  map sc_rate (scenarios p) = [5; 7; 10]%Z /\
  Forall (fun sc =>
            map fst (sc_projections sc) = [1; 2; 5]%Z /\
            Forall (fun yv => snd yv == 0) (sc_projections sc))
         (scenarios p).
Proof.
  intros H p.
  assert (Hm : Qsum (map rec_amount recommendations) / 12 == 0).
  { rewrite H. reflexivity. }
  assert (Hz : forall r m,
             round2 (future_value
                       (Qsum (map rec_amount recommendations) / 12) r m) == 0).
  { intros r m. rewrite (round2_zero _ (future_value_zero _ r m Hm)).
    reflexivity. }
  subst p. unfold investment_projection. cbn [monthly_savings scenarios map].
  split; [rewrite (round2_zero _ Hm); reflexivity|].
  split; [reflexivity|].
  repeat constructor; cbn [snd]; apply Hz.
Qed.

Lemma investment_projection_zero_witness :
  Qsum (map rec_amount []) == 0 /\
  monthly_savings (investment_projection []) == 0.
Proof.
  split; [reflexivity|].
  apply (investment_projection_zero []). reflexivity.
Defined.

(** ** Validation *)

Lemma read_csv_labels (f : csv) :
  csv_index f = None ->
  map fst (raw_rows (read_csv f)) = seq 0 (List.length (csv_lines f)).
Proof.
  intros H. cbn. unfold index_labels. rewrite H. generalize 0%nat.
  induction (csv_lines f) as [|c l IH]; intros n; cbn; [reflexivity|].
  now rewrite IH.
Qed.

Lemma read_csv_default_index (f : csv) :
  csv_index f = None -> NoDup (map fst (raw_rows (read_csv f))).
Proof. intros H. rewrite (read_csv_labels f H). apply seq_NoDup. Qed.

Lemma NoDup_map_filter {A B : Type} (g : A -> B) (p : A -> bool)
    (l : list A) :
  NoDup (map g l) -> NoDup (map g (filter p l)).
Proof.
  induction l as [|x l IH]; cbn; intros H; [constructor|].
  inversion H as [|? ? Hx Hl]; subst.
  destruct (p x); cbn; [|auto].
  constructor; [|auto].
  intros Hin. apply Hx. apply in_map_iff in Hin.
  destruct Hin as [y [Hy Hin]]. apply filter_In in Hin.
  apply in_map_iff. exists y. tauto.
Qed.

Lemma surviving_labels (today : Z) (f : raw_frame) :
  NoDup (map fst (raw_rows f)) -> NoDup (map fst (surviving today f)).
Proof.
  intros H. unfold surviving. destruct (raw_Date f); auto.
  now apply NoDup_map_filter.
Qed.

Lemma date_step_frame (today : Z) (f : raw_frame) (w : list warning) :
  let f' := fst (date_step today (f, w)) in
  raw_rows f' = surviving today f /\
  raw_Date f' = raw_Date f /\
  raw_has_Amount f' = raw_has_Amount f /\
  raw_has_Category f' = raw_has_Category f /\
  raw_has_Description f' = raw_has_Description f.
Proof.
  unfold date_step, surviving.
  destruct (raw_Date f) eqn:E; cbn; rewrite ?E; repeat split; reflexivity.
Qed.

Lemma normalize_row_ext (f f' : raw_frame) (r : nat * cells) :
  raw_Date f' = raw_Date f ->
  raw_has_Amount f' = raw_has_Amount f ->
  raw_has_Category f' = raw_has_Category f ->
  raw_has_Description f' = raw_has_Description f ->
  normalize_row f' r = normalize_row f r.
Proof. unfold normalize_row. now intros -> -> -> ->. Qed.

(** *** Sign correction *)

Lemma corrected_fields (r : row) :
  idx (corrected r) = idx r /\
  Date (corrected r) = Date r /\
  Category (corrected r) = Category r /\
  Description (corrected r) = Description r /\
  IsIncome (corrected r) = IsIncome r.
Proof.
  unfold corrected.
  destruct (IsIncome r && Qltb (Amount r) 0); [repeat split|].
  destruct (negb (IsIncome r) && Qgtb (Amount r) 0
            && negb (contains "refund" (lower (Description r))));
    repeat split.
Qed.

Lemma at_set_Amount_absent (i : nat) (v : Q) (rs : list row) :
  ~ In i (map idx rs) -> at_set_Amount i v rs = rs.
Proof.
  unfold at_set_Amount. induction rs as [|r rs IH]; cbn; [reflexivity|].
  intros H. destruct (Nat.eqb_spec (idx r) i) as [E|E]; [tauto|].
  f_equal. apply IH. tauto.
Qed.

Lemma at_set_Amount_unique (v : Q) (pre post : list row) (r : row) :
  ~ In (idx r) (map idx pre) ->
  ~ In (idx r) (map idx post) ->
  at_set_Amount (idx r) v (pre ++ r :: post) = pre ++ set_Amount v r :: post.
Proof.
  intros Hpre Hpost.
  pose proof (at_set_Amount_absent (idx r) v pre Hpre) as E1.
  pose proof (at_set_Amount_absent (idx r) v post Hpost) as E2.
  unfold at_set_Amount in *. rewrite map_app. cbn.
  rewrite E1, E2, Nat.eqb_refl. reflexivity.
Qed.

Lemma sign_body_corrected (pre post : list row) (r : row)
    (w : list warning) :
  ~ In (idx r) (map idx pre) ->
  ~ In (idx r) (map idx post) ->
  fst (sign_body (pre ++ r :: post, w) r) = pre ++ corrected r :: post.
Proof.
  intros Hpre Hpost. unfold sign_body, corrected.
  destruct (IsIncome r && Qltb (Amount r) 0); cbn [fst].
  { now apply at_set_Amount_unique. }
  destruct (negb (IsIncome r) && Qgtb (Amount r) 0); cbn [andb fst];
    [|reflexivity].
  destruct (negb (contains "refund" (lower (Description r)))); cbn [fst];
    [|reflexivity].
  now apply at_set_Amount_unique.
Qed.

Lemma map_idx_corrected (rs : list row) :
  map idx (map corrected rs) = map idx rs.
Proof.
  rewrite map_map. apply map_ext. intros r. apply corrected_fields.
Qed.

Lemma sign_loop_corrected (post pre : list row) (w : list warning) :
  NoDup (map idx (pre ++ post)) ->
  fst (fold_left sign_body post (map corrected pre ++ post, w))
  = map corrected (pre ++ post).
Proof.
  revert pre w. induction post as [|r post IH]; intros pre w Hnd.
  - cbn. now rewrite !app_nil_r.
  - cbn [fold_left].
    rewrite map_app in Hnd. cbn [map] in Hnd.
    pose proof (NoDup_remove_2 _ _ _ Hnd) as Hnot.
    assert (Hpre : ~ In (idx r) (map idx (map corrected pre))).
    { rewrite map_idx_corrected. intros H. apply Hnot, in_or_app. tauto. }
    assert (Hpost : ~ In (idx r) (map idx post)).
    { intros H. apply Hnot, in_or_app. tauto. }
    pose proof (sign_body_corrected (map corrected pre) post r w Hpre Hpost)
      as Hstep.
    destruct (sign_body (map corrected pre ++ r :: post, w) r) as [rs w'].
    cbn [fst] in Hstep. subst rs.
    replace (map corrected pre ++ corrected r :: post)
      with (map corrected (pre ++ [r]) ++ post)
      by (rewrite map_app, <- app_assoc; reflexivity).
    rewrite IH.
    + now rewrite <- app_assoc.
    + rewrite <- app_assoc. cbn. rewrite map_app. exact Hnd.
Qed.

Lemma sign_step_rows (d : DataFrame) (w : list warning) :
  NoDup (map idx (rows d)) ->
  fst (sign_step (d, w))
  = mkDataFrame (Date_column d) (map corrected (rows d)).
Proof.
  intros Hnd. unfold sign_step.
  pose proof (sign_loop_corrected (rows d) [] w Hnd) as H.
  cbn [map app] in H.
  destruct (fold_left sign_body (rows d) (rows d, w)) as [rs w'].
  cbn [fst] in *. now subst rs.
Qed.

Lemma same_but_Amount_refl (rs : list row) : Forall2 same_but_Amount rs rs.
Proof. induction rs; constructor; [now repeat split | assumption]. Qed.

Lemma at_set_Amount_fields (i : nat) (v : Q) (rs rs0 : list row) :
  Forall2 same_but_Amount rs rs0 ->
  Forall2 same_but_Amount (at_set_Amount i v rs) rs0.
Proof.
  induction 1 as [|r r0 rs rs0 H _ IH]; cbn; constructor; [|exact IH].
  destruct (idx r =? i)%nat; exact H.
Qed.

Lemma sign_body_fields (rs0 : list row) (st : list row * list warning)
    (r : row) :
  Forall2 same_but_Amount (fst st) rs0 ->
  Forall2 same_but_Amount (fst (sign_body st r)) rs0.
Proof.
  destruct st as [rs w]. cbn [fst]. intros H. unfold sign_body.
  destruct (IsIncome r && Qltb (Amount r) 0); cbn [fst].
  { now apply at_set_Amount_fields. }
  destruct (negb (IsIncome r) && Qgtb (Amount r) 0); [|exact H].
  destruct (negb (contains "refund" (lower (Description r)))); cbn [fst];
    [now apply at_set_Amount_fields | exact H].
Qed.

Lemma sign_loop_fields (l rs0 : list row) (st : list row * list warning) :
  Forall2 same_but_Amount (fst st) rs0 ->
  Forall2 same_but_Amount (fst (fold_left sign_body l st)) rs0.
Proof.
  revert st. induction l as [|r l IH]; intros st H; cbn [fold_left];
    [exact H|].
  apply IH. now apply sign_body_fields.
Qed.

Lemma sign_step_fields (d : DataFrame) (w : list warning) :
  Date_column (fst (sign_step (d, w))) = Date_column d /\
  Forall2 same_but_Amount (rows (fst (sign_step (d, w)))) (rows d).
Proof.
  unfold sign_step.
  pose proof (sign_loop_fields (rows d) (rows d) (rows d, w)
                (same_but_Amount_refl (rows d))) as H.
  destruct (fold_left sign_body (rows d) (rows d, w)) as [rs w'].
  cbn [fst rows Date_column] in *. now split.
Qed.

Lemma sign_loop_warnings (l rs : list row) (w : list warning) :
  snd (fold_left sign_body l (rs, w))
  = w ++ map (fun r => CorrectedIncomeSign (idx r))
             (filter (fun r => IsIncome r && Qltb (Amount r) 0) l).
Proof.
  revert rs w. induction l as [|r l IH]; intros rs w; cbn [fold_left].
  - cbn. now rewrite app_nil_r.
  - unfold sign_body at 2. cbn [filter].
    destruct (IsIncome r && Qltb (Amount r) 0).
    + rewrite IH. cbn [map]. now rewrite <- app_assoc.
    + destruct (negb (IsIncome r) && Qgtb (Amount r) 0); [|apply IH].
      destruct (negb (contains "refund" (lower (Description r)))); apply IH.
Qed.

Lemma sign_step_warnings (d : DataFrame) (w : list warning) :
  snd (sign_step (d, w))
  = w ++ map (fun r => CorrectedIncomeSign (idx r))
             (filter (fun r => IsIncome r && Qltb (Amount r) 0) (rows d)).
Proof.
  unfold sign_step.
  pose proof (sign_loop_warnings (rows d) (rows d) w) as H.
  destruct (fold_left sign_body (rows d) (rows d, w)) as [rs w'].
  exact H.
Qed.

(** *** Outliers and duplicates *)

Lemma outlier_step_frame (d : DataFrame) (w : list warning) :
  fst (outlier_step (d, w)) = d /\
  (snd (outlier_step (d, w)) = w \/
   exists n, snd (outlier_step (d, w)) = w ++ [ExtremeOutliers n]).
Proof.
  unfold outlier_step.
  destruct (4 <=? _)%nat; [|split; [reflexivity | now left]].
  destruct (0 <? _)%nat; split; try reflexivity; [right|now left].
  eexists. reflexivity.
Qed.

Lemma duplicate_step_frame (d : DataFrame) (w : list warning) :
  match duplicate_step (d, w) with
  | Ok (d', w') =>
      Date_column d <> DateAbsent /\ d' = d /\
      (w' = w \/ exists n, w' = w ++ [PotentialDuplicates n])
  | Raise e => Date_column d = DateAbsent /\ e = KeyError "Date"
  end.
Proof.
  unfold duplicate_step.
  destruct (Date_column d); [split; reflexivity| |];
    destruct (0 <? _)%nat; repeat split; try discriminate;
    solve [now left | right; eexists; reflexivity].
Qed.

Ltac flag_shape :=
  repeat split;
  solve [reflexivity | left; reflexivity | right; eexists; reflexivity].

Lemma flagging_steps_frame (d : DataFrame) (w : list warning) :
  match duplicate_step (outlier_step (d, w)) with
  | Ok (d', w') =>
      Date_column d <> DateAbsent /\
      d' = d /\
      exists out dup,
        w' = w ++ out ++ dup /\
        (out = [] \/ exists n, out = [ExtremeOutliers n]) /\
        (dup = [] \/ exists n, dup = [PotentialDuplicates n])
  | Raise e => Date_column d = DateAbsent /\ e = KeyError "Date"
  end.
Proof.
  destruct (outlier_step_frame d w) as [Hd Hw].
  destruct (outlier_step (d, w)) as [d1 w1]. cbn [fst snd] in *. subst d1.
  pose proof (duplicate_step_frame d w1) as H.
  destruct (duplicate_step (d, w1)) as [[d' w']|e]; [|exact H].
  destruct H as [Hc [-> Hw']]. repeat split; try assumption.
  destruct Hw as [->|[n ->]]; destruct Hw' as [->|[m ->]].
  - exists [], []. rewrite app_nil_r. flag_shape.
  - exists [], [PotentialDuplicates m]. flag_shape.
  - exists [ExtremeOutliers n], []. rewrite app_nil_r. flag_shape.
  - exists [ExtremeOutliers n], [PotentialDuplicates m].
    rewrite <- app_assoc. flag_shape.
Qed.

(** Outlier flagging leaves the table as it is.  Duplicate flagging
    after it either completes, and then the table is still the one from
    before the two steps and the warnings are the earlier ones followed
    by at most one outlier warning and at most one duplicate warning; or
    it raises [KeyError], which happens exactly when the table has no
    [Date] column. *)
Lemma flagging_preserves_table (d : DataFrame) (w : list warning) :
  fst (outlier_step (d, w)) = d /\
  match duplicate_step (outlier_step (d, w)) with
  | Ok (d', w') =>
      Date_column d <> DateAbsent /\
      d' = d /\
      exists out dup,
        w' = w ++ out ++ dup /\
        (out = [] \/ exists n, out = [ExtremeOutliers n]) /\
        (dup = [] \/ exists n, dup = [PotentialDuplicates n])
  | Raise e => Date_column d = DateAbsent /\ e = KeyError "Date"
  end.
Proof.
  split; [apply outlier_step_frame | apply flagging_steps_frame].
Qed.

(** C9 fails on a file without a [Date] column.  The date step, which
    tests for the column, passes such a file on as it is, and outlier
    flagging leaves the table as it is.  Duplicate flagging names the
    column without testing for it and raises [KeyError]: the
    constructor ends with that exception, and there is neither a table
    nor a list of warnings. *)
Theorem duplicate_flagging_raises :
  let raw := read_csv undated_csv in
  let st := sign_step (normalize_step (date_step sample_today (raw, []))) in
  raw_Date raw = DateAbsent /\
  date_step sample_today (raw, []) = (raw, []) /\
  fst (outlier_step st) = fst st /\
  duplicate_step (outlier_step st) = Raise (KeyError "Date") /\
  __init__ sample_today (Some (Ok undated_csv)) = Raise (KeyError "Date").
Proof. cbv zeta. repeat split; vm_compute; reflexivity. Qed.

(** *** The whole of validation *)

Lemma normalized_labels (today : Z) (f : raw_frame) :
  NoDup (map fst (raw_rows f)) ->
  NoDup (map idx (map (normalize_row f) (surviving today f))).
Proof.
  intros H. rewrite map_map. cbn [idx normalize_row].
  now apply surviving_labels.
Qed.

Lemma validation_result (today : Z) (f : csv) (w0 : list warning) :
  let raw := read_csv f in
  match _clean_and_validate_data today (raw, w0) with
  | Ok (d, w) =>
      csv_Date f <> DateAbsent /\
      Date_column d = csv_Date f /\
      Forall2 same_but_Amount (rows d)
              (map (normalize_row raw) (surviving today raw)) /\
      (NoDup (map fst (raw_rows raw)) ->
       rows d = map corrected (map (normalize_row raw) (surviving today raw))) /\
      exists extra,
        w = snd (date_step today (raw, w0)) ++ extra /\
        Forall (fun x => match x with
                         | RemovedFutureDated _ | DateParsingError => False
                         | _ => True
                         end) extra
  | Raise e => csv_Date f = DateAbsent /\ e = KeyError "Date"
  end.
Proof.
  intros raw. unfold _clean_and_validate_data.
  destruct (date_step_frame today raw w0) as (Hrows & Hdate & Ha & Hc & Hd).
  destruct (date_step today (raw, w0)) as [f1 w1]. cbn [fst snd] in *.
  unfold normalize_step.
  set (d1 := mkDataFrame (raw_Date f1) (map (normalize_row f1) (raw_rows f1))).
  assert (Hd1 : d1 = mkDataFrame (csv_Date f)
                       (map (normalize_row raw) (surviving today raw))).
  { subst d1. rewrite Hrows, Hdate. f_equal.
    apply map_ext. intros r. now apply normalize_row_ext. }
  clearbody d1. subst d1.
  set (d1 := mkDataFrame _ _).
  pose proof (fun Hnd => sign_step_rows d1 w1
                (normalized_labels today raw Hnd)) as Hs.
  pose proof (sign_step_fields d1 w1) as [Hcol Hfields].
  pose proof (sign_step_warnings d1 w1) as Hsw.
  destruct (sign_step (d1, w1)) as [d2 w2]. cbn [fst snd] in *.
  pose proof (flagging_steps_frame d2 w2) as Hf.
  destruct (duplicate_step (outlier_step (d2, w2))) as [[d3 w3]|e].
  - destruct Hf as (Hc3 & -> & out & dup & -> & Hout & Hdup).
    rewrite Hcol in Hc3. cbn in Hc3.
    split; [exact Hc3|]. split; [exact Hcol|]. split; [exact Hfields|].
    split; [intros Hnd; now rewrite (Hs Hnd)|].
    eexists. rewrite Hsw, <- app_assoc. split; [reflexivity|].
    repeat (apply Forall_app; split).
    + apply Forall_forall. intros x Hx. apply in_map_iff in Hx.
      destruct Hx as [r [<- _]]. exact I.
    + destruct Hout as [->|[n ->]]; repeat constructor.
    + destruct Hdup as [->|[n ->]]; repeat constructor.
  - rewrite Hcol in Hf. exact Hf.
Qed.

Lemma __init___result (today : Z) (f : csv) :
  match __init__ today (Some (Ok f)) with
  | Ok self =>
      csv_Date f <> DateAbsent /\
      Date_column (df self) = csv_Date f /\
      Forall2 same_but_Amount (rows (df self))
              (map (normalize_row (read_csv f))
                   (surviving today (read_csv f))) /\
      (NoDup (map fst (raw_rows (read_csv f))) ->
       rows (df self) = map corrected (map (normalize_row (read_csv f))
                                           (surviving today (read_csv f)))) /\
      exists extra,
        warnings self = snd (date_step today (read_csv f, [])) ++ extra /\
        Forall (fun x => match x with
                         | RemovedFutureDated _ | DateParsingError => False
                         | _ => True
                         end) extra
  | Raise e => csv_Date f = DateAbsent /\ e = KeyError "Date"
  end.
Proof.
  unfold __init__.
  pose proof (validation_result today f []) as H. cbv zeta in H.
  destruct (_clean_and_validate_data today (read_csv f, []))
    as [[d w]|e]; exact H.
Qed.

Lemma corrected_sign (r : row) :
  let r' := corrected r in
  (IsIncome r' = true -> 0 <= Amount r') /\
  (IsIncome r' = false ->
   contains "refund" (lower (Description r')) = false ->
   Amount r' <= 0).
Proof.
  cbv zeta. unfold corrected.
  destruct (IsIncome r) eqn:Ei; cbn [andb negb].
  - destruct (Qltb (Amount r) 0) eqn:El; cbn [Amount set_Amount IsIncome];
      rewrite ?Ei; split; try discriminate; intros _.
    + apply Qabs_nonneg.
    + now apply Qltb_ge in El.
  - destruct (Qgtb (Amount r) 0) eqn:Eg; cbn [andb].
    + destruct (contains "refund" (lower (Description r))) eqn:Er;
        cbn [negb Amount set_Amount IsIncome Description];
        rewrite ?Ei, ?Er; split; try discriminate; intros _ _.
      apply (Qopp_le_compat 0), Qabs_nonneg.
    + rewrite Ei. split; [discriminate|]. intros _ _.
      now apply Qltb_ge in Eg.
Qed.

(** The sign invariant on the table of a file whose index labels are
    distinct, as they are for every file whose lines have as many fields
    as its header: every row is classified as income exactly when its
    lower-cased category contains one of the five keywords; the amount
    of a row classified as income is at least 0; and the amount of a row
    that is not classified as income and whose lower-cased description
    does not contain "refund" is at most 0. *)
Lemma sign_agrees_with_classification (today : Z) (f : csv)
    (self : SpendingAnalyzer) :
  __init__ today (Some (Ok f)) = Ok self ->
  NoDup (map fst (raw_rows (read_csv f))) ->
  Forall sign_invariant (rows (df self)).
Proof.
  intros H Hnd.
  pose proof (__init___result today f) as Hr. rewrite H in Hr.
  destruct Hr as (_ & _ & _ & Hrows & _). rewrite (Hrows Hnd).
  apply Forall_forall. intros r' Hin.
  apply in_map_iff in Hin. destruct Hin as [r [<- Hin]].
  apply in_map_iff in Hin. destruct Hin as [c [<- _]].
  set (r := normalize_row (read_csv f) c).
  destruct (corrected_fields r) as (_ & _ & Hc & _ & Hi).
  assert (E : IsIncome (corrected r) = is_income_category (Category (corrected r))).
  { rewrite Hi, Hc. reflexivity. }
  unfold sign_invariant.
  split; [exact E|]. rewrite <- E. apply corrected_sign.
Qed.

Lemma sign_agrees_with_classification_witness :
  __init__ sample_today (Some (Ok sample_csv)) = Ok sample_analyzer /\
  NoDup (map fst (raw_rows (read_csv sample_csv))) /\
  Forall sign_invariant (rows (df sample_analyzer)).
Proof.
  assert (H : __init__ sample_today (Some (Ok sample_csv)) = Ok sample_analyzer)
    by (vm_compute; reflexivity).
  assert (Hnd : NoDup (map fst (raw_rows (read_csv sample_csv))))
    by (apply read_csv_default_index; reflexivity).
  split; [exact H|]. split; [exact Hnd|].
  exact (sign_agrees_with_classification sample_today sample_csv
           sample_analyzer H Hnd).
Defined.

Lemma Forall2_Forall {A B : Type} (R : A -> B -> Prop) (P : A -> Prop)
    (Q : B -> Prop) (l : list A) (l' : list B) :
  (forall a b, R a b -> Q b -> P a) ->
  Forall2 R l l' -> Forall Q l' -> Forall P l.
Proof.
  intros H. induction 1 as [|a b l l' Hab _ IH]; intros HQ; constructor;
    inversion HQ; subst; eauto.
Qed.

(** The classification does not depend on the labels. *)
Lemma classification_by_category (today : Z) (f : csv)
    (self : SpendingAnalyzer) :
  __init__ today (Some (Ok f)) = Ok self ->
  Forall (fun r => IsIncome r = is_income_category (Category r))
         (rows (df self)).
Proof.
  intros H. pose proof (__init___result today f) as Hr. rewrite H in Hr.
  destruct Hr as (_ & _ & Hf & _).
  refine (Forall2_Forall _ _
            (fun r => IsIncome r = is_income_category (Category r))
            _ _ _ Hf _).
  - intros a b (_ & _ & Hc & _ & Hi) Hb. now rewrite Hi, Hc.
  - apply Forall_forall. intros r Hin. apply in_map_iff in Hin.
    destruct Hin as [c [<- _]]. reflexivity.
Qed.

(** C1 fails on a file whose lines carry a leading index field with a
    repeated label.  Both lines of [relabelled_csv] have the label 7.
    When the loop reaches the salary line of -5 it writes 5 at label 7,
    that is into both rows; the food line, handed out by the iterator
    with its -7, needs no correction.  The food row, not classified as
    income and with no refund in its description, ends with the
    positive amount 5. *)
Theorem sign_correction_repeated_labels :
  exists self,
    __init__ sample_today (Some (Ok relabelled_csv)) = Ok self /\
    rows (df self)
    = [ mkRow 7 (Some 5%Z) 5 "Salary" "Employer" true;
        mkRow 7 (Some 6%Z) 5 "Food" "Shop" false ] /\
    map (line_amount (read_csv relabelled_csv)) (csv_lines relabelled_csv)
    = [-5; -7] /\
    ~ Forall sign_invariant (rows (df self)).
Proof.
  eexists. split; [vm_compute; reflexivity|]. cbn [df rows].
  split; [reflexivity|]. split; [reflexivity|].
  intros H. inversion H as [|? ? _ H2]; subst.
  inversion H2 as [|? ? (_ & _ & Hneg) _]; subst.
  specialize (Hneg eq_refl eq_refl). cbn in Hneg.
  apply Qle_bool_iff in Hneg. discriminate Hneg.
Qed.

(** *** Future dates *)

(** C2 fails on a file whose [Date] column is time-zone aware.  The
    comparison with the run-time stamp raises, the handler records the
    date warning in place of the filter, and the row dated 100 is still
    in the table of the analyzer built at time 50; no removal is
    reported. *)
Lemma future_date_survives :
  exists self,
    __init__ sample_today (Some (Ok aware_csv)) = Ok self /\
    In (mkRow 7 (Some 100%Z) (-1200) "Rent" "Landlord" false)
       (rows (df self)) /\
    (sample_today < 100)%Z /\
    In DateParsingError (warnings self) /\
    forall n, ~ In (RemovedFutureDated n) (warnings self).
Proof.
  eexists. split; [vm_compute; reflexivity|].
  cbn [df rows warnings]. split; [do 7 right; left; reflexivity|].
  split; [reflexivity|]. split; [left; reflexivity|].
  intros n H. cbn in H.
  repeat (destruct H as [H|H]; [discriminate H|]). exact H.
Qed.

Lemma date_step_warnings_naive (today : Z) (f : raw_frame) :
  raw_Date f = DateNaive ->
  let future_count :=
    count (fun p => future today (cell_Date (snd p))) (raw_rows f) in
  snd (date_step today (f, []))
  = if (0 <? future_count)%nat then [RemovedFutureDated future_count] else [].
Proof.
  intros H. unfold date_step. rewrite H. cbn [snd].
  destruct (0 <? _)%nat; reflexivity.
Qed.

Lemma date_step_warnings_aware (today : Z) (f : raw_frame) :
  raw_Date f = DateAware ->
  snd (date_step today (f, [])) = [DateParsingError].
Proof. intros H. unfold date_step. rewrite H. reflexivity. Qed.

Lemma __init___dates (today : Z) (file : csv) (self : SpendingAnalyzer) :
  __init__ today (Some (Ok file)) = Ok self ->
  map (fun r => (idx r, Date r)) (rows (df self))
  = map (fun p => (fst p, cell_Date (snd p)))
        (surviving today (read_csv file)).
Proof.
  intros H. pose proof (__init___result today file) as Hr.
  rewrite H in Hr. destruct Hr as (Hc & _ & Hf & _).
  revert Hf. generalize (rows (df self)).
  induction (surviving today (read_csv file)) as [|p l IH];
    intros rs Hf; inversion Hf as [|r r0 rs' l' Hr Hrest]; subst;
    [reflexivity|].
  cbn [map]. rewrite (IH rs' Hrest). f_equal.
  destruct Hr as (-> & -> & _). cbn [idx Date normalize_row].
  f_equal. cbn [raw_Date read_csv]. destruct (csv_Date file);
    [contradiction|reflexivity|reflexivity].
Qed.

(** The date step on a file with a [Date] column: construction
    succeeds.  If the column is one of naive time stamps, so that the
    comparison with the processing date does not raise, then no row of
    the resulting table has a date later than the processing date; the
    rows that remain are, in order and with their dates, exactly the
    lines of the file whose date is null or not later than the
    processing date; a removal warning is recorded exactly when at
    least one line was removed, and it carries the number of removed
    lines; and no date-parsing warning is recorded.  If the column is
    time-zone aware, the handler records the date-parsing warning, no
    removal warning is recorded, and every line of the file stays in
    the table with its date. *)
Lemma no_future_dates (today : Z) (file : csv) :
  csv_Date file <> DateAbsent ->
  exists self,
    __init__ today (Some (Ok file)) = Ok self /\
    let lines := raw_rows (read_csv file) in
    let dated := fun l => map (fun p : nat * cells =>
                                 (fst p, cell_Date (snd p))) l in
    let future_count :=
      count (fun p => future today (cell_Date (snd p))) lines in
    match csv_Date file with
    | DateAware =>
        map (fun r => (idx r, Date r)) (rows (df self)) = dated lines /\
        In DateParsingError (warnings self) /\
        forall n, ~ In (RemovedFutureDated n) (warnings self)
    | _ =>
        (forall r t, In r (rows (df self)) -> Date r = Some t ->
                     (t <= today)%Z) /\
        map (fun r => (idx r, Date r)) (rows (df self))
        = dated (filter (fun p => negb (future today (cell_Date (snd p))))
                        lines) /\
        (forall n, In (RemovedFutureDated n) (warnings self)
                   <-> n = future_count /\ (0 < future_count)%nat) /\
        ~ In DateParsingError (warnings self)
    end.
Proof.
  intros Hpresent.
  pose proof (__init___result today file) as Hr.
  destruct (__init__ today (Some (Ok file))) as [self|e] eqn:Hinit;
    [|destruct Hr as [Hr _]; congruence].
  destruct Hr as (_ & _ & _ & _ & extra & Hw & Hex).
  pose proof (__init___dates today file self Hinit) as Hmap.
  rewrite Forall_forall in Hex.
  exists self. split; [reflexivity|]. cbv zeta.
  destruct (csv_Date file) eqn:Hkind; [congruence| |].
  - (* naive time stamps *)
    assert (Hs : surviving today (read_csv file)
                 = filter (fun p => negb (future today (cell_Date (snd p))))
                          (raw_rows (read_csv file))).
    { unfold surviving. cbn [raw_Date read_csv]. now rewrite Hkind. }
    rewrite (date_step_warnings_naive today (read_csv file) Hkind) in Hw.
    cbv zeta in Hw.
    split; [|split; [|split]].
    + intros r t Hin Ht.
      assert (Hp : In (idx r, Date r)
                      (map (fun r => (idx r, Date r)) (rows (df self))))
        by (apply in_map_iff; eauto).
      rewrite Hmap, Hs in Hp. apply in_map_iff in Hp.
      destruct Hp as [p [Hp Hin']]. apply filter_In in Hin'.
      destruct Hin' as [_ Hf]. injection Hp as _ Hd.
      rewrite Hd, Ht in Hf. cbn in Hf.
      apply negb_true_iff, Z.ltb_ge in Hf. exact Hf.
    + rewrite Hmap, Hs. reflexivity.
    + intros n. rewrite Hw, in_app_iff.
      assert (Hno : ~ In (RemovedFutureDated n) extra).
      { intros Hin. exact (Hex _ Hin). }
      destruct (0 <? _)%nat eqn:E.
      * apply Nat.ltb_lt in E. cbn [In]. split.
        -- intros [[H|[]]|H]; [|contradiction]. injection H as <-.
           now split.
        -- intros [-> _]. left. now left.
      * apply Nat.ltb_ge in E. cbn [In]. split.
        -- intros [[]|H]. contradiction.
        -- intros [_ H]. lia.
    + rewrite Hw, in_app_iff. intros [H|H]; [|exact (Hex _ H)].
      destruct (0 <? _)%nat; cbn [In] in H;
        [destruct H as [H|[]]; discriminate H | exact H].
  - (* a time-zone aware column *)
    rewrite (date_step_warnings_aware today (read_csv file) Hkind) in Hw.
    split; [|split].
    + rewrite Hmap. unfold surviving. cbn [raw_Date read_csv].
      now rewrite Hkind.
    + rewrite Hw. now left.
    + intros n. rewrite Hw. cbn [app In].
      intros [H|H]; [discriminate H | exact (Hex _ H)].
Qed.

Lemma no_future_dates_witness :
  csv_Date sample_csv <> DateAbsent /\
  exists self,
    __init__ sample_today (Some (Ok sample_csv)) = Ok self /\
    (forall r t, In r (rows (df self)) -> Date r = Some t ->
                 (t <= sample_today)%Z).
Proof.
  assert (Hpresent : csv_Date sample_csv <> DateAbsent) by discriminate.
  split; [exact Hpresent|].
  destruct (no_future_dates sample_today sample_csv Hpresent)
    as [self [H1 H2]].
  exists self. split; [exact H1|]. apply H2.
Defined.

Example sample_removed_warning :
  In (RemovedFutureDated 1) (warnings sample_analyzer) /\
  map idx (rows (df sample_analyzer)) = [0; 1; 2; 3; 4; 5; 6; 8]%nat.
Proof. split; [left|]; reflexivity. Qed.

(** ** Recurring payments *)

Lemma occurrences_snoc (k : string) (rs : list row) (r : row) :
  occurrences k (rs ++ [r])
  = occurrences k rs ++ (if String.eqb (desc_key r) k then [r] else []).
Proof. unfold occurrences. rewrite filter_app. reflexivity. Qed.

Lemma occurrences_none (k : string) (rs : list row) :
  (forall r, In r rs -> desc_key r <> k) -> occurrences k rs = [].
Proof.
  unfold occurrences. induction rs as [|r rs IH]; intros H; cbn;
    [reflexivity|].
  destruct (String.eqb_spec (desc_key r) k) as [E|E].
  - exfalso. apply (H r); [now left | exact E].
  - apply IH. intros r' Hr'. apply H. now right.
Qed.

Lemma desc_map_append_keys (desc : string) (r : row)
    (m : list (string * list row)) (k : string) :
  In k (map fst (desc_map_append desc r m)) <-> k = desc \/ In k (map fst m).
Proof.
  induction m as [|[k' items] m IH]; cbn.
  - intuition.
  - destruct (String.eqb_spec k' desc) as [E|E]; cbn.
    + subst. intuition.
    + rewrite IH. intuition.
Qed.

Lemma desc_map_append_NoDup (desc : string) (r : row)
    (m : list (string * list row)) :
  NoDup (map fst m) -> NoDup (map fst (desc_map_append desc r m)).
Proof.
  induction m as [|[k' items] m IH]; cbn; intros H.
  - repeat constructor. intros [].
  - inversion H as [|? ? Hk Hm]; subst.
    destruct (String.eqb_spec k' desc) as [E|E]; cbn.
    + constructor; assumption.
    + constructor; [|auto].
      rewrite desc_map_append_keys. intros [->|Hin]; [congruence|tauto].
Qed.

Lemma desc_map_append_In (desc : string) (r : row)
    (m : list (string * list row)) (k : string) (items' : list row) :
  NoDup (map fst m) ->
  In (k, items') (desc_map_append desc r m) ->
  (k = desc /\
   ((items' = [r] /\ ~ In desc (map fst m)) \/
    exists items, In (desc, items) m /\ items' = items ++ [r]))
  \/ (k <> desc /\ In (k, items') m).
Proof.
  induction m as [|[k' items] m IH]; cbn; intros Hnd Hin.
  - destruct Hin as [[= <- <-]|[]]. left. split; [reflexivity|]. left. tauto.
  - inversion Hnd as [|? ? Hk Hm]; subst.
    destruct (String.eqb_spec k' desc) as [E|E]; cbn in Hin.
    + subst k'. destruct Hin as [[= <- <-]|Hin].
      * left. split; [reflexivity|]. right. exists items. tauto.
      * right. split; [|tauto]. intros ->. apply Hk.
        apply in_map_iff. exists (desc, items'). tauto.
    + destruct Hin as [[= <- <-]|Hin]; [right; tauto|].
      destruct (IH Hm Hin) as [[-> [[-> Hno]|[it [Hit ->]]]]|[Hne Hin']].
      * left. split; [reflexivity|]. left. split; [reflexivity|].
        intros [H|H]; [congruence|tauto].
      * left. split; [reflexivity|]. right. exists it. tauto.
      * right. tauto.
Qed.

Lemma build_desc_map_snoc (rs : list row) (r : row) :
  build_desc_map (rs ++ [r])
  = desc_map_append (desc_key r) r (build_desc_map rs).
Proof. unfold build_desc_map. now rewrite fold_left_app. Qed.

Lemma build_desc_map_spec (rs : list row) :
  NoDup (map fst (build_desc_map rs)) /\
  (forall r, In r rs -> In (desc_key r) (map fst (build_desc_map rs))) /\
  (forall k items, In (k, items) (build_desc_map rs) ->
                   items = occurrences k rs).
Proof.
  induction rs as [|r rs IH] using rev_ind.
  - cbn. repeat split; [constructor | tauto | tauto].
  - destruct IH as (Hnd & Hall & Hitems).
    rewrite build_desc_map_snoc. repeat split.
    + now apply desc_map_append_NoDup.
    + intros r' Hr'. apply desc_map_append_keys.
      apply in_app_or in Hr'. destruct Hr' as [Hr'|[<-|[]]]; auto.
    + intros k items' Hin. rewrite occurrences_snoc.
      destruct (desc_map_append_In _ _ _ _ _ Hnd Hin)
        as [[-> [[-> Hno]|[it [Hit ->]]]]|[Hne Hin']].
      * rewrite String.eqb_refl, occurrences_none; [reflexivity|].
        intros r' Hr' E. apply Hno. rewrite <- E. now apply Hall.
      * rewrite String.eqb_refl. f_equal. now apply Hitems.
      * destruct (String.eqb_spec (desc_key r) k) as [E|E]; [congruence|].
        rewrite app_nil_r. now apply Hitems.
Qed.

(** ** Spending cuts *)

Lemma compare_lt_trans (a b c : string) :
  String.compare a b = Lt -> String.compare b c = Lt ->
  String.compare a c = Lt.
Proof.
  intros H1 H2. apply String_as_OT.cmp_lt.
  apply String_as_OT.lt_trans with b; now apply String_as_OT.cmp_lt.
Qed.

Lemma compare_lt_neq (a b : string) : String.compare a b = Lt -> a <> b.
Proof.
  intros H E. apply String_as_OT.cmp_eq in E.
  unfold String_as_OT.cmp in E. congruence.
Qed.

Lemma compare_gt_lt (a b : string) :
  String.compare a b = Gt -> String.compare b a = Lt.
Proof.
  intros H. rewrite String.compare_antisym, H. reflexivity.
Qed.

Lemma Qsum_snoc (l : list Q) (v : Q) : Qsum (l ++ [v]) = Qsum l + v.
Proof. unfold Qsum. now rewrite fold_left_app. Qed.

Lemma group_add_keys (k : string) (v : Q) (m : list (string * Q))
    (k' : string) :
  In k' (map fst (group_add k v m)) <-> k' = k \/ In k' (map fst m).
Proof.
  induction m as [|[k0 t] m IH]; cbn.
  - intuition.
  - destruct (String.compare k k0) eqn:E; cbn.
    + apply String.compare_eq_iff in E. subst. intuition.
    + intuition.
    + rewrite IH. intuition.
Qed.

Lemma group_add_sorted (k : string) (v : Q) (m : list (string * Q)) :
  StronglySorted (fun a b => String.compare (fst a) (fst b) = Lt) m ->
  StronglySorted (fun a b => String.compare (fst a) (fst b) = Lt)
                 (group_add k v m).
Proof.
  induction m as [|[k0 t] m IH]; cbn; intros Hs.
  - repeat constructor.
  - inversion Hs as [|? ? Hm Hk]; subst.
    destruct (String.compare k k0) eqn:E.
    + constructor; assumption.
    + constructor; [assumption|]. constructor; [exact E|].
      rewrite Forall_forall in *. intros x Hx. cbn.
      apply compare_lt_trans with k0; [exact E | exact (Hk x Hx)].
    + constructor; [auto|].
      rewrite Forall_forall in *. intros [k1 t1] Hx. cbn.
      assert (Hk1 : In k1 (map fst (group_add k v m)))
        by (apply in_map_iff; exists (k1, t1); tauto).
      apply group_add_keys in Hk1. destruct Hk1 as [->|Hk1].
      * now apply compare_gt_lt.
      * apply in_map_iff in Hk1. destruct Hk1 as [[k2 t2] [<- Hin]].
        exact (Hk _ Hin).
Qed.

Lemma group_add_In (k : string) (v : Q) (m : list (string * Q))
    (k' : string) (t' : Q) :
  StronglySorted (fun a b => String.compare (fst a) (fst b) = Lt) m ->
  In (k', t') (group_add k v m) ->
  (k' = k /\
   ((t' = v /\ ~ In k (map fst m)) \/
    exists t, In (k, t) m /\ t' = t + v))
  \/ (k' <> k /\ In (k', t') m).
Proof.
  induction m as [|[k0 t] m IH]; cbn; intros Hs Hin.
  - destruct Hin as [[= <- <-]|[]]. left. split; [reflexivity|]. left. tauto.
  - inversion Hs as [|? ? Hm Hk]; subst. rewrite Forall_forall in Hk.
    assert (Hlater : forall k1, In k1 (map fst m) ->
                                String.compare k0 k1 = Lt).
    { intros k1 H1. apply in_map_iff in H1.
      destruct H1 as [[k2 t2] [<- H1]]. exact (Hk _ H1). }
    destruct (String.compare k k0) eqn:E; cbn in Hin.
    + apply String.compare_eq_iff in E. subst k0.
      destruct Hin as [[= <- <-]|Hin].
      * left. split; [reflexivity|]. right. exists t. tauto.
      * right. split; [|tauto]. intros ->.
        assert (H1 : In k (map fst m))
          by (apply in_map_iff; exists (k, t'); tauto).
        apply Hlater, compare_lt_neq in H1. congruence.
    + destruct Hin as [[= <- <-]|Hin].
      * left. split; [reflexivity|]. left. split; [reflexivity|].
        intros [->|H1]; [now apply compare_lt_neq in E|].
        apply Hlater in H1.
        pose proof (compare_lt_trans _ _ _ E H1) as H2.
        now apply compare_lt_neq in H2.
      * right. split; [|exact Hin]. intros ->.
        destruct Hin as [[= -> _]|Hin];
          [now apply compare_lt_neq in E|].
        assert (H1 : In k (map fst m))
          by (apply in_map_iff; exists (k, t'); tauto).
        apply Hlater in H1.
        pose proof (compare_lt_trans _ _ _ E H1) as H2.
        now apply compare_lt_neq in H2.
    + apply compare_gt_lt in E.
      destruct Hin as [[= <- <-]|Hin].
      * right. split; [|tauto]. intros ->. now apply compare_lt_neq in E.
      * destruct (IH Hm Hin) as [[-> [[-> Hno]|[t1 [Ht1 ->]]]]|[Hne Hin']].
        -- left. split; [reflexivity|]. left. split; [reflexivity|].
           intros [->|H1]; [now apply compare_lt_neq in E | tauto].
        -- left. split; [reflexivity|]. right. exists t1. tauto.
        -- right. tauto.
Qed.

Lemma groupby_sum_snoc (rs : list row) (r : row) :
  groupby_sum (rs ++ [r])
  = group_add (lower (Category r)) (Amount r) (groupby_sum rs).
Proof. unfold groupby_sum. now rewrite fold_left_app. Qed.

Lemma filter_none {A : Type} (p : A -> bool) (l : list A) :
  (forall x, In x l -> p x = false) -> filter p l = [].
Proof.
  induction l as [|x l IH]; intros H; cbn; [reflexivity|].
  rewrite (H x) by now left. apply IH. intros y Hy. apply H. now right.
Qed.

Lemma groupby_sum_spec (rs : list row) :
  StronglySorted (fun a b => String.compare (fst a) (fst b) = Lt)
                 (groupby_sum rs) /\
  (forall r, In r rs -> In (lower (Category r)) (map fst (groupby_sum rs))) /\
  (forall k t,
      In (k, t) (groupby_sum rs) ->
      t == Qsum (map Amount
                     (filter (fun r => String.eqb (lower (Category r)) k) rs))).
Proof.
  induction rs as [|r rs IH] using rev_ind.
  - cbn. repeat split; [constructor | tauto | tauto].
  - destruct IH as (Hs & Hall & Htot).
    rewrite groupby_sum_snoc. repeat split.
    + now apply group_add_sorted.
    + intros r' Hr'. apply group_add_keys.
      apply in_app_or in Hr'. destruct Hr' as [Hr'|[<-|[]]]; auto.
    + intros k t' Hin. rewrite filter_app, map_app. cbn [filter].
      destruct (group_add_In _ _ _ _ _ Hs Hin)
        as [[-> [[-> Hno]|[t [Ht ->]]]]|[Hne Hin']].
      * rewrite String.eqb_refl. cbn [map]. rewrite Qsum_snoc.
        rewrite filter_none.
        { cbn. unfold Qsum. cbn. ring. }
        intros r' Hr'. apply String.eqb_neq. intros E.
        apply Hno. rewrite <- E. now apply Hall.
      * rewrite String.eqb_refl. cbn [map]. rewrite Qsum_snoc.
        now rewrite (Htot _ _ Ht).
      * destruct (String.eqb_spec (lower (Category r)) k) as [E|E];
          [congruence|].
        cbn [map]. rewrite app_nil_r. now apply Htot.
Qed.

Lemma mem_In (s : string) (l : list string) : mem s l = true <-> In s l.
Proof.
  unfold mem. rewrite existsb_exists. split.
  - intros [x [Hx E]]. apply String.eqb_eq in E. now subst.
  - intros H. exists s. split; [exact H | apply String.eqb_refl].
Qed.

Lemma analyze_spending_In (self : SpendingAnalyzer) (s : Suggestion) :
  In s (analyze_spending self) ->
  exists total,
    total == Qsum (category_expenses (sg_category s) (rows (df self))) /\
    let necessity := get_necessity_score self (Some (sg_category s)) in
    sg_amount s = round2 (Qabs total) /\
    sg_potential_cut s = round2 (Qabs total * (1 - necessity)) /\
    sg_necessity s = necessity /\
    ~ (In (sg_category s) protected /\ 9 # 10 <= necessity) /\
    1 < Qabs total * (1 - necessity).
Proof.
  unfold analyze_spending. intros H.
  set (expenses := filter (fun r => Qltb (Amount r) 0) (rows (df self))) in *.
  assert (Hin : In s (sorted_desc sg_potential_cut
                        (flat_map (suggestion_of self)
                                  (groupby_sum expenses)))).
  { destruct expenses; [destruct H | exact H]. }
  clear H. apply sorted_desc_In, in_flat_map in Hin.
  destruct Hin as [[cat total] [Hin Hs]].
  destruct (groupby_sum_spec expenses) as (_ & _ & Htot).
  apply Htot in Hin. unfold suggestion_of in Hs.
  destruct (mem cat protected && Qgeb (get_necessity_score self (Some cat))
                                      (9 # 10)) eqn:Ep; [destruct Hs|].
  destruct (Qle_bool (Qabs total * (1 - get_necessity_score self (Some cat))) 1)
    eqn:Ec; [destruct Hs|].
  destruct Hs as [<-|[]]. cbn [sg_category sg_amount sg_potential_cut
                                 sg_necessity].
  exists total. split; [exact Hin|]. cbv zeta. repeat split.
  - intros [Hp Hn]. apply mem_In in Hp. apply Qgeb_ge in Hn.
    rewrite Hp, Hn in Ep. discriminate.
  - apply Qltb_lt. unfold Qltb. now rewrite Ec.
Qed.

Lemma group_add_lower (k : string) (v : Q) (m : list (string * Q)) :
  lower k = k ->
  Forall (fun e => lower (fst e) = fst e) m ->
  Forall (fun e => lower (fst e) = fst e) (group_add k v m).
Proof.
  intros Hk. induction m as [|[k0 t] m IH]; cbn; intros H.
  - repeat constructor. exact Hk.
  - inversion H as [|? ? H0 Hm]; subst.
    destruct (String.compare k k0); repeat constructor; auto.
Qed.

Lemma groupby_sum_lower (rs : list row) :
  Forall (fun e => lower (fst e) = fst e) (groupby_sum rs).
Proof.
  induction rs as [|r rs IH] using rev_ind; [constructor|].
  rewrite groupby_sum_snoc. apply group_add_lower; [|exact IH].
  apply lower_idempotent.
Qed.

Example sample_spending_cuts :
  map sg_category (analyze_spending sample_analyzer)
  = ["shopping"; "dining"; "groceries"] /\
  map rec_category (get_recommendations sample_analyzer 5)
  = ["shopping"; "dining"; "groceries"] /\
  map rec_category (get_recommendations sample_analyzer 2)
  = ["shopping"; "dining"].
Proof. repeat split; vm_compute; reflexivity. Qed.

Example sample_recurring_payments :
  map (fun g => (rp_description g, rp_count g, Qred (rp_average_amount g)))
      (fst (identify_recurring_payments sample_analyzer))
  = [("employer", 2%nat, 2000); ("store a", 2%nat, -50)].
Proof. vm_compute. reflexivity. Qed.

(** * Further properties *)

(** ** Rounding *)

Lemma round_half_even_spec (n : Z) (d : positive) :
  let k := round_half_even (n # d) in
  (- Zpos d <= 2 * (k * Zpos d - n) <= Zpos d)%Z /\
  (Z.abs (2 * (k * Zpos d - n)) = Zpos d -> Z.even k = true).
Proof.
  unfold round_half_even. cbn [Qnum Qden].
  pose proof (Z.div_mod n (Zpos d) ltac:(lia)) as Hdm.
  pose proof (Z.mod_pos_bound n (Zpos d) ltac:(lia)) as Hm.
  set (f := (n / Zpos d)%Z) in *. set (m := (n mod Zpos d)%Z) in *.
  destruct (2 * m <? Zpos d)%Z eqn:E1.
  { apply Z.ltb_lt in E1. split; [nia|]. intros H. exfalso. nia. }
  apply Z.ltb_ge in E1.
  destruct (Zpos d <? 2 * m)%Z eqn:E2.
  { apply Z.ltb_lt in E2. split; [nia|]. intros H. exfalso. nia. }
  apply Z.ltb_ge in E2.
  destruct (Z.even f) eqn:Ef.
  - split; [nia|]. intros _. exact Ef.
  - split; [nia|]. intros _. rewrite Z.even_add, Ef. reflexivity.
Qed.

Lemma round_half_even_le (x y : Q) :
  x <= y -> (round_half_even x <= round_half_even y)%Z.
Proof.
  destruct x as [nx dx], y as [ny dy]. unfold Qle. cbn [Qnum Qden].
  intros Hle.
  destruct (round_half_even_spec nx dx) as [[_ Hx] Hxe].
  destruct (round_half_even_spec ny dy) as [[Hy _] Hye].
  cbv zeta in *.
  set (kx := round_half_even (nx # dx)) in *.
  set (ky := round_half_even (ny # dy)) in *.
  destruct (Z_le_gt_dec kx ky) as [H|H]; [exact H|exfalso].
  set (a := (2 * (kx * Zpos dx - nx))%Z) in *.
  set (b := (2 * (ky * Zpos dy - ny))%Z) in *.
  assert (H1 : (a * Zpos dy >= Zpos dx * b + 2 * Zpos dx * Zpos dy)%Z)
    by (subst a b; nia).
  assert (Ha : a = Zpos dx) by nia.
  assert (Hb : b = (- Zpos dy)%Z) by nia.
  assert (Hk : kx = (ky + 1)%Z) by (subst a b; nia).
  assert (Ex : Z.even kx = true) by (apply Hxe; lia).
  assert (Ey : Z.even ky = true) by (apply Hye; lia).
  rewrite Hk, Z.even_add, Ey in Ex. discriminate.
Qed.

Lemma round2_le (x y : Q) : x <= y -> round2 x <= round2 y.
Proof.
  intros H. unfold round2, Qle. cbn [Qnum Qden].
  apply Z.mul_le_mono_nonneg_r; [lia|].
  apply round_half_even_le. now apply Qmult_le_compat_r.
Qed.

Lemma round2_wd (x y : Q) : x == y -> round2 x = round2 y.
Proof.
  intros H. unfold round2. f_equal. apply Z.le_antisymm;
    apply round_half_even_le; apply Qmult_le_compat_r;
    try discriminate; rewrite H; apply Qle_refl.
Qed.

Lemma round2_hundredths (k : Z) : round2 (k # 100) == k # 100.
Proof.
  unfold round2, round_half_even, Qeq. cbn [Qnum Qden Qmult].
  change (Zpos (100 * 1)) with 100%Z.
  rewrite Z.div_mul, Z.mod_mul by lia. cbn. lia.
Qed.

Lemma round2_nonneg (x : Q) : 0 <= x -> 0 <= round2 x.
Proof.
  intros H. apply Qle_trans with (round2 0); [discriminate|].
  now apply round2_le.
Qed.

(** ** Sums *)

Lemma fold_left_Qplus (l : list Q) (a : Q) :
  fold_left Qplus l a == a + Qsum l.
Proof.
  unfold Qsum. revert a. induction l as [|x l IH]; intros a; cbn.
  - ring.
  - rewrite IH, (IH (0 + x)). ring.
Qed.

Lemma Qsum_cons (x : Q) (l : list Q) : Qsum (x :: l) == x + Qsum l.
Proof. unfold Qsum at 1. cbn. rewrite fold_left_Qplus. ring. Qed.

Lemma Qsum_app (l1 l2 : list Q) : Qsum (l1 ++ l2) == Qsum l1 + Qsum l2.
Proof.
  induction l1 as [|x l1 IH]; cbn [app].
  - unfold Qsum at 2. cbn. ring.
  - rewrite !Qsum_cons, IH. ring.
Qed.

Lemma Qsum_nonneg (l : list Q) : Forall (fun x => 0 <= x) l -> 0 <= Qsum l.
Proof.
  induction 1 as [|x l Hx _ IH]; [discriminate|].
  rewrite Qsum_cons. now apply (Qplus_le_compat 0 x 0 (Qsum l)).
Qed.

(** ** Construction *)


Example empty_file_raises (today : Z) :
  __init__ today (Some (Raise EmptyDataError)) = Raise EmptyDataError.
Proof. reflexivity. Qed.

Lemma corrected_magnitude (r : row) :
  Qabs (Amount (corrected r)) == Qabs (Amount r).
Proof.
  unfold corrected.
  destruct (IsIncome r && Qltb (Amount r) 0).
  { cbn [Amount set_Amount]. rewrite Qabs_pos; [reflexivity|apply Qabs_nonneg]. }
  destruct (negb (IsIncome r) && Qgtb (Amount r) 0
            && negb (contains "refund" (lower (Description r))));
    [|reflexivity].
  cbn [Amount set_Amount]. rewrite Qabs_opp.
  rewrite Qabs_pos; [reflexivity|apply Qabs_nonneg].
Qed.

Lemma surviving_length (today : Z) (f : csv) :
  (List.length (surviving today (read_csv f)) <= List.length (csv_lines f))%nat.
Proof.
  assert (E : (List.length (raw_rows (read_csv f))
               <= List.length (csv_lines f))%nat).
  { cbn. rewrite length_combine. lia. }
  etransitivity; [|exact E]. unfold surviving.
  destruct (raw_Date (read_csv f)); try lia. apply filter_length_le.
Qed.

Lemma Forall2_map_r {A B C : Type} (R : A -> C -> Prop) (g : B -> C)
    (l : list A) (l' : list B) :
  Forall2 R l (map g l') -> Forall2 (fun a b => R a (g b)) l l'.
Proof.
  revert l. induction l' as [|b l' IH]; intros l H; inversion H; subst;
    constructor; auto.
Qed.

(** X2: on a file whose index labels are distinct, validation changes
    nothing but signs.  The rows of the table built by [__init__]
    stand, in order, for the lines of the file that the date filter
    lets through; each row has the label, date, category and sanitised
    description of its line after column normalisation, and an amount
    of the same absolute value.  The table never has more rows than the
    file has lines.  (With a repeated label the amount of one line can
    end up in the row of another.) *)
Theorem validation_keeps_magnitudes (today : Z) (f : csv)
    (self : SpendingAnalyzer) :
  __init__ today (Some (Ok f)) = Ok self ->
  NoDup (map fst (raw_rows (read_csv f))) ->
  Forall2 (fun r p =>
             let r0 := normalize_row (read_csv f) p in
             idx r = fst p /\
             Date r = Date r0 /\
             Category r = Category r0 /\
             Description r = Description r0 /\
             IsIncome r = IsIncome r0 /\
             Qabs (Amount r) == Qabs (Amount r0))
          (rows (df self)) (surviving today (read_csv f)) /\
  (List.length (rows (df self)) <= List.length (csv_lines f))%nat.
Proof.
  intros H Hnd. pose proof (__init___result today f) as Hr. rewrite H in Hr.
  destruct Hr as (_ & _ & _ & Hrows & _). rewrite (Hrows Hnd).
  clear Hrows. split.
  - induction (surviving today (read_csv f)) as [|p l IH]; cbn;
      constructor; [|exact IH].
    cbv zeta.
    destruct (corrected_fields (normalize_row (read_csv f) p))
      as (-> & -> & -> & -> & ->).
    repeat split. apply corrected_magnitude.
  - rewrite !length_map. apply surviving_length.
Qed.

Lemma validation_keeps_magnitudes_witness :
  __init__ sample_today (Some (Ok sample_csv)) = Ok sample_analyzer /\
  NoDup (map fst (raw_rows (read_csv sample_csv))) /\
  (List.length (rows (df sample_analyzer))
   <= List.length (csv_lines sample_csv))%nat.
Proof.
  assert (H : __init__ sample_today (Some (Ok sample_csv)) = Ok sample_analyzer)
    by (vm_compute; reflexivity).
  assert (Hnd : NoDup (map fst (raw_rows (read_csv sample_csv))))
    by (apply read_csv_default_index; reflexivity).
  split; [exact H|]. split; [exact Hnd|].
  apply (validation_keeps_magnitudes sample_today sample_csv
           sample_analyzer H Hnd).
Defined.

(** ** Descriptions *)

Lemma sanitize_char_ascii (c : ascii) : (nat_of_ascii (sanitize_char c) < 128)%nat.
Proof.
  unfold sanitize_char. destruct (Nat.ltb_spec (nat_of_ascii c) 128) as [H|H];
    [exact H | cbn; lia].
Qed.

Lemma sanitize_get (s : string) (n : nat) :
  String.get n (sanitize s) = option_map sanitize_char (String.get n s).
Proof.
  revert n. induction s as [|c s IH]; intros [|n]; cbn; auto.
Qed.

Lemma sanitize_length (s : string) :
  String.length (sanitize s) = String.length s.
Proof. induction s as [|c s IH]; cbn; congruence. Qed.

Lemma sanitize_ascii (s : string) :
  Forall (fun c => (nat_of_ascii c < 128)%nat)
         (list_ascii_of_string (sanitize s)).
Proof.
  induction s as [|c s IH]; cbn; constructor; [apply sanitize_char_ascii|exact IH].
Qed.

(** X3: in the table built by [__init__] every description is the
    description of its line (or "Unknown") with the same length, every
    character of it has a code below 128, and at each position it has
    the character of the line if that one is below 128 and a question
    mark otherwise. *)
Theorem descriptions_are_sanitized (today : Z) (f : csv)
    (self : SpendingAnalyzer) :
  __init__ today (Some (Ok f)) = Ok self ->
  Forall2 (fun r p =>
             let d := line_description (read_csv f) (snd p) in
             String.length (Description r) = String.length d /\
             Forall (fun c => (nat_of_ascii c < 128)%nat)
                    (list_ascii_of_string (Description r)) /\
             forall n,
               String.get n (Description r)
               = option_map (fun c => if (nat_of_ascii c <? 128)%nat
                                      then c else "?"%char)
                            (String.get n d))
          (rows (df self)) (surviving today (read_csv f)).
Proof.
  intros H. pose proof (__init___result today f) as Hr. rewrite H in Hr.
  destruct Hr as (_ & _ & Hf & _). apply Forall2_map_r in Hf.
  eapply Forall2_impl; [|exact Hf]. cbv beta.
  intros r p (_ & _ & _ & -> & _). cbv zeta.
  cbn [Description normalize_row].
  change (if raw_has_Description (read_csv f)
          then match cell_Description (snd p) with
               | Some s => s | None => "Unknown" end
          else "Unknown")
    with (line_description (read_csv f) (snd p)).
  split; [apply sanitize_length|]. split; [apply sanitize_ascii|].
  intros n. apply sanitize_get.
Qed.

Lemma descriptions_are_sanitized_witness :
  __init__ sample_today (Some (Ok sample_csv)) = Ok sample_analyzer /\
  Forall2 (fun r p =>
             String.length (Description r)
             = String.length (line_description (read_csv sample_csv) (snd p)))
          (rows (df sample_analyzer))
          (surviving sample_today (read_csv sample_csv)).
Proof.
  assert (H : __init__ sample_today (Some (Ok sample_csv)) = Ok sample_analyzer)
    by (vm_compute; reflexivity).
  split; [exact H|].
  eapply Forall2_impl;
    [|exact (descriptions_are_sanitized sample_today sample_csv
               sample_analyzer H)].
  intros r p Hrp. apply Hrp.
Defined.

(** ** Sign correction, once more *)

Lemma corrected_no_negative_income (r : row) :
  IsIncome (corrected r) && Qltb (Amount (corrected r)) 0 = false.
Proof.
  destruct (corrected_sign r) as [Hi _]. cbv zeta in Hi.
  destruct (IsIncome (corrected r)); [|reflexivity].
  cbn. apply Qltb_ge. now apply Hi.
Qed.

Lemma corrected_no_positive_expense (r : row) :
  negb (IsIncome (corrected r)) && Qgtb (Amount (corrected r)) 0
  && negb (contains "refund" (lower (Description (corrected r)))) = false.
Proof.
  destruct (corrected_sign r) as [_ He]. cbv zeta in He.
  destruct (IsIncome (corrected r)); [reflexivity|].
  destruct (contains "refund" (lower (Description (corrected r))));
    [now rewrite andb_false_r|].
  cbn [negb andb]. rewrite andb_true_r.
  apply Qltb_ge. now apply He.
Qed.

Lemma corrected_idempotent (r : row) : corrected (corrected r) = corrected r.
Proof.
  unfold corrected at 1.
  now rewrite corrected_no_negative_income, corrected_no_positive_expense.
Qed.

(** X4: the sign-correction pass is idempotent.  On a table with
    distinct index labels, running it a second time changes no row and
    adds no warning. *)
Theorem sign_step_idempotent (d : DataFrame) (w : list warning) :
  NoDup (map idx (rows d)) ->
  sign_step (sign_step (d, w)) = sign_step (d, w).
Proof.
  intros Hnd.
  pose proof (sign_step_rows d w Hnd) as Hr.
  pose proof (sign_step_warnings d w) as Hw.
  destruct (sign_step (d, w)) as [d1 w1]. cbn [fst snd] in *.
  assert (Hnd1 : NoDup (map idx (rows d1))).
  { subst d1. cbn [rows]. now rewrite map_idx_corrected. }
  pose proof (sign_step_rows d1 w1 Hnd1) as Hr2.
  pose proof (sign_step_warnings d1 w1) as Hw2.
  destruct (sign_step (d1, w1)) as [d2 w2]. cbn [fst snd] in *.
  f_equal.
  - rewrite Hr2. subst d1. cbn [Date_column rows]. f_equal.
    rewrite map_map. apply map_ext. intros r. apply corrected_idempotent.
  - rewrite Hw2. subst d1. cbn [rows].
    rewrite filter_none; [cbn; apply app_nil_r|].
    intros r Hin. apply in_map_iff in Hin. destruct Hin as [r0 [<- _]].
    apply corrected_no_negative_income.
Qed.

Lemma sign_step_idempotent_witness :
  NoDup (map idx (rows (df sample_analyzer))) /\
  sign_step (sign_step (df sample_analyzer, []))
  = sign_step (df sample_analyzer, []).
Proof.
  assert (H : NoDup (map idx (rows (df sample_analyzer)))).
  { cbn. repeat constructor; cbn; intuition discriminate. }
  split; [exact H|].
  apply (sign_step_idempotent (df sample_analyzer) [] H).
Defined.

(** ** The warnings of validation *)

Lemma outlier_step_count (d : DataFrame) (w : list warning) :
  let expense_df := filter (fun r => Qltb (Amount r) 0) (rows d) in
  snd (outlier_step (d, w)) = w \/
  exists n,
    snd (outlier_step (d, w)) = w ++ [ExtremeOutliers n] /\
    (0 < n)%nat /\
    (4 <= List.length expense_df)%nat /\
    n = count (fun r => Qltb (Amount r)
                             (outlier_bound (map Amount expense_df)))
              expense_df.
Proof.
  cbv zeta. unfold outlier_step.
  destruct (Nat.leb_spec 4 (List.length
              (filter (fun r => Qltb (Amount r) 0) (rows d)))) as [H4|H4];
    [|now left].
  match goal with |- context [(0 <? ?n)%nat] =>
    destruct (Nat.ltb_spec 0 n) as [Hn|Hn] end; [|now left].
  right. eexists. split; [reflexivity|]. split; [exact Hn|].
  split; [exact H4|]. reflexivity.
Qed.

Lemma duplicate_step_count (d : DataFrame) (w : list warning) (d' : DataFrame)
    (w' : list warning) :
  duplicate_step (d, w) = Ok (d', w') ->
  w' = w \/
  exists n,
    w' = w ++ [PotentialDuplicates n] /\
    (0 < n)%nat /\
    n = count (fun b : bool => b) (duplicated (rows d)).
Proof.
  unfold duplicate_step.
  destruct (Date_column d); [discriminate| |];
    (match goal with |- context [(0 <? ?n)%nat] =>
       destruct (Nat.ltb_spec 0 n) as [Hn|Hn] end;
     intros [= <- <-]; [right; eexists; repeat split; assumption | now left]).
Qed.

Lemma __init___warnings (today : Z) (f : csv) (self : SpendingAnalyzer) :
  __init__ today (Some (Ok f)) = Ok self ->
  let table := rows (df self) in
  let expense_df := filter (fun r => Qltb (Amount r) 0) table in
  exists out dup,
    warnings self
    = snd (date_step today (read_csv f, []))
      ++ map (fun r => CorrectedIncomeSign (idx r))
             (filter (fun r => IsIncome r && Qltb (Amount r) 0)
                     (map (normalize_row (read_csv f))
                          (surviving today (read_csv f))))
      ++ out ++ dup /\
    (out = [] \/
     exists n, out = [ExtremeOutliers n] /\ (0 < n)%nat /\
               (4 <= List.length expense_df)%nat /\
               n = count (fun r => Qltb (Amount r)
                                        (outlier_bound (map Amount expense_df)))
                         expense_df) /\
    (dup = [] \/
     exists n, dup = [PotentialDuplicates n] /\ (0 < n)%nat /\
               n = count (fun b : bool => b) (duplicated table)).
Proof.
  intros H. revert H. unfold __init__, _clean_and_validate_data.
  destruct (date_step_frame today (read_csv f) []) as (Hrows & Hdate & Ha & Hc & Hd).
  destruct (date_step today (read_csv f, [])) as [f1 w1]. cbn [fst snd] in *.
  unfold normalize_step.
  set (d1 := mkDataFrame (raw_Date f1) (map (normalize_row f1) (raw_rows f1))).
  assert (Hd1 : d1 = mkDataFrame (csv_Date f)
                       (map (normalize_row (read_csv f))
                            (surviving today (read_csv f)))).
  { subst d1. rewrite Hrows, Hdate. f_equal.
    apply map_ext. intros r. now apply normalize_row_ext. }
  clearbody d1. subst d1.
  set (d1 := mkDataFrame _ _).
  pose proof (sign_step_warnings d1 w1) as Hsw.
  destruct (sign_step (d1, w1)) as [d2 w2]. cbn [fst snd] in *.
  destruct (outlier_step_frame d2 w2) as [Ho _].
  pose proof (outlier_step_count d2 w2) as Hoc. cbv zeta in Hoc.
  destruct (outlier_step (d2, w2)) as [d3 w3]. cbn [fst snd] in *. subst d3.
  destruct (duplicate_step (d2, w3)) as [[d4 w4]|e] eqn:Edup; [|discriminate].
  pose proof (duplicate_step_count d2 w3 d4 w4 Edup) as Hdc.
  pose proof (duplicate_step_frame d2 w3) as Hdf2. rewrite Edup in Hdf2.
  destruct Hdf2 as (_ & -> & _).
  intros [= <-]. cbn [df warnings] in *. cbv zeta.
  rewrite Hsw in Hoc.
  destruct Hoc as [Hw3|[n (Hw3 & Hn & H4 & En)]];
    destruct Hdc as [Hw4|[m (Hw4 & Hm & Em)]]; subst w4 w3.
  - exists [], []. rewrite !app_nil_r. split; [reflexivity|]. split; now left.
  - exists [], [PotentialDuplicates m]. cbn [app].
    rewrite <- app_assoc. split; [reflexivity|]. split; [now left|].
    right. exists m. auto.
  - exists [ExtremeOutliers n], []. rewrite app_nil_r, <- app_assoc.
    split; [reflexivity|]. split; [|now left]. right. exists n. auto.
  - exists [ExtremeOutliers n], [PotentialDuplicates m].
    rewrite <- !app_assoc. split; [reflexivity|].
    split; right; [exists n | exists m]; auto.
Qed.

Lemma filter_map_commute {A B : Type} (g : A -> B) (p : B -> bool)
    (l : list A) :
  filter p (map g l) = map g (filter (fun x => p (g x)) l).
Proof.
  induction l as [|x l IH]; cbn; [reflexivity|].
  destruct (p (g x)); cbn; now rewrite IH.
Qed.

(** X5: the warnings of a new analyzer come in the order of the
    validation steps: at most one date warning (a removal count or a
    date-parsing error), then one income-sign note for each line, in
    file order and by index label, that survives the date filter, has
    an income category and a negative amount, then at most one outlier
    warning, then at most one duplicate warning.  Expense sign
    corrections leave no trace. *)
Theorem warnings_in_order (today : Z) (f : csv) (self : SpendingAnalyzer) :
  __init__ today (Some (Ok f)) = Ok self ->
  exists date out dup,
    warnings self
    = date
      ++ map CorrectedIncomeSign
             (map fst
                  (filter (fun p =>
                             let r := normalize_row (read_csv f) p in
                             is_income_category (Category r)
                             && Qltb (Amount r) 0)
                          (surviving today (read_csv f))))
      ++ out ++ dup /\
    (date = [] \/ date = [DateParsingError]
     \/ exists n, date = [RemovedFutureDated n]) /\
    (out = [] \/ exists n, out = [ExtremeOutliers n]) /\
    (dup = [] \/ exists n, dup = [PotentialDuplicates n]).
Proof.
  intros H.
  destruct (__init___warnings today f self H) as (out & dup & Hw & Hout & Hdup).
  exists (snd (date_step today (read_csv f, []))), out, dup.
  split; [|split; [|split]].
  - rewrite Hw. f_equal. f_equal.
    rewrite filter_map_commute, !map_map. reflexivity.
  - unfold date_step. destruct (raw_Date (read_csv f)); cbn [snd app]; auto.
    destruct (0 <? _)%nat; cbn [app]; eauto.
  - destruct Hout as [->|(n & -> & _)]; eauto.
  - destruct Hdup as [->|(n & -> & _)]; eauto.
Qed.

Lemma warnings_in_order_witness :
  __init__ sample_today (Some (Ok sample_csv)) = Ok sample_analyzer /\
  warnings sample_analyzer
  = [RemovedFutureDated 1; CorrectedIncomeSign 3; ExtremeOutliers 1].
Proof.
  assert (H : __init__ sample_today (Some (Ok sample_csv)) = Ok sample_analyzer)
    by (vm_compute; reflexivity).
  split; [exact H|].
  destruct (warnings_in_order sample_today sample_csv sample_analyzer H)
    as (date & out & dup & Hw & _).
  reflexivity.
Defined.

(** ** Duplicates *)

Lemma option_Z_eqb_eq (a b : option Z) : option_Z_eqb a b = true <-> a = b.
Proof.
  destruct a as [x|], b as [y|]; cbn; try (split; congruence).
  rewrite Z.eqb_eq. split; congruence.
Qed.

Lemma Qeq_bool_trans_eq (a b x : Q) :
  Qeq_bool a b = true -> Qeq_bool b x = Qeq_bool a x.
Proof.
  intros H. apply Qeq_bool_iff in H.
  destruct (Qeq_bool a x) eqn:E.
  - apply Qeq_bool_iff in E. apply Qeq_bool_iff. rewrite <- H. exact E.
  - destruct (Qeq_bool b x) eqn:E'; [|reflexivity].
    apply Qeq_bool_iff in E'. rewrite <- H in E'.
    apply Qeq_bool_iff in E'. congruence.
Qed.

Lemma same_subset_class (a b x : row) :
  same_subset a b = true -> same_subset b x = same_subset a x.
Proof.
  unfold same_subset. rewrite !andb_true_iff. intros [[Hd Hs] Hq].
  apply option_Z_eqb_eq in Hd. apply String.eqb_eq in Hs.
  rewrite Hd, Hs. f_equal. now apply Qeq_bool_trans_eq.
Qed.

Lemma count_le {A : Type} (p q : A -> bool) (l : list A) :
  (forall x, In x l -> p x = true -> q x = true) ->
  (count p l <= count q l)%nat.
Proof.
  unfold count. induction l as [|x l IH]; intros H; cbn; [lia|].
  assert (IH' : (List.length (filter p l) <= List.length (filter q l))%nat)
    by (apply IH; intros y Hy; apply H; now right).
  destruct (p x) eqn:Ep.
  - rewrite (H x (or_introl eq_refl) Ep). cbn. lia.
  - destruct (q x); cbn; lia.
Qed.

Lemma count_map {A B : Type} (g : A -> B) (p : B -> bool) (l : list A) :
  count p (map g l) = count (fun x => p (g x)) l.
Proof. unfold count. now rewrite filter_map_commute, length_map. Qed.

Lemma count_pos_In {A : Type} (p : A -> bool) (l : list A) :
  (0 < count p l)%nat -> exists x, In x l /\ p x = true.
Proof.
  unfold count. induction l as [|x l IH]; cbn; [lia|].
  destruct (p x) eqn:E.
  - intros _. exists x. auto.
  - intros H. destruct (IH H) as [y [Hy Hp]]. exists y. auto.
Qed.

Lemma duplicated_count (rs : list row) :
  let n := count (fun b : bool => b) (duplicated rs) in
  n = 0%nat \/ (2 <= n <= List.length rs)%nat.
Proof.
  cbv zeta. unfold duplicated. rewrite count_map.
  set (marked := fun r => (2 <=? count (same_subset r) rs)%nat).
  destruct (Nat.eq_dec (count marked rs) 0) as [E|E]; [now left|right].
  split; [|apply filter_length_le].
  destruct (count_pos_In marked rs ltac:(lia)) as [r [Hr Hm]].
  unfold marked in Hm. apply Nat.leb_le in Hm.
  apply Nat.le_trans with (count (same_subset r) rs); [exact Hm|].
  apply count_le. intros x _ Hx. unfold marked. apply Nat.leb_le.
  replace (count (same_subset x) rs) with (count (same_subset r) rs);
    [exact Hm|].
  unfold count. f_equal. apply filter_ext.
  intros y. symmetry. now apply same_subset_class.
Qed.

(** X6: a duplicate warning never reports a single row.  When a new
    analyzer carries the warning "Found n potential duplicate
    transactions", n is the number of rows of the table that agree with
    another row on date, description and amount; it is at least 2 and
    at most the number of rows. *)
Theorem duplicate_warning_count (today : Z) (f : csv)
    (self : SpendingAnalyzer) (n : nat) :
  __init__ today (Some (Ok f)) = Ok self ->
  In (PotentialDuplicates n) (warnings self) ->
  n = count (fun r => (2 <=? count (same_subset r) (rows (df self)))%nat)
            (rows (df self)) /\
  (2 <= n <= List.length (rows (df self)))%nat.
Proof.
  intros H Hin.
  destruct (__init___warnings today f self H) as (out & dup & Hw & Hout & Hdup).
  cbv zeta in *. rewrite Hw in Hin.
  assert (Hd : In (PotentialDuplicates n) dup).
  { apply in_app_or in Hin. destruct Hin as [Hin|Hin].
    { exfalso. unfold date_step in Hin.
      destruct (raw_Date (read_csv f)); cbn [snd app] in Hin;
        try (destruct (0 <? _)%nat); cbn in Hin; intuition discriminate. }
    apply in_app_or in Hin. destruct Hin as [Hin|Hin].
    { exfalso. apply in_map_iff in Hin. destruct Hin as [r [Hr _]].
      discriminate. }
    apply in_app_or in Hin. destruct Hin as [Hin|Hin]; [|exact Hin].
    exfalso. destruct Hout as [->|(m & -> & _)]; cbn in Hin;
      intuition discriminate. }
  destruct Hdup as [->|(m & -> & Hm & Em)]; [destruct Hd|].
  destruct Hd as [[= <-]|[]].
  pose proof (duplicated_count (rows (df self))) as Hc. cbv zeta in Hc.
  rewrite <- Em in Hc. split; [|lia].
  rewrite Em. unfold duplicated. now rewrite count_map.
Qed.

Lemma duplicate_warning_count_witness :
  __init__ sample_today (Some (Ok repeated_csv)) = Ok repeated_analyzer /\
  In (PotentialDuplicates 2) (warnings repeated_analyzer) /\
  (2 <= 2 <= List.length (rows (df repeated_analyzer)))%nat.
Proof.
  assert (H : __init__ sample_today (Some (Ok repeated_csv)) = Ok repeated_analyzer)
    by (vm_compute; reflexivity).
  assert (Hin : In (PotentialDuplicates 2) (warnings repeated_analyzer))
    by (left; reflexivity).
  split; [exact H|]. split; [exact Hin|].
  apply (duplicate_warning_count sample_today repeated_csv
           repeated_analyzer 2 H Hin).
Defined.

(** ** Quartiles and outliers *)

Lemma Qinsert_perm (x : Q) (l : list Q) : Permutation (Qinsert x l) (x :: l).
Proof.
  induction l as [|y l IH]; cbn; [reflexivity|].
  destruct (Qle_bool x y); [reflexivity|].
  rewrite IH. apply perm_swap.
Qed.

Lemma Qsort_perm (l : list Q) : Permutation (Qsort l) l.
Proof.
  induction l as [|x l IH]; cbn; [reflexivity|].
  rewrite Qinsert_perm. now constructor.
Qed.

Lemma Qinsert_sorted (x : Q) (l : list Q) :
  StronglySorted Qle l -> StronglySorted Qle (Qinsert x l).
Proof.
  induction l as [|y l IH]; intros Hs; cbn.
  - repeat constructor.
  - inversion Hs as [|? ? Hl Hy]; subst.
    destruct (Qle_bool x y) eqn:E.
    + apply Qle_bool_iff in E. constructor; [assumption|].
      constructor; [exact E|].
      rewrite Forall_forall in *. intros z Hz.
      apply Qle_trans with y; auto.
    + assert (Hyx : y <= x).
      { apply Qlt_le_weak, Qltb_lt. unfold Qltb. now rewrite E. }
      constructor; [auto|].
      rewrite Forall_forall in *. intros z Hz.
      apply (Permutation_in _ (Qinsert_perm x l)) in Hz.
      destruct Hz as [<-|Hz]; auto.
Qed.

Lemma Qsort_sorted (l : list Q) : StronglySorted Qle (Qsort l).
Proof.
  induction l as [|x l IH]; cbn; [constructor|].
  now apply Qinsert_sorted.
Qed.

Lemma sorted_nth_le (s : list Q) (i j : nat) :
  StronglySorted Qle s -> (i <= j < List.length s)%nat ->
  nth i s 0 <= nth j s 0.
Proof.
  intros Hs. revert i j. induction Hs as [|x s Hs IH Hx]; intros i j Hij.
  - cbn in Hij. lia.
  - destruct i as [|i], j as [|j]; cbn in *; try lia.
    + apply Qle_refl.
    + rewrite Forall_forall in Hx. apply Hx, nth_In. lia.
    + apply IH. lia.
Qed.

Lemma count_below_sorted (s : list Q) (k : nat) :
  StronglySorted Qle s -> (k < List.length s)%nat ->
  (count (fun x => Qltb x (nth k s 0%Q)) s <= k)%nat.
Proof.
  intros Hs. revert k. induction Hs as [|x s Hs IH Hx]; intros k Hk.
  - cbn in Hk. lia.
  - destruct k as [|k]; unfold count in *; cbn [nth filter].
    + assert (E : Qltb x x = false) by (apply Qltb_ge, Qle_refl).
      rewrite E. rewrite filter_none; [cbn; lia|].
      intros y Hy. apply Qltb_ge. rewrite Forall_forall in Hx. auto.
    + cbn in Hk. specialize (IH k ltac:(lia)).
      destruct (Qltb x (nth k s 0)); cbn [List.length]; lia.
Qed.

Lemma count_perm {A : Type} (p : A -> bool) (l l' : list A) :
  Permutation l l' -> count p l = count p l'.
Proof.
  unfold count. induction 1 as [|x l l' _ IH|x y l|l l' l'' _ IH1 _ IH2];
    cbn; try reflexivity.
  - destruct (p x); cbn; congruence.
  - destruct (p x), (p y); reflexivity.
  - congruence.
Qed.

Lemma inject_nat_nonneg (n : nat) : 0 <= inject_Z (Z.of_nat n).
Proof. unfold Qle. cbn. lia. Qed.

Lemma quantile_position (n : nat) (q : Q) :
  0 <= q -> q <= 1 ->
  let h := inject_Z (Z.of_nat n) * q in
  (0 <= Qfloor h <= Z.of_nat n)%Z /\
  0 <= h - inject_Z (Qfloor h) /\ h - inject_Z (Qfloor h) <= 1.
Proof.
  intros H0 H1 h.
  pose proof (inject_nat_nonneg n) as Hn.
  assert (Hh0 : 0 <= h) by (subst h; nra).
  assert (Hh1 : h <= inject_Z (Z.of_nat n)) by (subst h; nra).
  pose proof (Qfloor_le h) as Hf. pose proof (Qlt_floor h) as Hc.
  split; [|split].
  - split.
    + change 0%Z with (Qfloor 0). now apply Qfloor_resp_le.
    + rewrite <- (Qfloor_Z (Z.of_nat n)). now apply Qfloor_resp_le.
  - lra.
  - rewrite inject_Z_plus in Hc. change (inject_Z 1) with 1 in Hc. lra.
Qed.

Lemma quantile_between (q : Q) (values : list Q) :
  values <> [] -> 0 <= q -> q <= 1 ->
  let s := Qsort values in
  let last := (List.length s - 1)%nat in
  let lo := Z.to_nat (Qfloor (inject_Z (Z.of_nat last) * q)) in
  (lo <= last)%nat /\
  nth lo s 0 <= quantile q values /\
  quantile q values <= nth (Nat.min (lo + 1) last) s 0.
Proof.
  intros Hne H0 H1 s last lo.
  assert (Hlen : (0 < List.length s)%nat).
  { subst s. rewrite (Permutation_length (Qsort_perm values)).
    destruct values; [congruence | cbn; lia]. }
  destruct (quantile_position last q H0 H1) as ([Hf0 Hf1] & Hr0 & Hr1).
  cbv zeta in *.
  assert (Hlo : (lo <= last)%nat) by (subst lo; lia).
  split; [exact Hlo|].
  assert (Hab : nth lo s 0 <= nth (Nat.min (lo + 1) last) s 0).
  { apply sorted_nth_le; [apply Qsort_sorted | subst last; lia]. }
  unfold quantile. fold s. fold last. fold lo.
  set (a := nth lo s 0) in *. set (b := nth (Nat.min (lo + 1) last) s 0) in *.
  set (frac := inject_Z (Z.of_nat last) * q
               - inject_Z (Qfloor (inject_Z (Z.of_nat last) * q))) in *.
  split; nra.
Qed.

Lemma quantile_mono (q q' : Q) (values : list Q) :
  values <> [] -> 0 <= q -> q <= q' -> q' <= 1 ->
  quantile q values <= quantile q' values.
Proof.
  intros Hne H0 Hqq H1.
  assert (H1q : q <= 1) by lra. assert (H0q : 0 <= q') by lra.
  destruct (quantile_between q values Hne H0 H1q) as (Hlo & Ha & Hb).
  destruct (quantile_between q' values Hne H0q H1) as (Hlo' & Ha' & Hb').
  cbv zeta in *.
  set (s := Qsort values) in *. set (last := (List.length s - 1)%nat) in *.
  assert (Hlen : (0 < List.length s)%nat).
  { subst s. rewrite (Permutation_length (Qsort_perm values)).
    destruct values; [congruence | cbn; lia]. }
  pose proof (inject_nat_nonneg last) as Hn.
  assert (Hh : inject_Z (Z.of_nat last) * q <= inject_Z (Z.of_nat last) * q')
    by nra.
  pose proof (Qfloor_resp_le _ _ Hh) as Hfl.
  destruct (quantile_position last q H0 H1q) as ([Hf0 _] & _).
  destruct (quantile_position last q' H0q H1) as ([Hf0' _] & _).
  cbv zeta in *.
  set (f := Qfloor (inject_Z (Z.of_nat last) * q)) in *.
  set (f' := Qfloor (inject_Z (Z.of_nat last) * q')) in *.
  destruct (Z.eq_dec f f') as [E|E].
  - (* the same pair of neighbours *)
    unfold quantile. fold s. fold last. fold f. fold f'. rewrite <- E.
    assert (Hab : nth (Z.to_nat f) s 0
                  <= nth (Nat.min (Z.to_nat f + 1) last) s 0).
    { apply sorted_nth_le; [apply Qsort_sorted | subst last; lia]. }
    set (a := nth (Z.to_nat f) s 0) in *.
    set (b := nth (Nat.min (Z.to_nat f + 1) last) s 0) in *.
    nra.
  - (* a later pair *)
    apply Qle_trans with (nth (Nat.min (Z.to_nat f + 1) last) s 0);
      [exact Hb|].
    apply Qle_trans with (nth (Z.to_nat f') s 0); [|exact Ha'].
    apply sorted_nth_le; [apply Qsort_sorted | subst last; lia].
Qed.

Lemma outlier_bound_le (amounts : list Q) :
  amounts <> [] ->
  let s := Qsort amounts in
  let last := (List.length s - 1)%nat in
  let lo := Z.to_nat (Qfloor (inject_Z (Z.of_nat last) * (25 # 100))) in
  outlier_bound amounts <= nth (Nat.min (lo + 1) last) s 0.
Proof.
  intros Hne.
  destruct (quantile_between (25 # 100) amounts Hne) as (_ & _ & Hb);
    [discriminate | discriminate |].
  pose proof (quantile_mono (25 # 100) (75 # 100) amounts Hne) as Hm.
  cbv zeta in *. unfold outlier_bound.
  assert (H : quantile (25 # 100) amounts <= quantile (75 # 100) amounts)
    by (apply Hm; discriminate).
  set (q1 := quantile (25 # 100) amounts) in *.
  set (q3 := quantile (75 # 100) amounts) in *.
  eapply Qle_trans; [|exact Hb]. lra.
Qed.

Lemma quarter_position (n : nat) :
  (4 * Z.to_nat (Qfloor (inject_Z (Z.of_nat n) * (25 # 100))) <= n)%nat.
Proof.
  pose proof (Qfloor_le (inject_Z (Z.of_nat n) * (25 # 100))) as H.
  destruct (quantile_position n (25 # 100)) as ([Hf0 _] & _);
    [discriminate | discriminate |].
  cbv zeta in Hf0.
  set (f := Qfloor (inject_Z (Z.of_nat n) * (25 # 100))) in *.
  assert (H4 : inject_Z (4 * f) <= inject_Z (Z.of_nat n)).
  { rewrite inject_Z_mult. change (inject_Z 4) with 4. lra. }
  rewrite <- Zle_Qle in H4. lia.
Qed.

Lemma flagged_at_most_quarter (amounts : list Q) :
  amounts <> [] ->
  (4 * count (fun x => Qltb x (outlier_bound amounts)) amounts
   <= List.length amounts + 3)%nat.
Proof.
  intros Hne.
  pose proof (outlier_bound_le amounts Hne) as Hb. cbv zeta in Hb.
  pose proof (Permutation_length (Qsort_perm amounts)) as Hlen.
  set (s := Qsort amounts) in *. set (last := (List.length s - 1)%nat) in *.
  pose proof (quarter_position last) as Hq.
  set (lo := Z.to_nat (Qfloor (inject_Z (Z.of_nat last) * (25 # 100)))) in *.
  assert (Hpos : (0 < List.length s)%nat).
  { rewrite Hlen. destruct amounts; [congruence | cbn; lia]. }
  set (k := Nat.min (lo + 1) last) in *.
  assert (H1 : (count (fun x => Qltb x (outlier_bound amounts)) amounts
                <= count (fun x => Qltb x (nth k s 0%Q)) s)%nat).
  { rewrite (count_perm _ _ _ (Permutation_sym (Qsort_perm amounts))).
    fold s. apply count_le. intros x _ Hx.
    apply Qltb_lt in Hx. apply Qltb_lt.
    apply Qlt_le_trans with (outlier_bound amounts); assumption. }
  assert (H2 : (count (fun x => Qltb x (nth k s 0%Q)) s <= k)%nat).
  { apply count_below_sorted; [apply Qsort_sorted | subst k last; lia]. }
  subst k last. lia.
Qed.

(** X7: an outlier warning never covers more than about a quarter of
    the expenses.  When a new analyzer carries the warning "Found n
    extreme expense outliers", the table has N >= 4 rows with a
    negative amount, n is at least 1, and 4 n <= N + 3; in particular
    some expense is not flagged. *)
Theorem outlier_warning_count (today : Z) (f : csv) (self : SpendingAnalyzer)
    (n : nat) :
  __init__ today (Some (Ok f)) = Ok self ->
  In (ExtremeOutliers n) (warnings self) ->
  let N := count (fun r => Qltb (Amount r) 0) (rows (df self)) in
  (4 <= N)%nat /\ (1 <= n)%nat /\ (4 * n <= N + 3)%nat /\ (n < N)%nat.
Proof.
  intros H Hin.
  destruct (__init___warnings today f self H) as (out & dup & Hw & Hout & Hdup).
  cbv zeta in *. rewrite Hw in Hin.
  assert (Ho : In (ExtremeOutliers n) out).
  { apply in_app_or in Hin. destruct Hin as [Hin|Hin].
    { exfalso. unfold date_step in Hin.
      destruct (raw_Date (read_csv f)); cbn [snd app] in Hin;
        try (destruct (0 <? _)%nat); cbn in Hin; intuition discriminate. }
    apply in_app_or in Hin. destruct Hin as [Hin|Hin].
    { exfalso. apply in_map_iff in Hin. destruct Hin as [r [Hr _]].
      discriminate. }
    apply in_app_or in Hin. destruct Hin as [Hin|Hin]; [exact Hin|].
    exfalso. destruct Hdup as [->|(m & -> & _)]; cbn in Hin;
      intuition discriminate. }
  destruct Hout as [->|(m & -> & Hm & H4 & Em)]; [destruct Ho|].
  destruct Ho as [[= <-]|[]].
  set (expense_df := filter (fun r => Qltb (Amount r) 0) (rows (df self))) in *.
  assert (Hne : map Amount expense_df <> []).
  { destruct expense_df; [cbn in H4; lia | discriminate]. }
  pose proof (flagged_at_most_quarter (map Amount expense_df) Hne) as Hq.
  rewrite count_map, length_map in Hq. rewrite <- Em in Hq.
  unfold count. fold expense_df. lia.
Qed.

Lemma outlier_warning_count_witness :
  __init__ sample_today (Some (Ok sample_csv)) = Ok sample_analyzer /\
  In (ExtremeOutliers 1) (warnings sample_analyzer) /\
  (4 * 1
   <= count (fun r => Qltb (Amount r) 0) (rows (df sample_analyzer)) + 3)%nat.
Proof.
  assert (H : __init__ sample_today (Some (Ok sample_csv)) = Ok sample_analyzer)
    by (vm_compute; reflexivity).
  assert (Hin : In (ExtremeOutliers 1) (warnings sample_analyzer))
    by (right; right; left; reflexivity).
  split; [exact H|]. split; [exact Hin|].
  apply (outlier_warning_count sample_today sample_csv sample_analyzer 1
           H Hin).
Defined.

(** ** The range of the scores *)

Lemma dict_get_In {V : Type} (d : list (string * V)) (k : string)
    (default : V) :
  dict_get d k default = default \/ In (k, dict_get d k default) d.
Proof.
  induction d as [|[k' v] d IH]; cbn; [now left|].
  destruct (String.eqb_spec k' k) as [->|E]; [right; now left|].
  destruct IH as [IH|IH]; [now left | right; now right].
Qed.

Lemma necessity_table_range :
  Forall (fun kv => 15 # 100 <= snd kv /\ snd kv <= 1
                    /\ round2 (snd kv) == snd kv)
         necessity_table.
Proof. repeat constructor; cbn; discriminate. Qed.

Lemma table_score_range (self : SpendingAnalyzer) (category : option string) :
  necessity_scores self = necessity_table ->
  let score := get_necessity_score self category in
  15 # 100 <= score /\ score <= 1 /\ round2 score == score.
Proof.
  intros Ht. cbv zeta. unfold get_necessity_score. rewrite Ht.
  set (cat := match category with Some c => lower c | None => "other" end).
  destruct (dict_get_In necessity_table cat (50 # 100)) as [->|Hin].
  - repeat split; discriminate.
  - pose proof necessity_table_range as Hr. rewrite Forall_forall in Hr.
    exact (Hr _ Hin).
Qed.

(** X8: with the necessity table of the source, the score of every
    category, known or not, and of a missing category lies between 0.15
    and 1, and rounding it to two decimal places does not change it. *)
Theorem necessity_score_range (self : SpendingAnalyzer)
    (category : option string) :
  necessity_scores self = necessity_table ->
  15 # 100 <= get_necessity_score self category /\
  get_necessity_score self category <= 1 /\
  round2 (get_necessity_score self category)
    == get_necessity_score self category.
Proof. intros H. now apply table_score_range. Qed.

Lemma necessity_score_range_witness :
  necessity_scores sample_analyzer = necessity_table /\
  15 # 100 <= get_necessity_score sample_analyzer (Some "Casino") /\
  get_necessity_score sample_analyzer (Some "Casino") <= 1.
Proof.
  split; [reflexivity|].
  destruct (necessity_score_range sample_analyzer (Some "Casino") eq_refl)
    as (H1 & H2 & _).
  split; assumption.
Defined.

(** ** The cache of ratings *)

Lemma after_cache (self : SpendingAnalyzer) (c : call) :
  (transactions_with_ratings self = [] \/
   transactions_with_ratings self = fst (rate_transaction_worth self)) ->
  transactions_with_ratings (after self c) = [] \/
  transactions_with_ratings (after self c)
  = fst (rate_transaction_worth (after self c)).
Proof.
  intros H.
  assert (E : fst (rate_transaction_worth (after self c))
              = fst (rate_transaction_worth self)).
  { destruct (after_frame self c) as [Hd Hn].
    now apply rate_transaction_worth_ext. }
  rewrite E. destruct c; cbn [after]; try exact H.
  - right. reflexivity.
  - unfold _get_top_questionable_transactions. cbn [snd].
    destruct (transactions_with_ratings self) eqn:Ec.
    + right. reflexivity.
    + rewrite Ec. exact H.
Qed.

Lemma after_all_cache (self : SpendingAnalyzer) (calls : list call) :
  (transactions_with_ratings self = [] \/
   transactions_with_ratings self = fst (rate_transaction_worth self)) ->
  transactions_with_ratings (after_all self calls) = [] \/
  transactions_with_ratings (after_all self calls)
  = fst (rate_transaction_worth (after_all self calls)).
Proof.
  unfold after_all. revert self.
  induction calls as [|c calls IH]; intros self H; cbn [fold_left];
    [exact H|].
  apply IH. now apply after_cache.
Qed.

Lemma __init___cache (today : Z) (file : option (result csv))
    (self : SpendingAnalyzer) :
  __init__ today file = Ok self -> transactions_with_ratings self = [].
Proof.
  unfold __init__. destruct file as [[f|e0]|]; [|discriminate|discriminate].
  destruct (_clean_and_validate_data today (read_csv f, [])) as [[d w]|e];
    [|discriminate].
  intros [= <-]. reflexivity.
Qed.

Lemma top_questionable_of_cache (self : SpendingAnalyzer) (top_n : Z) :
  (transactions_with_ratings self = [] \/
   transactions_with_ratings self = fst (rate_transaction_worth self)) ->
  fst (_get_top_questionable_transactions self top_n)
  = slice_to (sorted_desc tr_waste_potential
                (filter (fun t => Qltb (tr_necessity t) (70 # 100))
                        (fst (rate_transaction_worth self))))
             top_n.
Proof.
  intros H. unfold _get_top_questionable_transactions. cbn [fst].
  destruct (transactions_with_ratings self) eqn:Ec.
  - reflexivity.
  - destruct H as [H|H]; [discriminate|]. cbv iota. rewrite Ec, H.
    reflexivity.
Qed.

(** X10: the questionable list never depends on what was called
    before.  For an analyzer built by [__init__] and used through any
    sequence of method calls, [_get_top_questionable_transactions]
    returns what it returns on the fresh analyzer: the ratings of the
    current table with a reported necessity below 0.70, in descending
    order of waste potential, cut to [top_n]. *)
Theorem top_questionable_ignores_history (today : Z)
    (file : option (result csv))
    (self : SpendingAnalyzer) (calls : list call) (top_n : Z) :
  __init__ today file = Ok self ->
  fst (_get_top_questionable_transactions (after_all self calls) top_n)
  = fst (_get_top_questionable_transactions self top_n) /\
  fst (_get_top_questionable_transactions self top_n)
  = slice_to (sorted_desc tr_waste_potential
                (filter (fun t => Qltb (tr_necessity t) (70 # 100))
                        (fst (rate_transaction_worth self))))
             top_n.
Proof.
  intros H. pose proof (__init___cache today file self H) as Hc.
  assert (H0 : transactions_with_ratings self = [] \/
               transactions_with_ratings self
               = fst (rate_transaction_worth self)) by now left.
  rewrite (top_questionable_of_cache (after_all self calls) top_n
             (after_all_cache self calls H0)).
  rewrite (top_questionable_of_cache self top_n H0).
  split; [|reflexivity].
  destruct (after_all_frame self calls) as [Hd Hn].
  now rewrite (rate_transaction_worth_ext self (after_all self calls) Hd Hn).
Qed.

Lemma top_questionable_ignores_history_witness :
  __init__ sample_today (Some (Ok sample_csv)) = Ok sample_analyzer /\
  fst (_get_top_questionable_transactions
         (after_all sample_analyzer
            [Call_identify_recurring_payments; Call_rate_transaction_worth])
         3)
  = fst (_get_top_questionable_transactions sample_analyzer 3).
Proof.
  assert (H : __init__ sample_today (Some (Ok sample_csv)) = Ok sample_analyzer)
    by (vm_compute; reflexivity).
  split; [exact H|].
  apply (top_questionable_ignores_history sample_today (Some (Ok sample_csv))
           sample_analyzer
           [Call_identify_recurring_payments; Call_rate_transaction_worth]
           3 H).
Defined.

Lemma Qgeb_lt (x y : Q) : Qgeb x y = false <-> x < y.
Proof. rewrite <- Qltb_lt. unfold Qltb, Qgeb. now rewrite negb_true_iff. Qed.

Lemma round2_below (x : Q) (k : Z) : round2 x < k # 100 -> x < k # 100.
Proof.
  intros H. apply Qnot_le_lt. intros Hle.
  apply round2_le in Hle. rewrite round2_hundredths in Hle.
  exact (Qlt_not_le _ _ H Hle).
Qed.

(** X11: a questionable transaction is never marked essential or
    important.  Whatever the necessity table, every entry that
    [_get_top_questionable_transactions] returns for an analyzer whose
    cache is empty or holds the ratings of its table is one of those
    ratings, comes from a category whose score itself is below 0.70,
    and carries the question mark or the cross. *)
Theorem questionable_marks (self : SpendingAnalyzer) (top_n : Z) :
  transactions_with_ratings self = [] \/
  transactions_with_ratings self = fst (rate_transaction_worth self) ->
  Forall (fun t =>
            exists r,
              In r (rows (df self)) /\ t = rate_row self r /\
              get_necessity_score self (Some (Category r)) < 70 # 100 /\
              (tr_assessment t = Discretionary \/ tr_assessment t = CouldCut))
         (fst (_get_top_questionable_transactions self top_n)).
Proof.
  intros H. rewrite (top_questionable_of_cache self top_n H).
  apply Forall_forall. intros t Ht.
  apply slice_to_In, sorted_desc_In, filter_In in Ht.
  destruct Ht as [Hin Hn]. apply Qltb_lt in Hn.
  apply rate_transaction_worth_In in Hin. destruct Hin as [r [Hr ->]].
  exists r. split; [exact Hr|]. split; [reflexivity|].
  cbn [rate_row tr_necessity tr_assessment] in *.
  apply round2_below in Hn.
  split; [exact Hn|]. unfold assess.
  assert (E9 : Qgeb (get_necessity_score self (Some (Category r))) (9 # 10)
               = false).
  { apply Qgeb_lt. apply Qlt_trans with (70 # 100); [exact Hn|reflexivity]. }
  assert (E7 : Qgeb (get_necessity_score self (Some (Category r))) (7 # 10)
               = false).
  { apply Qgeb_lt. apply Qlt_le_trans with (70 # 100); [exact Hn|discriminate]. }
  rewrite E9, E7. destruct (Qgeb _ (4 # 10)); auto.
Qed.

Lemma questionable_marks_witness :
  (transactions_with_ratings sample_analyzer = [] \/
   transactions_with_ratings sample_analyzer
   = fst (rate_transaction_worth sample_analyzer)) /\
  Forall (fun t => tr_assessment t = Discretionary
                   \/ tr_assessment t = CouldCut)
         (fst (_get_top_questionable_transactions sample_analyzer 8)).
Proof.
  assert (H : transactions_with_ratings sample_analyzer = [] \/
              transactions_with_ratings sample_analyzer
              = fst (rate_transaction_worth sample_analyzer))
    by (left; reflexivity).
  split; [exact H|].
  eapply Forall_impl; [|exact (questionable_marks sample_analyzer 8 H)].
  intros t [r (_ & _ & _ & Ht)]. exact Ht.
Defined.

(** ** More on the spending cuts *)

Lemma sorted_keys_NoDup (m : list (string * Q)) :
  StronglySorted (fun a b => String.compare (fst a) (fst b) = Lt) m ->
  NoDup (map fst m).
Proof.
  induction 1 as [|[k t] m Hs IH Hk]; cbn; constructor; [|exact IH].
  intros Hin. apply in_map_iff in Hin. destruct Hin as [[k' t'] [E Hin]].
  cbn in E. subst k'. rewrite Forall_forall in Hk. specialize (Hk _ Hin).
  cbn in Hk. now apply compare_lt_neq in Hk.
Qed.

Lemma suggestion_of_category (self : SpendingAnalyzer) (e : string * Q)
    (s : Suggestion) :
  In s (suggestion_of self e) -> sg_category s = fst e.
Proof.
  destruct e as [cat total]. unfold suggestion_of.
  destruct (mem cat protected && _); [intros []|].
  destruct (Qle_bool _ 1); [intros []|].
  intros [<-|[]]. reflexivity.
Qed.

Lemma suggestions_NoDup (self : SpendingAnalyzer) (m : list (string * Q)) :
  NoDup (map fst m) ->
  NoDup (map sg_category (flat_map (suggestion_of self) m)).
Proof.
  induction m as [|e m IH]; cbn; intros H; [constructor|].
  inversion H as [|? ? Hk Hm]; subst.
  rewrite map_app. apply NoDup_app; [|now apply IH|].
  - destruct e as [cat total]. unfold suggestion_of.
    destruct (mem cat protected && _); [constructor|].
    destruct (Qle_bool _ 1); [constructor|].
    cbn. constructor; [intros []|constructor].
  - intros c Hc Hc'. apply in_map_iff in Hc. destruct Hc as [s [<- Hs]].
    apply suggestion_of_category in Hs.
    apply in_map_iff in Hc'. destruct Hc' as [s' [E Hs']].
    apply in_flat_map in Hs'. destruct Hs' as [e' [He' Hs']].
    apply suggestion_of_category in Hs'.
    apply Hk. apply in_map_iff. exists e'. split; [congruence|exact He'].
Qed.

Lemma analyze_spending_unfold (self : SpendingAnalyzer) :
  let expenses := filter (fun r => Qltb (Amount r) 0) (rows (df self)) in
  analyze_spending self
  = sorted_desc sg_potential_cut
      (flat_map (suggestion_of self) (groupby_sum expenses)).
Proof.
  cbv zeta. unfold analyze_spending.
  destruct (filter (fun r => Qltb (Amount r) 0) (rows (df self)));
    reflexivity.
Qed.

Lemma analyze_spending_NoDup (self : SpendingAnalyzer) :
  NoDup (map sg_category (analyze_spending self)).
Proof.
  rewrite analyze_spending_unfold.
  eapply Permutation_NoDup.
  - apply Permutation_map. symmetry. apply sorted_desc_perm.
  - apply suggestions_NoDup, sorted_keys_NoDup, groupby_sum_spec.
Qed.



Lemma mem_false (s : string) (l : list string) :
  ~ In s l -> mem s l = false.
Proof.
  intros H. destruct (mem s l) eqn:E; [|reflexivity].
  apply mem_In in E. contradiction.
Qed.

Lemma recommend_loop_firstn (top_n : Z) (cuts : list Suggestion)
    (seen : list string) (recs : list Recommendation) :
  NoDup (map sg_category cuts) ->
  (forall s, In s cuts -> ~ In (sg_category s) seen) ->
  recommend_loop top_n cuts seen recs
  = recs ++ map recommendation_of
                (firstn (Z.to_nat
                           (Z.max (top_n - Z.of_nat (List.length recs)) 1))
                        cuts).
Proof.
  revert seen recs. induction cuts as [|c cuts IH]; intros seen recs Hnd Hseen.
  - cbn. now rewrite firstn_nil, app_nil_r.
  - cbn [recommend_loop].
    rewrite (mem_false _ _ (Hseen c (or_introl eq_refl))).
    cbn [map] in Hnd. inversion Hnd as [|? ? Hc Hcuts]; subst.
    change (mkRecommendation (sg_category c) (sg_amount c)
              (_generate_reason (sg_category c) (sg_amount c)
                                (sg_necessity c)))
      with (recommendation_of c).
    rewrite length_app. cbn [List.length].
    destruct (Z.leb_spec top_n (Z.of_nat (List.length recs + 1))) as [Hle|Hgt].
    + replace (Z.to_nat (Z.max (top_n - Z.of_nat (List.length recs)) 1))
        with 1%nat by lia.
      reflexivity.
    + rewrite IH.
      * rewrite length_app. cbn [List.length].
        replace (Z.to_nat (Z.max (top_n - Z.of_nat (List.length recs)) 1))
          with (S (Z.to_nat (Z.max (top_n
                                    - Z.of_nat (List.length recs + 1)) 1)))
          by lia.
        cbn [firstn map]. now rewrite <- app_assoc.
      * exact Hcuts.
      * intros s Hs [E|Hin].
        -- apply Hc. rewrite E. apply in_map_iff. exists s. auto.
        -- apply (Hseen s); [now right | exact Hin].
Qed.

Lemma get_recommendations_prefix (self : SpendingAnalyzer) (top_n : Z) :
  get_recommendations self top_n
  = map recommendation_of
        (firstn (Z.to_nat (Z.max top_n 1)) (analyze_spending self)).
Proof.
  unfold get_recommendations.
  rewrite recommend_loop_firstn.
  - cbn [app List.length Z.of_nat]. now rewrite Z.sub_0_r.
  - apply analyze_spending_NoDup.
  - intros s _ [].
Qed.

(** X14: the recommendations are the first suggestions.
    [get_recommendations(top_n)] returns, made into recommendations and
    in the same order, the first [top_n] suggestions of
    [analyze_spending], all of them if there are fewer; for [top_n] of
    0 or less it still returns the first one.  No category is
    recommended twice. *)
Theorem get_recommendations_firstn (self : SpendingAnalyzer) (top_n : Z) :
  get_recommendations self top_n
  = map recommendation_of
        (firstn (Z.to_nat (Z.max top_n 1)) (analyze_spending self)) /\
  NoDup (map rec_category (get_recommendations self top_n)).
Proof.
  split; [apply get_recommendations_prefix|].
  rewrite get_recommendations_prefix, map_map. cbn [recommendation_of
                                                     rec_category].
  pose proof (analyze_spending_NoDup self) as Hnd.
  rewrite <- (firstn_skipn (Z.to_nat (Z.max top_n 1)) (analyze_spending self))
    in Hnd.
  rewrite map_app in Hnd. now apply NoDup_app_remove_r in Hnd.
Qed.

Lemma get_recommendations_of (self : SpendingAnalyzer) (top_n : Z)
    (c : Recommendation) :
  In c (get_recommendations self top_n) ->
  exists s, In s (analyze_spending self) /\ c = recommendation_of s.
Proof.
  unfold get_recommendations.
  rewrite recommend_loop_firstn;
    [|apply analyze_spending_NoDup | intros s _ []].
  cbn [app]. intros H. apply in_map_iff in H.
  destruct H as [s [<- Hs]]. exists s. split; [|reflexivity].
  eapply firstn_In; eauto.
Qed.

Lemma get_necessity_score_lower (self : SpendingAnalyzer) (c : string) :
  get_necessity_score self (Some (lower c)) = get_necessity_score self (Some c).
Proof. unfold get_necessity_score. now rewrite lower_idempotent. Qed.

(** X15: advice and marks agree.  The reason attached to a recommended
    category is the one that corresponds to the mark which
    [rate_transaction_worth] gives to every transaction of that
    category: "not recommended to cut" with the check mark, "could be
    reviewed" with the arrow, "consider trimming" with the question
    mark, "good candidate to cut" with the cross. *)
Theorem reasons_match_marks (self : SpendingAnalyzer) (top_n : Z)
    (c : Recommendation) (r : row) :
  In c (get_recommendations self top_n) ->
  In r (rows (df self)) ->
  lower (Category r) = rec_category c ->
  rec_reason c
  = match tr_assessment (rate_row self r) with
    | Essential => HighNecessity
    | Important => ImportantReview
    | Discretionary => ModeratelyNecessary
    | CouldCut => LowNecessity
    end.
Proof.
  intros Hc _ Hcat.
  destruct (get_recommendations_of self top_n c Hc) as [s [Hs ->]].
  destruct (analyze_spending_In self s Hs) as (_ & _ & _ & _ & Hn & _).
  cbv zeta in Hn.
  cbn [recommendation_of rec_reason rec_category rate_row tr_assessment] in *.
  rewrite Hn, <- Hcat, get_necessity_score_lower.
  unfold _generate_reason, assess.
  destruct (Qgeb _ (9 # 10)); [reflexivity|].
  destruct (Qgeb _ (7 # 10)); [reflexivity|].
  destruct (Qgeb _ (4 # 10)); reflexivity.
Qed.

Lemma reasons_match_marks_witness :
  let c := mkRecommendation "dining" (1333 # 100) LowNecessity in
  let r := mkRow 8 (Some 15%Z) (-1333 # 100) "Dining" "Unknown" false in
  In c (get_recommendations sample_analyzer 5) /\
  In r (rows (df sample_analyzer)) /\
  lower (Category r) = rec_category c /\
  tr_assessment (rate_row sample_analyzer r) = CouldCut.
Proof.
  intros c r.
  assert (Hc : In c (get_recommendations sample_analyzer 5))
    by (vm_compute; right; left; reflexivity).
  assert (Hr : In r (rows (df sample_analyzer)))
    by (cbn; do 7 right; left; reflexivity).
  assert (Hcat : lower (Category r) = rec_category c) by reflexivity.
  split; [exact Hc|]. split; [exact Hr|]. split; [exact Hcat|].
  pose proof (reasons_match_marks sample_analyzer 5 c r Hc Hr Hcat) as H.
  destruct (tr_assessment (rate_row sample_analyzer r));
    try discriminate H. reflexivity.
Defined.

(** ** More on the recurring payments *)

Lemma recurring_of_description (e : string * list row) (g : RecurringPayment) :
  In g (recurring_of e) -> rp_description g = fst e.
Proof.
  destruct e as [k items]. unfold recurring_of.
  destruct (2 <=? List.length items)%nat; [|intros []].
  intros [<-|[]]. reflexivity.
Qed.

Lemma recurring_NoDup (m : list (string * list row)) :
  NoDup (map fst m) ->
  NoDup (map rp_description (flat_map recurring_of m)).
Proof.
  induction m as [|e m IH]; cbn; intros H; [constructor|].
  inversion H as [|? ? Hk Hm]; subst.
  rewrite map_app. apply NoDup_app; [|now apply IH|].
  - destruct e as [k items]. unfold recurring_of.
    destruct (2 <=? List.length items)%nat; [|constructor].
    cbn. constructor; [intros []|constructor].
  - intros d Hd Hd'. apply in_map_iff in Hd. destruct Hd as [g [<- Hg]].
    apply recurring_of_description in Hg.
    apply in_map_iff in Hd'. destruct Hd' as [g' [E Hg']].
    apply in_flat_map in Hg'. destruct Hg' as [e' [He' Hg']].
    apply recurring_of_description in Hg'.
    apply Hk. apply in_map_iff. exists e'. split; [congruence|exact He'].
Qed.

(** X16: every repeated description is reported.  If the trimmed,
    lower-cased description of a row of the table occurs on at least
    two rows, [identify_recurring_payments] returns a group with that
    description, and its count is the number of those rows. *)
Theorem recurring_payments_complete (self : SpendingAnalyzer) (r : row) :
  In r (rows (df self)) ->
  (2 <= List.length (occurrences (desc_key r) (rows (df self))))%nat ->
  exists g,
    In g (fst (identify_recurring_payments self)) /\
    rp_description g = desc_key r /\
    rp_count g = List.length (occurrences (desc_key r) (rows (df self))).
Proof.
  intros Hin Hlen. unfold identify_recurring_payments. cbn [fst].
  destruct (build_desc_map_spec (rows (df self))) as (_ & Hall & Hitems).
  specialize (Hall r Hin). apply in_map_iff in Hall.
  destruct Hall as [[k items] [Ek He]]. cbn in Ek. subst k.
  pose proof (Hitems _ _ He) as Hi. rewrite <- Hi in Hlen.
  exists (mkRecurring (desc_key r) (List.length items)
            (round2 (Qsum (map Amount items)
                     / inject_Z (Z.of_nat (List.length items))))
            (match items with r0 :: _ => Category r0 | [] => "Other" end)).
  split; [|split; [reflexivity | cbn; now rewrite Hi]].
  apply sorted_desc_In, in_flat_map. exists (desc_key r, items).
  split; [exact He|]. unfold recurring_of.
  apply Nat.leb_le in Hlen. rewrite Hlen. now left.
Qed.

Lemma recurring_payments_complete_witness :
  let r := mkRow 0 (Some 5%Z) (-50) "Groceries" "Store A" false in
  In r (rows (df sample_analyzer)) /\
  (2 <= List.length (occurrences (desc_key r) (rows (df sample_analyzer))))%nat /\
  exists g,
    In g (fst (identify_recurring_payments sample_analyzer)) /\
    rp_description g = "store a".
Proof.
  intros r.
  assert (Hin : In r (rows (df sample_analyzer))) by (left; reflexivity).
  assert (Hlen : (2 <= List.length (occurrences (desc_key r)
                                      (rows (df sample_analyzer))))%nat)
    by (vm_compute; lia).
  split; [exact Hin|]. split; [exact Hlen|].
  destruct (recurring_payments_complete sample_analyzer r Hin Hlen)
    as [g (Hg & Hd & _)].
  exists g. split; [exact Hg | exact Hd].
Defined.

(** X17: no description is reported twice, and the category reported
    for a group is the category of the first row of the table that has
    the group's description. *)
Theorem recurring_payments_distinct (self : SpendingAnalyzer) :
  let result := fst (identify_recurring_payments self) in
  NoDup (map rp_description result) /\
  Forall (fun g =>
            exists first rest,
              occurrences (rp_description g) (rows (df self)) = first :: rest
              /\ rp_category g = Category first)
         result.
Proof.
  cbv zeta. unfold identify_recurring_payments. cbn [fst].
  destruct (build_desc_map_spec (rows (df self))) as (Hnd & _ & Hitems).
  split.
  - eapply Permutation_NoDup.
    + apply Permutation_map. symmetry. apply sorted_desc_perm.
    + now apply recurring_NoDup.
  - apply Forall_forall. intros g Hg.
    apply sorted_desc_In, in_flat_map in Hg.
    destruct Hg as [[k items] [He Hg]].
    pose proof (Hitems _ _ He) as Hi. unfold recurring_of in Hg.
    destruct (Nat.leb_spec 2 (List.length items)) as [Hlen|Hlen];
      [|destruct Hg].
    destruct Hg as [<-|[]]. cbn [rp_description rp_category].
    rewrite <- Hi. destruct items as [|first rest]; [cbn in Hlen; lia|].
    exists first, rest. split; reflexivity.
Qed.

(** ** More on the investment projection *)

Lemma Qpower_succ (x : Q) (n : nat) :
  x ^ Z.of_nat (S n) == x ^ Z.of_nat n * x.
Proof.
  rewrite Nat2Z.inj_succ, <- Z.add_1_r.
  rewrite Qpower_plus' by lia. now rewrite Qpower_1_r.
Qed.

Lemma geometric_closed (r : Q) (n : nat) :
  (1 + r) ^ Z.of_nat n - 1 == r * geometric (1 + r) n.
Proof.
  induction n as [|n IH].
  - cbn. ring.
  - rewrite Qpower_succ. cbn [geometric].
    setoid_replace ((1 + r) ^ Z.of_nat n * (1 + r) - 1)
      with (((1 + r) ^ Z.of_nat n - 1) + r * (1 + r) ^ Z.of_nat n) by ring.
    rewrite IH. ring.
Qed.

Lemma future_value_geometric (monthly_savings r : Q) (n : nat) :
  ~ r == 0 ->
  future_value monthly_savings r (Z.of_nat n)
  == monthly_savings * geometric (1 + r) n.
Proof.
  intros Hr. unfold future_value. rewrite geometric_closed. field. exact Hr.
Qed.

Lemma power_ge_1 (x : Q) (n : nat) : 1 <= x -> 1 <= x ^ Z.of_nat n.
Proof.
  intros Hx. induction n as [|n IH]; [discriminate|].
  rewrite Qpower_succ. set (p := x ^ Z.of_nat n) in *. nra.
Qed.

Lemma geometric_step (x : Q) (n m : nat) :
  1 <= x -> (n <= m)%nat ->
  geometric x n + inject_Z (Z.of_nat (m - n)) <= geometric x m.
Proof.
  intros Hx Hnm. induction Hnm as [|m Hnm IH].
  - rewrite Nat.sub_diag. change (inject_Z (Z.of_nat 0)) with 0.
    set (g := geometric x n). lra.
  - replace (S m - n)%nat with (S (m - n)) by lia.
    rewrite Nat2Z.inj_succ, <- Z.add_1_r, inject_Z_plus.
    change (inject_Z 1) with 1. cbn [geometric].
    pose proof (power_ge_1 x m Hx) as Hp.
    set (p := x ^ Z.of_nat m) in *. set (gn := geometric x n) in *.
    set (gm := geometric x m) in *.
    set (k := inject_Z (Z.of_nat (m - n))) in *. lra.
Qed.

(** X18: the projected value is the sum of the compounded
    contributions.  For a non-zero monthly rate [r] and [n] payments,
    [PMT * (((1 + r)^n - 1) / r)] equals
    [PMT * (1 + (1 + r) + ... + (1 + r)^(n-1))]; with a rate that is
    not negative and contributions that are not negative it is at least
    [n] contributions, and it does not decrease when more payments are
    made. *)
Theorem future_value_is_compounded_sum (monthly_savings r : Q) (n m : nat) :
  0 < r -> 0 <= monthly_savings -> (n <= m)%nat ->
  future_value monthly_savings r (Z.of_nat n)
    == monthly_savings * geometric (1 + r) n /\
  monthly_savings * inject_Z (Z.of_nat n)
    <= future_value monthly_savings r (Z.of_nat n) /\
  future_value monthly_savings r (Z.of_nat n)
    <= future_value monthly_savings r (Z.of_nat m).
Proof.
  intros Hr Hs Hnm.
  assert (Hr0 : ~ r == 0) by (intros E; rewrite E in Hr; discriminate).
  assert (Hx : 1 <= 1 + r) by lra.
  rewrite !future_value_geometric by exact Hr0.
  pose proof (geometric_step (1 + r) 0 n Hx ltac:(lia)) as Hn.
  pose proof (geometric_step (1 + r) n m Hx Hnm) as Hm.
  rewrite Nat.sub_0_r in Hn. cbn [geometric] in Hn.
  pose proof (inject_nat_nonneg (m - n)) as Hd.
  split; [reflexivity|]. split; nra.
Qed.

Lemma future_value_is_compounded_sum_witness :
  0 < 5 # 1200 /\ 0 <= 100 /\ (12 <= 24)%nat /\
  100 * inject_Z (Z.of_nat 12) <= future_value 100 (5 # 1200) (Z.of_nat 12).
Proof.
  assert (Hr : 0 < 5 # 1200) by reflexivity.
  assert (Hs : 0 <= 100) by discriminate.
  assert (Hnm : (12 <= 24)%nat) by lia.
  split; [exact Hr|]. split; [exact Hs|]. split; [exact Hnm|].
  apply (future_value_is_compounded_sum 100 (5 # 1200) 12 24 Hr Hs Hnm).
Defined.

Lemma scenario_values (monthly_savings rate : Q) :
  0 < rate -> 0 <= monthly_savings ->
  let v := fun years : Z =>
    round2 (future_value monthly_savings rate (years * 12)) in
  round2 (monthly_savings * 12) <= v 1%Z /\
  round2 (monthly_savings * 24) <= v 2%Z /\
  round2 (monthly_savings * 60) <= v 5%Z /\
  v 1%Z <= v 2%Z /\ v 2%Z <= v 5%Z.
Proof.
  intros Hr Hs v. subst v. cbv beta.
  change (1 * 12)%Z with (Z.of_nat 12).
  change (2 * 12)%Z with (Z.of_nat 24).
  change (5 * 12)%Z with (Z.of_nat 60).
  assert (Hr0 : ~ rate == 0) by (intros E; rewrite E in Hr; discriminate).
  assert (Hx : 1 <= 1 + rate) by lra.
  pose proof (geometric_step (1 + rate) 0 12 Hx ltac:(lia)) as H12.
  pose proof (geometric_step (1 + rate) 0 24 Hx ltac:(lia)) as H24.
  pose proof (geometric_step (1 + rate) 0 60 Hx ltac:(lia)) as H60.
  pose proof (geometric_step (1 + rate) 12 24 Hx ltac:(lia)) as Ha.
  pose proof (geometric_step (1 + rate) 24 60 Hx ltac:(lia)) as Hb.
  change (geometric (1 + rate) 0) with 0 in *.
  change (inject_Z (Z.of_nat (12 - 0))) with 12 in *.
  change (inject_Z (Z.of_nat (24 - 0))) with 24 in *.
  change (inject_Z (Z.of_nat (60 - 0))) with 60 in *.
  change (inject_Z (Z.of_nat (24 - 12))) with 12 in *.
  change (inject_Z (Z.of_nat (60 - 24))) with 36 in *.
  repeat split; apply round2_le;
    rewrite ?future_value_geometric by exact Hr0; nra.
Qed.

(** X19: saving never projects a loss.  When the recommended amounts
    sum to a number that is not negative, every scenario of
    [investment_projection] has projections for 1, 2 and 5 years; each
    is at least the rounded sum of the monthly contributions over the
    horizon (12, 24 and 60 times the unrounded monthly savings), and
    they do not decrease with the horizon. *)
Theorem projections_cover_contributions
    (recommendations : list Recommendation) :
  0 <= Qsum (map rec_amount recommendations) ->
  let saved := Qsum (map rec_amount recommendations) / 12 in
  Forall (fun sc =>
            exists v1 v2 v5,
              sc_projections sc = [(1, v1); (2, v2); (5, v5)]%Z /\
              round2 (saved * 12) <= v1 /\
              round2 (saved * 24) <= v2 /\
              round2 (saved * 60) <= v5 /\
              v1 <= v2 /\ v2 <= v5)
         (scenarios (investment_projection recommendations)).
Proof.
  intros Hsum saved.
  assert (Hs : 0 <= saved).
  { subst saved. apply Qle_shift_div_l; [reflexivity|]. lra. }
  unfold investment_projection. fold saved. cbn [scenarios map].
  repeat constructor;
    (eexists _, _, _; cbn [sc_projections]; split; [reflexivity|];
     apply scenario_values; [reflexivity | exact Hs]).
Qed.

Lemma projections_cover_contributions_witness :
  0 <= Qsum (map rec_amount (get_recommendations sample_analyzer 5)) /\
  Forall (fun sc => exists v1 v2 v5,
            sc_projections sc = [(1, v1); (2, v2); (5, v5)]%Z /\ v1 <= v5)
         (scenarios (investment_projection
                       (get_recommendations sample_analyzer 5))).
Proof.
  assert (H : 0 <= Qsum (map rec_amount
                           (get_recommendations sample_analyzer 5)))
    by (vm_compute; discriminate).
  split; [exact H|].
  eapply Forall_impl;
    [|exact (projections_cover_contributions
               (get_recommendations sample_analyzer 5) H)].
  intros sc (v1 & v2 & v5 & E & _ & _ & _ & H12 & H25).
  exists v1, v2, v5. split; [exact E|]. now apply Qle_trans with v2.
Defined.

(** ** Incoming money *)

Lemma period_add_total (k : Z) (v : Q) (m : list (Z * Q)) :
  Qsum (map snd (period_add k v m)) == Qsum (map snd m) + v.
Proof.
  induction m as [|[k' t] m IH]; cbn [period_add map snd].
  - rewrite Qsum_cons. unfold Qsum. cbn. ring.
  - destruct (k ?= k')%Z; cbn [map snd]; rewrite ?Qsum_cons.
    + ring.
    + ring.
    + rewrite IH. ring.
Qed.

Lemma period_add_nonempty (k : Z) (v : Q) (m : list (Z * Q)) :
  period_add k v m <> [].
Proof.
  destruct m as [|[k' t] m]; cbn; [discriminate|].
  destruct (k ?= k')%Z; discriminate.
Qed.

Lemma monthly_sums_snoc (to_period_M : Z -> Z) (l : list row) (r : row) :
  monthly_sums to_period_M (l ++ [r])
  = match Date r with
    | Some t => period_add (to_period_M t) (Amount r)
                           (monthly_sums to_period_M l)
    | None => monthly_sums to_period_M l
    end.
Proof. unfold monthly_sums. now rewrite fold_left_app. Qed.

Lemma monthly_sums_total (to_period_M : Z -> Z) (l : list row) :
  Qsum (map snd (monthly_sums to_period_M l))
  == Qsum (map Amount
               (filter (fun r => match Date r with
                                 | Some _ => true | None => false end) l)).
Proof.
  induction l as [|r l IH] using rev_ind; [reflexivity|].
  rewrite monthly_sums_snoc, filter_app, map_app, Qsum_app. cbn [filter].
  destruct (Date r); cbn [map].
  - rewrite period_add_total, IH, Qsum_cons.
    change (Qsum []) with 0. ring.
  - rewrite IH. change (Qsum []) with 0. ring.
Qed.

Lemma monthly_sums_empty (to_period_M : Z -> Z) (l : list row) :
  monthly_sums to_period_M l = [] -> Forall (fun r => Date r = None) l.
Proof.
  induction l as [|r l IH] using rev_ind; [constructor|].
  rewrite monthly_sums_snoc. intros H. apply Forall_app.
  destruct (Date r) eqn:E.
  - now apply period_add_nonempty in H.
  - split; [now apply IH | repeat constructor; exact E].
Qed.

Lemma Qsum_filter_le (p : row -> bool) (l : list row) :
  Forall (fun r => 0 <= Amount r) l ->
  0 <= Qsum (map Amount (filter p l)) /\
  Qsum (map Amount (filter p l)) <= Qsum (map Amount l).
Proof.
  induction 1 as [|r l Hr _ IH]; [split; discriminate|].
  cbn [filter map]. rewrite Qsum_cons.
  destruct (p r); cbn [map]; rewrite ?Qsum_cons; lra.
Qed.

Lemma monthly_prediction_bounds (to_period_M : Z -> Z) (incomes : list row) :
  Forall (fun r => 0 <= Amount r) incomes ->
  match monthly_sums to_period_M incomes with
  | [] => Forall (fun r => Date r = None) incomes
  | m =>
      0 <= round2 (Qsum (map snd m) / inject_Z (Z.of_nat (List.length m)))
  end.
Proof.
  intros Hpos.
  pose proof (monthly_sums_total to_period_M incomes) as Hm.
  pose proof (monthly_sums_empty to_period_M incomes) as He.
  destruct (Qsum_filter_le (fun r => match Date r with
                                     | Some _ => true | None => false end)
              incomes Hpos) as [H0 H1].
  rewrite <- Hm in H0, H1.
  destruct (monthly_sums to_period_M incomes) as [|e m]; [now apply He|].
  cbv beta iota zeta.
  set (S := Qsum (map snd (e :: m))) in *.
  assert (Hk : 1 <= inject_Z (Z.of_nat (List.length (e :: m)))).
  { cbn [List.length]. rewrite Nat2Z.inj_succ, <- Z.add_1_r, inject_Z_plus.
    change (inject_Z 1) with 1.
    pose proof (inject_nat_nonneg (List.length m)). lra. }
  set (k := inject_Z (Z.of_nat (List.length (e :: m)))) in *.
  clearbody S k. clear Hm He.
  assert (Hq0 : 0 <= S / k) by (apply Qle_shift_div_l; lra).
  now apply round2_nonneg.
Qed.

(** X21: what [predict_incoming_money] always reports.  The
    transaction count is the number of rows with a positive amount,
    whatever the calendar.  The prediction, when it is a number, is
    not negative; it is not-a-number only when the table has a [Date]
    column and rows with a positive amount, none of which has a date. *)
Theorem predicted_income_reported (to_period_M : Z -> Z)
    (self : SpendingAnalyzer) :
  let incomes := filter (fun r => Qgtb (Amount r) 0) (rows (df self)) in
  let p := predict_incoming_money to_period_M self in
  income_transaction_count p = List.length incomes /\
  match predicted_monthly_income p with
  | Some v => 0 <= v
  | None =>
      incomes <> [] /\ Date_column (df self) <> DateAbsent /\
      Forall (fun r => Date r = None) incomes
  end.
Proof.
  cbv zeta. unfold predict_incoming_money.
  remember (filter (fun r => Qgtb (Amount r) 0) (rows (df self))) as incomes
    eqn:Ei.
  assert (Hpos : Forall (fun r => 0 <= Amount r) incomes).
  { apply Forall_forall. intros r Hr. rewrite Ei in Hr.
    apply filter_In in Hr. destruct Hr as [_ Hr].
    apply Qlt_le_weak. now apply Qltb_lt in Hr. }
  clear Ei. destruct incomes as [|r0 l0].
  { cbn. repeat split; discriminate. }
  assert (Htot : 0 <= Qsum (map Amount (r0 :: l0))).
  { apply Qsum_nonneg, Forall_forall. intros x Hx.
    apply in_map_iff in Hx. destruct Hx as [r [<- Hr]].
    rewrite Forall_forall in Hpos. auto. }
  pose proof (monthly_prediction_bounds to_period_M (r0 :: l0) Hpos) as Hm.
  destruct (Date_column (df self)) eqn:Ed.
  - cbn [income_transaction_count predicted_monthly_income].
    split; [reflexivity|]. now apply round2_nonneg.
  - destruct (monthly_sums to_period_M (r0 :: l0));
      cbn [income_transaction_count predicted_monthly_income];
      (split; [reflexivity|]); [|exact Hm].
    repeat split; try discriminate. exact Hm.
  - destruct (monthly_sums to_period_M (r0 :: l0));
      cbn [income_transaction_count predicted_monthly_income];
      (split; [reflexivity|]); [|exact Hm].
    repeat split; try discriminate. exact Hm.
Qed.

(** ** The dashboard *)

Lemma generate_dashboard_ext (to_period_M : Z -> Z)
    (self self' : SpendingAnalyzer) :
  df self' = df self ->
  warnings self' = warnings self ->
  necessity_scores self' = necessity_scores self ->
  generate_dashboard to_period_M self' = generate_dashboard to_period_M self.
Proof.
  destruct self as [d w rp tr ns], self' as [d' w' rp' tr' ns'].
  cbn [df warnings necessity_scores]. intros -> -> ->. reflexivity.
Qed.

Lemma generate_dashboard_frame (to_period_M : Z -> Z)
    (self : SpendingAnalyzer) :
  let self' := snd (generate_dashboard to_period_M self) in
  df self' = df self /\
  warnings self' = warnings self /\
  necessity_scores self' = necessity_scores self.
Proof.
  cbv zeta. unfold generate_dashboard, _get_top_questionable_transactions.
  cbn [identify_recurring_payments rate_transaction_worth fst snd
       transactions_with_ratings df warnings necessity_scores].
  destruct (map _ (rows (df self))); repeat split.
Qed.

(** X23: the dashboard can be generated again.  A second call of
    [generate_dashboard] on the analyzer that the first call leaves
    behind returns the same dashboard and leaves the same analyzer;
    the first call changes neither the table, nor the warnings, nor the
    necessity table. *)
Theorem generate_dashboard_repeatable (to_period_M : Z -> Z)
    (self : SpendingAnalyzer) :
  let first := generate_dashboard to_period_M self in
  generate_dashboard to_period_M (snd first) = first /\
  df (snd first) = df self /\
  warnings (snd first) = warnings self /\
  necessity_scores (snd first) = necessity_scores self.
Proof.
  cbv zeta.
  destruct (generate_dashboard_frame to_period_M self) as (Hd & Hw & Hn).
  cbv zeta in *. split; [|auto].
  now apply generate_dashboard_ext.
Qed.

Lemma slice_to_all {A : Type} (l : list A) (n : Z) :
  (Z.of_nat (List.length l) <= n)%Z -> slice_to l n = l.
Proof.
  intros H. unfold slice_to.
  destruct (Z.leb_spec 0 n) as [Hn|Hn]; [|lia].
  apply firstn_all2. lia.
Qed.

Lemma slice_to_length {A : Type} (l : list A) (n : Z) :
  (0 <= n)%Z -> (List.length (slice_to l n) <= Z.to_nat n)%nat.
Proof.
  intros H. unfold slice_to.
  destruct (Z.leb_spec 0 n) as [Hn|Hn]; [|lia]. apply firstn_le_length.
Qed.

(** X24: what the dashboard carries.  The transaction ratings of the
    dashboard are the ratings of the table, one per row; the spending
    cuts are the first five suggestions of [analyze_spending] made into
    recommendations; the questionable list has at most eight entries,
    all taken from the transaction ratings; the investment projection
    is the one of the spending cuts.  So the views, which show the
    first six cuts and the first eight or fifteen questionable
    transactions, leave none of them out. *)
Theorem dashboard_contents (to_period_M : Z -> Z) (self : SpendingAnalyzer) :
  let d := fst (generate_dashboard to_period_M self) in
  db_transaction_ratings d = fst (rate_transaction_worth self) /\
  List.length (db_transaction_ratings d) = List.length (rows (df self)) /\
  db_spending_cuts d
  = map recommendation_of (firstn 5 (analyze_spending self)) /\
  Forall (fun t => In t (db_transaction_ratings d))
         (db_top_questionable_spending d) /\
  db_investment_projection d = investment_projection (db_spending_cuts d) /\
  slice_to (db_spending_cuts d) 6 = db_spending_cuts d /\
  slice_to (db_top_questionable_spending d) 8
  = db_top_questionable_spending d /\
  slice_to (db_top_questionable_spending d) 15
  = db_top_questionable_spending d.
Proof.
  cbv zeta.
  set (self2 := snd (rate_transaction_worth
                       (snd (identify_recurring_payments self)))).
  assert (Hd2 : df self2 = df self) by reflexivity.
  assert (Hn2 : necessity_scores self2 = necessity_scores self) by reflexivity.
  assert (Hc2 : transactions_with_ratings self2
                = fst (rate_transaction_worth self)) by reflexivity.
  assert (Hcuts : get_recommendations self2 5
                  = map recommendation_of (firstn 5 (analyze_spending self))).
  { rewrite get_recommendations_prefix. reflexivity. }
  assert (Hq : fst (_get_top_questionable_transactions self2 8)
               = slice_to (sorted_desc tr_waste_potential
                   (filter (fun t => Qltb (tr_necessity t) (70 # 100))
                           (fst (rate_transaction_worth self)))) 8).
  { rewrite top_questionable_of_cache; [reflexivity|]. right. reflexivity. }
  assert (Hs3 : transactions_with_ratings
                  (snd (_get_top_questionable_transactions self2 8))
                = fst (rate_transaction_worth self)).
  { unfold _get_top_questionable_transactions. cbn [snd].
    destruct (transactions_with_ratings self2); reflexivity. }
  assert (Hgd : fst (generate_dashboard to_period_M self)
                = mkDashboard (_generate_summary self)
                    (predict_incoming_money to_period_M self)
                    (fst (identify_recurring_payments self))
                    (get_recommendations self2 5)
                    (fst (_get_top_questionable_transactions self2 8))
                    (transactions_with_ratings
                       (snd (_get_top_questionable_transactions self2 8)))
                    (investment_projection (get_recommendations self2 5))).
  { subst self2. unfold generate_dashboard, identify_recurring_payments.
    cbv beta iota zeta. cbn [fst snd].
    destruct (_get_top_questionable_transactions _ 8). reflexivity. }
  rewrite Hgd.
  cbn [db_transaction_ratings db_spending_cuts db_top_questionable_spending
       db_investment_projection].
  rewrite Hs3, Hcuts, Hq.
  assert (Hlen5 : (List.length (map recommendation_of
                      (firstn 5 (analyze_spending self))) <= 5)%nat).
  { rewrite length_map. apply firstn_le_length. }
  pose proof (slice_to_length
                (sorted_desc tr_waste_potential
                   (filter (fun t => Qltb (tr_necessity t) (70 # 100))
                           (fst (rate_transaction_worth self)))) 8
                ltac:(lia)) as Hlen8.
  repeat split.
  - cbn. now rewrite length_map.
  - apply Forall_forall. intros t Ht.
    apply slice_to_In, sorted_desc_In, filter_In in Ht. tauto.
  - apply slice_to_all. lia.
  - apply slice_to_all. lia.
  - apply slice_to_all. lia.
Qed.

(** * The figures in binary floating point *)

(** ** Rounding to the nearest double *)

Lemma round_half_even_error (x : Q) :
  Qabs (inject_Z (round_half_even x) - x) <= 1 # 2.
Proof.
  destruct x as [n d].
  pose proof (round_half_even_bounds n d) as H. cbv zeta in H.
  set (k := round_half_even (n # d)) in *. clearbody k.
  apply Qabs_Qle_condition. unfold Qle, Qminus, Qplus, Qopp, inject_Z. cbn.
  split; nia.
Qed.

Lemma pow2_pos (e : Z) : 0 < Float64.pow2 e.
Proof. apply Qpower_0_lt. reflexivity. Qed.

Lemma pow2_plus (a b : Z) :
  Float64.pow2 (a + b) == Float64.pow2 a * Float64.pow2 b.
Proof. apply Qpower_plus. discriminate. Qed.


Lemma fl_value (x : Q) :
  Float64.fl x
  == inject_Z (round_half_even (x / Float64.pow2 (Float64.quantum x)))
     * Float64.pow2 (Float64.quantum x).
Proof. unfold Float64.fl. cbv zeta. apply Qred_correct. Qed.



Lemma pow2_opp (e : Z) : Float64.pow2 (- e) == / Float64.pow2 e.
Proof. apply Qpower_opp. Qed.

Lemma pow2_succ (e : Z) : Float64.pow2 (e + 1) == 2 * Float64.pow2 e.
Proof. rewrite pow2_plus. change (Float64.pow2 1) with 2. ring. Qed.

Lemma pow2_log2 (n : Z) :
  (0 < n)%Z ->
  Float64.pow2 (Z.log2 n) <= inject_Z n /\
  inject_Z n < 2 * Float64.pow2 (Z.log2 n).
Proof.
  intros H. destruct (Z.log2_spec n H) as [H1 H2].
  pose proof (Z.log2_nonneg n) as H0.
  assert (E : Float64.pow2 (Z.log2 n) == inject_Z (2 ^ Z.log2 n)).
  { unfold Float64.pow2. now rewrite Zpower_Qpower. }
  rewrite E. split.
  - now rewrite <- Zle_Qle.
  - change 2 with (inject_Z 2). rewrite <- inject_Z_mult, <- Zlt_Qlt.
    rewrite Z.pow_succ_r in H2 by exact H0. exact H2.
Qed.

(** [binade] finds the power of two at or below a number other than 0. *)
Lemma binade_spec (x : Q) :
  ~ x == 0 ->
  exists e, Float64.binade x = Some e /\
            Float64.pow2 e <= Qabs x /\ Qabs x < Float64.pow2 (e + 1).
Proof.
  intros Hx. destruct x as [n d].
  assert (Hn : (0 < Z.abs n)%Z).
  { destruct n; cbn; try lia. exfalso. apply Hx. reflexivity. }
  unfold Float64.binade. cbn [Qnum Qden].
  destruct (pow2_log2 (Z.abs n) Hn) as [Ha1 Ha2].
  destruct (pow2_log2 (Zpos d) eq_refl) as [Hb1 Hb2].
  pose proof (pow2_pos (Z.log2 (Z.abs n))) as HA.
  pose proof (pow2_pos (Z.log2 (Zpos d))) as HB.
  set (a := Z.log2 (Z.abs n)) in *. set (b := Z.log2 (Zpos d)) in *.
  assert (Eabs : Qabs (n # d) == inject_Z (Z.abs n) / inject_Z (Zpos d)).
  { change (Qabs (n # d)) with (Z.abs n # d). apply Qmake_Qdiv. }
  assert (HD : 0 < inject_Z (Zpos d)) by reflexivity.
  assert (E0 : Float64.pow2 (a - b) == Float64.pow2 a / Float64.pow2 b).
  { unfold Z.sub. rewrite pow2_plus, pow2_opp. reflexivity. }
  assert (E1 : Float64.pow2 (a - b - 1)
               == Float64.pow2 a / (2 * Float64.pow2 b)).
  { replace (a - b - 1)%Z with (a + - (b + 1))%Z by lia.
    rewrite pow2_plus, pow2_opp, pow2_succ. reflexivity. }
  set (A := Float64.pow2 a) in *. set (B := Float64.pow2 b) in *.
  set (N := inject_Z (Z.abs n)) in *. set (D := inject_Z (Zpos d)) in *.
  assert (Hup : N / D < 2 * (A / B)).
  { apply Qlt_shift_div_r; [exact HD|].
    setoid_replace (2 * (A / B) * D) with ((2 * A * D) / B) by (field; lra).
    apply Qlt_shift_div_l; [exact HB|]. clearbody A B N D. nra. }
  assert (Hlow : A / (2 * B) <= N / D).
  { apply Qle_shift_div_l; [exact HD|].
    setoid_replace (A / (2 * B) * D) with ((A * D) / (2 * B)) by (field; lra).
    apply Qle_shift_div_r; [lra|]. clearbody A B N D. nra. }
  destruct (Qle_bool (Float64.pow2 (a - b)) (Qabs (n # d))) eqn:T1.
  - exists (a - b)%Z. split; [reflexivity|]. apply Qle_bool_iff in T1.
    split; [exact T1|]. rewrite pow2_succ, E0, Eabs. exact Hup.
  - assert (T2 : Qle_bool (Float64.pow2 (a - b - 1)) (Qabs (n # d)) = true).
    { apply Qle_bool_iff. rewrite E1, Eabs. exact Hlow. }
    rewrite T2. exists (a - b - 1)%Z. split; [reflexivity|].
    apply Qle_bool_iff in T2. split; [exact T2|].
    replace (a - b - 1 + 1)%Z with (a - b)%Z by lia.
    apply Qnot_le_lt. intros H. apply Qle_bool_iff in H. congruence.
Qed.

(** The result of [fl] is a double: a whole number of spacings, with a
    significand of at most 53 bits, nearest to the number given. *)
Lemma fl_double (x : Q) :
  exists k : Z,
    Float64.fl x == inject_Z k * Float64.pow2 (Float64.quantum x) /\
    (Z.abs k <= 2 ^ 53)%Z /\
    (-1074 <= Float64.quantum x)%Z /\
    Qabs (inject_Z k - x / Float64.pow2 (Float64.quantum x)) <= 1 # 2.
Proof.
  exists (round_half_even (x / Float64.pow2 (Float64.quantum x))).
  split; [apply fl_value|].
  assert (Hq : (-1074 <= Float64.quantum x)%Z).
  { unfold Float64.quantum. destruct (Float64.binade x); lia. }
  split; [|split; [exact Hq | apply round_half_even_error]].
  set (q := Float64.pow2 (Float64.quantum x)).
  assert (Hqp : 0 < q) by apply pow2_pos.
  assert (Hb : Qabs (x / q) <= inject_Z (2 ^ 53)).
  { destruct (Qeq_dec x 0) as [E|E].
    { rewrite E. unfold Qdiv. rewrite Qmult_0_l. discriminate. }
    destruct (binade_spec x E) as (e & He & _ & Hup).
    unfold Qdiv. rewrite Qabs_Qmult, (Qabs_pos (/ q))
      by (apply Qlt_le_weak, Qinv_lt_0_compat, Hqp).
    apply Qle_shift_div_r; [exact Hqp|].
    apply Qlt_le_weak. eapply Qlt_le_trans; [exact Hup|].
    assert (Hle : (e - 52 <= Float64.quantum x)%Z).
    { unfold Float64.quantum. rewrite He. lia. }
    replace (e + 1)%Z with (53 + (e - 52))%Z by lia.
    rewrite pow2_plus. change (Float64.pow2 53) with (inject_Z (2 ^ 53)).
    apply Qmult_le_l; [reflexivity|].
    unfold q, Float64.pow2. apply Qpower_le_compat_l; [exact Hle|discriminate]. }
  apply Qabs_Qle_condition in Hb. destruct Hb as [Hb1 Hb2].
  apply round_half_even_le in Hb1. apply round_half_even_le in Hb2.
  change (round_half_even (- inject_Z (2 ^ 53))) with (- 2 ^ 53)%Z in Hb1.
  change (round_half_even (inject_Z (2 ^ 53))) with (2 ^ 53)%Z in Hb2.
  apply Z.abs_le. split; assumption.
Qed.

(** On the samples, [fl] gives the double that the processor gives, and
    so do sum, difference, product and quotient. *)
Example fl_agrees_with_processor :
  forallb (fun x => Float64.agree (Float64.machine x) (Float64.fl x))
          Float64.machine_samples = true.
Proof. vm_compute. reflexivity. Qed.

Example operations_agree_with_processor :
  forallb (fun x =>
    forallb (fun y =>
      Float64.agree (PrimFloat.add (Float64.machine x) (Float64.machine y))
                    (Float64.add (Float64.fl x) (Float64.fl y))
      && Float64.agree (PrimFloat.sub (Float64.machine x) (Float64.machine y))
                       (Float64.sub (Float64.fl x) (Float64.fl y))
      && Float64.agree (PrimFloat.mul (Float64.machine x) (Float64.machine y))
                       (Float64.mul (Float64.fl x) (Float64.fl y))
      && Float64.agree (PrimFloat.div (Float64.machine x) (Float64.machine y))
                       (Float64.div (Float64.fl x) (Float64.fl y)))
      Float64.machine_samples) Float64.machine_samples = true.
Proof. vm_compute. reflexivity. Qed.



Lemma round_half_even_nonneg (x : Q) : 0 <= x -> (0 <= round_half_even x)%Z.
Proof.
  intros H. change 0%Z with (round_half_even 0).
  now apply round_half_even_le.
Qed.

Lemma fl_nonneg (x : Q) : 0 <= x -> 0 <= Float64.fl x.
Proof.
  intros H. rewrite fl_value.
  set (q := Float64.pow2 (Float64.quantum x)).
  assert (Hq : 0 < q) by apply pow2_pos.
  apply Qmult_le_0_compat; [|lra].
  change 0 with (inject_Z 0). rewrite <- Zle_Qle.
  apply round_half_even_nonneg.
  apply Qle_shift_div_l; [exact Hq|]. lra.
Qed.

(** ** The scores as doubles *)

Lemma necessity_table_doubles :
  Forall (fun kv => 0 <= Float64.fl (snd kv) /\ Float64.fl (snd kv) <= 1 /\
                    Float64.round_2 (Float64.fl (snd kv)) = Float64.fl (snd kv))
         necessity_table.
Proof.
  apply Forall_forall. intros kv Hin.
  assert (H : forallb (fun kv =>
                Qle_bool 0 (Float64.fl (snd kv))
                && Qle_bool (Float64.fl (snd kv)) 1
                && Qeq_bool (Float64.round_2 (Float64.fl (snd kv))
                             - Float64.fl (snd kv)) 0
                && (Qnum (Float64.round_2 (Float64.fl (snd kv)))
                    =? Qnum (Float64.fl (snd kv)))%Z
                && (Qden (Float64.round_2 (Float64.fl (snd kv)))
                    =? Qden (Float64.fl (snd kv)))%positive)
             necessity_table = true) by (vm_compute; reflexivity).
  rewrite forallb_forall in H. specialize (H kv Hin).
  apply andb_true_iff in H. destruct H as [H Hd].
  apply andb_true_iff in H. destruct H as [H Hn].
  apply andb_true_iff in H. destruct H as [H _].
  apply andb_true_iff in H. destruct H as [H0 H1].
  apply Qle_bool_iff in H0. apply Qle_bool_iff in H1.
  apply Z.eqb_eq in Hn. apply Pos.eqb_eq in Hd.
  repeat split; try assumption.
  destruct (Float64.round_2 (Float64.fl (snd kv))) as [a b],
           (Float64.fl (snd kv)) as [c d]. cbn in Hn, Hd. congruence.
Qed.

Lemma score_double_range (self : SpendingAnalyzer) (category : option string) :
  necessity_scores self = necessity_table ->
  let score := Float64.get_necessity_score self category in
  0 <= score /\ score <= 1 /\ Float64.round_2 score = score.
Proof.
  intros Ht. cbv zeta. unfold Float64.get_necessity_score, get_necessity_score.
  rewrite Ht.
  set (cat := match category with Some c => lower c | None => "other" end).
  destruct (dict_get_In necessity_table cat (50 # 100)) as [->|Hin].
  - repeat split; vm_compute; solve [discriminate|reflexivity].
  - pose proof necessity_table_doubles as Hr. rewrite Forall_forall in Hr.
    exact (Hr _ Hin).
Qed.

(** ** Transaction ratings *)



Lemma rate_transaction_worth_double_In (self : SpendingAnalyzer)
    (t : TransactionRating) :
  In t (fst (Float64.rate_transaction_worth self)) <->
  exists r, In r (rows (df self)) /\ t = Float64.rate_row self r.
Proof.
  cbn. rewrite in_map_iff. split; intros [r H]; exists r; intuition.
Qed.




(** One cent alone is not enough for small amounts either: 1.15 at the
    default necessity 0.50 is rated 0.57 and 0.57, and the doubles for
    0.57, 0.57 and 1.15 leave a gap just above the double for 0.01. *)
Example rating_exceeds_cent :
  let t := Float64.rate_row figures_analyzer
             (mkRow 1 (Some 2%Z) (-115 # 100) "Misc" "Kiosk" false) in
  In t (fst (Float64.rate_transaction_worth figures_analyzer)) /\
  tr_worth_it_rating t = Float64.fl (57 # 100) /\
  tr_waste_potential t = Float64.fl (57 # 100) /\
  tr_amount t = Float64.fl (-115 # 100) /\
  1 # 100 < Qabs (tr_worth_it_rating t + tr_waste_potential t
                  - Qabs (tr_amount t)) /\
  Float64.fl (1 # 100)
  < Float64.sub (Qabs (tr_amount t))
                (Float64.add (tr_worth_it_rating t) (tr_waste_potential t)).
Proof.
  cbv zeta. split.
  { apply rate_transaction_worth_double_In. eexists. split; [|reflexivity].
    cbn. right. left. reflexivity. }
  repeat split; vm_compute; reflexivity.
Qed.

(** Half a unit of dining (necessity 0.35) is rated 0.17 and 0.33: the
    doubles for 0.175 and 0.325 lie below and above these decimals. *)
Example rating_of_half_a_unit :
  let t := Float64.rate_row figures_analyzer
             (mkRow 2 (Some 3%Z) (-5 # 10) "Dining" "Cafe" false) in
  tr_worth_it_rating t = Float64.fl (17 # 100) /\
  tr_waste_potential t = Float64.fl (33 # 100) /\
  tr_necessity t = Float64.fl (35 # 100).
Proof. repeat split; vm_compute; reflexivity. Qed.

(** X9: with the necessity table of the source, [rate_transaction_worth]
    returns one rating per row of the table, in row order, with the
    date and description of the row and with its amount converted to a
    float.  The reported necessity is the score of the row's category,
    which rounding to two places leaves as it is; the mark is the one
    that belongs to that score; and neither the worth-it rating nor the
    waste potential is negative. *)
Theorem ratings_follow_rows (self : SpendingAnalyzer) :
  necessity_scores self = necessity_table ->
  Forall2 (fun t r =>
             tr_date t = Date r /\
             tr_description t = Description r /\
             tr_amount t = Float64.fl (Amount r) /\
             tr_necessity t
             = Float64.get_necessity_score self (Some (Category r)) /\
             tr_assessment t = Float64.assess (tr_necessity t) /\
             0 <= tr_worth_it_rating t /\
             0 <= tr_waste_potential t)
          (fst (Float64.rate_transaction_worth self)) (rows (df self)).
Proof.
  intros Ht. cbn [fst Float64.rate_transaction_worth].
  induction (rows (df self)) as [|r l IH]; cbn [map]; constructor;
    [|exact IH].
  destruct (score_double_range self (Some (Category r)) Ht) as (H0 & H1 & Hr).
  cbv zeta in *.
  cbn [Float64.rate_row tr_date tr_description tr_amount tr_necessity
         tr_assessment tr_worth_it_rating tr_waste_potential].
  rewrite Hr.
  set (n := Float64.get_necessity_score self (Some (Category r))) in *.
  pose proof (Qabs_nonneg (Float64.fl (Amount r))) as Ha.
  set (a := Qabs (Float64.fl (Amount r))) in *.
  assert (Hm : 0 <= Float64.sub 1 n) by (apply fl_nonneg; lra).
  repeat split; unfold Float64.round_2, Float64.mul;
    apply fl_nonneg, round2_nonneg, fl_nonneg; nra.
Qed.

Lemma ratings_follow_rows_witness :
  necessity_scores figures_analyzer = necessity_table /\
  Forall2 (fun t r => tr_amount t = Float64.fl (Amount r)
                      /\ 0 <= tr_waste_potential t)
          (fst (Float64.rate_transaction_worth figures_analyzer))
          (rows (df figures_analyzer)).
Proof.
  split; [reflexivity|].
  eapply Forall2_impl; [|exact (ratings_follow_rows figures_analyzer eq_refl)].
  intros t r Htr. split; apply Htr.
Defined.

(** ** Recurring payments *)


(** Two payments of 2.67 and 2.68 under one description are reported
    with the average -2.67: the double for their mean lies just above
    -2.675. *)
Example recurring_average_of_two :
  map (fun g => (rp_description g, rp_count g, rp_average_amount g))
      (fst (Float64.identify_recurring_payments Float64.sum_left
              figures_analyzer))
  = [("top up", 2%nat, Float64.fl (-267 # 100))].
Proof. vm_compute. reflexivity. Qed.

(** ** Spending cuts *)

Lemma float_suggestion_In (series_sum : list Q -> Q) (self : SpendingAnalyzer)
    (s : Suggestion) :
  In s (Float64.analyze_spending series_sum self) ->
  let cat := sg_category s in
  let total := series_sum (category_expenses cat (rows (df self))) in
  let necessity := Float64.get_necessity_score self (Some cat) in
  lower cat = cat /\
  sg_amount s = Float64.round_2 (Qabs (Float64.fl total)) /\
  sg_potential_cut s
  = Float64.round_2 (Float64.potential_cut series_sum self cat) /\
  sg_necessity s = necessity /\
  ~ (In cat protected /\ Float64.fl (9 # 10) <= necessity) /\
  1 < Float64.potential_cut series_sum self cat.
Proof.
  unfold Float64.analyze_spending. intros H.
  set (expenses := filter (fun r => Qltb (Amount r) 0) (rows (df self))) in *.
  assert (Hin : In s (sorted_desc sg_potential_cut
                        (flat_map (Float64.suggestion_of self)
                                  (Float64.groupby_sum series_sum expenses)))).
  { destruct expenses; [destruct H | exact H]. }
  clear H. apply sorted_desc_In, in_flat_map in Hin.
  destruct Hin as [[cat total] [Hin Hs]].
  unfold Float64.groupby_sum in Hin. apply in_map_iff in Hin.
  destruct Hin as [[k t] [E Hk]]. cbn [fst] in E. injection E as -> <-.
  pose proof (groupby_sum_lower expenses) as Hl.
  rewrite Forall_forall in Hl. specialize (Hl _ Hk). cbn [fst] in Hl.
  unfold Float64.suggestion_of in Hs.
  destruct (mem cat protected
            && Qgeb (Float64.get_necessity_score self (Some cat))
                    (Float64.fl (9 # 10))) eqn:Ep; [destruct Hs|].
  match type of Hs with context [Qle_bool ?c 1] =>
    destruct (Qle_bool c 1) eqn:Ec end; [destruct Hs|].
  destruct Hs as [<-|[]].
  cbn [sg_category sg_amount sg_potential_cut sg_necessity]. cbv zeta.
  split; [exact Hl|]. repeat split.
  - intros [Hp Hn]. apply mem_In in Hp. apply Qgeb_ge in Hn.
    rewrite Hp, Hn in Ep. discriminate.
  - apply Qltb_lt. unfold Qltb, Float64.potential_cut, category_expenses.
    fold expenses. now rewrite Ec.
Qed.





(** Groceries that total 20.00 are listed with a potential cut reported
    as 1.0: the double for [1 - 0.95] is above 0.05, and the product
    computed is 1 + 2^-50.  At 20.50 the report is 1.03. *)
Example groceries_at_twenty :
  Float64.potential_cut Float64.sum_left figures_analyzer "groceries"
  == 1 + (1 # 2 ^ 50) /\
  map (fun s => (sg_category s, sg_amount s, sg_potential_cut s))
      (Float64.analyze_spending Float64.sum_left figures_analyzer)
  = [ ("entertainment", 8000000000000001, 5600000000000000);
      ("phone", Float64.fl (535 # 100), Float64.fl (161 # 100));
      ("groceries", 20, 1) ] /\
  Float64.round_2 (Float64.mul (Float64.fl (2050 # 100))
                               (Float64.sub 1 (Float64.fl (95 # 100))))
  = Float64.fl (103 # 100).
Proof. repeat split; vm_compute; reflexivity. Qed.

Lemma float_analyze_spending_unfold (series_sum : list Q -> Q)
    (self : SpendingAnalyzer) :
  let expenses := filter (fun r => Qltb (Amount r) 0) (rows (df self)) in
  Float64.analyze_spending series_sum self
  = sorted_desc sg_potential_cut
      (flat_map (Float64.suggestion_of self)
                (Float64.groupby_sum series_sum expenses)).
Proof.
  cbv zeta. unfold Float64.analyze_spending.
  destruct (filter (fun r => Qltb (Amount r) 0) (rows (df self)));
    reflexivity.
Qed.

Lemma float_suggestions_NoDup (self : SpendingAnalyzer)
    (m : list (string * Q)) :
  NoDup (map fst m) ->
  NoDup (map sg_category (flat_map (Float64.suggestion_of self) m)).
Proof.
  assert (Hcat : forall e s, In s (Float64.suggestion_of self e) ->
                             sg_category s = fst e).
  { intros [cat total] s. unfold Float64.suggestion_of.
    destruct (mem cat protected && _); [intros []|].
    destruct (Qle_bool _ 1); [intros []|].
    intros [<-|[]]. reflexivity. }
  induction m as [|e m IH]; cbn; intros H; [constructor|].
  inversion H as [|? ? Hk Hm]; subst.
  rewrite map_app. apply NoDup_app; [|now apply IH|].
  - destruct e as [cat total]. unfold Float64.suggestion_of.
    destruct (mem cat protected && _); [constructor|].
    destruct (Qle_bool _ 1); [constructor|].
    cbn. constructor; [intros []|constructor].
  - intros c Hc Hc'. apply in_map_iff in Hc. destruct Hc as [s [<- Hs]].
    apply Hcat in Hs.
    apply in_map_iff in Hc'. destruct Hc' as [s' [E Hs']].
    apply in_flat_map in Hs'. destruct Hs' as [e' [He' Hs']].
    apply Hcat in Hs'.
    apply Hk. apply in_map_iff. exists e'. split; [congruence|exact He'].
Qed.

(** X12: [analyze_spending] returns its suggestions in descending order
    of the reported potential cut, with no category twice.  Every
    suggestion is determined by its category, which is in lower case:
    its amount is the absolute value of the sum of the category's
    expense amounts, its potential cut is that value times one minus
    the category's necessity, both rounded to two decimal places, and
    its necessity is the unrounded score.  Products and roundings are
    those of Python's floats, the sum is the one pandas computes. *)
Theorem analyze_spending_entries (series_sum : list Q -> Q)
    (self : SpendingAnalyzer) :
  let result := Float64.analyze_spending series_sum self in
  StronglySorted (desc_by sg_potential_cut) result /\
  NoDup (map sg_category result) /\
  Forall (fun s =>
            let cat := sg_category s in
            let total := series_sum (category_expenses cat (rows (df self))) in
            lower cat = cat /\
            sg_amount s = Float64.round_2 (Qabs (Float64.fl total)) /\
            sg_potential_cut s
            = Float64.round_2 (Float64.potential_cut series_sum self cat) /\
            sg_necessity s = Float64.get_necessity_score self (Some cat))
         result.
Proof.
  cbv zeta. split; [|split].
  - rewrite float_analyze_spending_unfold. apply sorted_desc_sorted.
  - rewrite float_analyze_spending_unfold.
    eapply Permutation_NoDup.
    + apply Permutation_map. symmetry. apply sorted_desc_perm.
    + apply float_suggestions_NoDup. unfold Float64.groupby_sum.
      rewrite map_map. cbn [fst].
      apply sorted_keys_NoDup, groupby_sum_spec.
  - apply Forall_forall. intros s Hs.
    destruct (float_suggestion_In series_sum self s Hs)
      as (Hl & Ha & Hp & Hn & _).
    cbv zeta in *. auto.
Qed.
